(** * nanotar: an in-memory tar codec (dist/index.cjs)

    A shallow embedding of [parseTar] and [createTar] with the helpers they
    call, followed by the properties of the codec.

    Conventions of the embedding.
    - An [ArrayBuffer] is a [list byte]; a typed-array view that would raise
      a [RangeError] is [None].
    - A JavaScript string is represented by its UTF-8 encoding, a
      [list byte].  [TextEncoder] is the identity on this representation and
      [TextDecoder] removes a leading byte-order mark; this is exact on
      well-formed UTF-8 (the replacement of ill-formed sequences by U+FFFD is
      not modelled).
    - A JavaScript number is a [num]: an integer, or [NaN].  Every number the
      codec reads from a header has at most 12 digits, so no rounding occurs.
    - [Date.now()] is a parameter of [createTar]: the clock reading at each
      entry.
    - The [while] loop of [parseTar] runs on a fuel and reports when it is
      spent; results about decoded archives give the fuel that suffices. *)

From Stdlib Require Import ZArith NArith Lia.
From Stdlib.Strings Require Import Byte String.
From stdpp Require Import base option list gmap.

Local Open Scope Z_scope.

(** ** Bytes and strings *)

Abbreviation byte := Byte.byte.
Definition str (s : string) : list byte := list_byte_of_string s.

Definition b2N (b : byte) : N := Byte.to_N b.
Definition N2b (n : N) : byte := default Byte.x00 (Byte.of_N n).

#[global] Instance byte_eq_dec : EqDecision byte := Byte.byte_eq_dec.
#[global] Instance byte_countable : Countable byte :=
  inj_countable Byte.to_N Byte.of_N Byte.of_to_N.

(** A JavaScript number: [None] is NaN. *)
Abbreviation num := (option Z) (only parsing).
Abbreviation NaN := (@None Z) (only parsing).

(** ** Built-ins used by the codec *)

(** A UTF-8 continuation byte, 10xxxxxx. *)
Definition is_continuation (b : byte) : bool :=
  ((128 <=? b2N b) && (b2N b <? 192))%N.

(** [String.prototype.length]: UTF-16 code units of a string given in UTF-8;
    one per character, two for a character encoded on four bytes. *)
Fixpoint utf16_length (s : list byte) : nat :=
  match s with
  | [] => 0%nat
  | b :: s' =>
      ((if is_continuation b then 0 else if (240 <=? b2N b)%N then 2 else 1)
       + utf16_length s')%nat
  end.

Definition BOM : list byte := [Byte.xef; Byte.xbb; Byte.xbf].

(** [new TextDecoder().decode(view)]: UTF-8, BOM not ignored, hence removed.
    The result is the string returned for a view that is well-formed UTF-8;
    the U+FFFD the decoder substitutes for an ill-formed sequence is not
    modelled. *)
Definition TextDecoder_decode (view : list byte) : list byte :=
  if bool_decide (take 3 view = BOM) then drop 3 view else view.

(** [new TextEncoder().encode(str)]. *)
Definition TextEncoder_encode (s : list byte) : list byte := s.

(** The last character boundary of [s] at or before index [k]. *)
Fixpoint fit_boundary (s : list byte) (k : nat) : nat :=
  match k with
  | O => O
  | S k' =>
      match s !! k with
      | Some b => if is_continuation b then fit_boundary s k' else k
      | None => k
      end
  end.

(** [te.encodeInto(str, view)]: the bytes written, whole characters only. *)
Definition encodeInto (s : list byte) (size : nat) : list byte :=
  if decide (length s ≤ size)%nat then s else take (fit_boundary s size) s.

(** WhiteSpace and LineTerminator of ECMAScript, in UTF-8. *)
Definition js_whitespace : list (list byte) :=
  [ [Byte.x09]; [Byte.x0a]; [Byte.x0b]; [Byte.x0c]; [Byte.x0d]; [Byte.x20];
    [Byte.xc2; Byte.xa0];
    [Byte.xe1; Byte.x9a; Byte.x80];
    [Byte.xe2; Byte.x80; Byte.x80]; [Byte.xe2; Byte.x80; Byte.x81];
    [Byte.xe2; Byte.x80; Byte.x82]; [Byte.xe2; Byte.x80; Byte.x83];
    [Byte.xe2; Byte.x80; Byte.x84]; [Byte.xe2; Byte.x80; Byte.x85];
    [Byte.xe2; Byte.x80; Byte.x86]; [Byte.xe2; Byte.x80; Byte.x87];
    [Byte.xe2; Byte.x80; Byte.x88]; [Byte.xe2; Byte.x80; Byte.x89];
    [Byte.xe2; Byte.x80; Byte.x8a];
    [Byte.xe2; Byte.x80; Byte.xa8]; [Byte.xe2; Byte.x80; Byte.xa9];
    [Byte.xe2; Byte.x80; Byte.xaf];
    [Byte.xe2; Byte.x81; Byte.x9f];
    [Byte.xe3; Byte.x80; Byte.x80];
    [Byte.xef; Byte.xbb; Byte.xbf] ].

Definition startsWith (s p : list byte) : bool :=
  bool_decide (take (length p) s = p).

Definition endsWith (s p : list byte) : bool :=
  bool_decide (drop (length s - length p) s = p).

Fixpoint strip_one (pats : list (list byte)) (s : list byte)
    : option (list byte) :=
  match pats with
  | [] => None
  | p :: pats' =>
      if startsWith s p then Some (drop (length p) s) else strip_one pats' s
  end.

Fixpoint strip_loop (pats : list (list byte)) (fuel : nat) (s : list byte)
    : list byte :=
  match fuel with
  | O => s
  | S fuel' =>
      match strip_one pats s with
      | Some s' => strip_loop pats fuel' s'
      | None => s
      end
  end.

Definition trimStart (s : list byte) : list byte :=
  strip_loop js_whitespace (length s) s.

(** The same characters, read from the end of the string. *)
Definition trimEnd (s : list byte) : list byte :=
  reverse (strip_loop (reverse <$> js_whitespace) (length s) (reverse s)).

(** [String.prototype.trim]. *)
Definition trim (s : list byte) : list byte := trimEnd (trimStart s).

(** The value of a digit in radix up to 36. *)
Definition digit_val (b : byte) : option N :=
  let n := b2N b in
  if ((48 <=? n) && (n <=? 57))%N then Some (n - 48)%N
  else if ((97 <=? n) && (n <=? 122))%N then Some (n - 87)%N
  else if ((65 <=? n) && (n <=? 90))%N then Some (n - 55)%N
  else None.

(** The longest prefix of radix-[R] digits, as a number; [None] when the
    prefix is empty. *)
Fixpoint parse_digits (R : N) (s : list byte) (acc : option N) : option N :=
  match s with
  | [] => acc
  | b :: s' =>
      match digit_val b with
      | Some d =>
          if (d <? R)%N then parse_digits R s' (Some (R * default 0 acc + d))%N
          else acc
      | None => acc
      end
  end.

(** [Number.parseInt(string, radix)]; [radix = 0] stands for an omitted
    radix. *)
Definition parseInt (input : list byte) (radix : Z) : num :=
  let s := trimStart input in
  let sign := if startsWith s (str "-") then -1 else 1 in
  let s := if startsWith s (str "-") || startsWith s (str "+")
           then drop 1 s else s in
  if negb (radix =? 0) && ((radix <? 2) || (36 <? radix)) then NaN
  else
    let R := if radix =? 0 then 10 else radix in
    let stripPrefix := (radix =? 0) || (radix =? 16) in
    let hex := stripPrefix && (startsWith s (str "0x") || startsWith s (str "0X")) in
    let s := if hex then drop 2 s else s in
    let R := if hex then 16 else R in
    match parse_digits (Z.to_N R) s None with
    | None => NaN
    | Some n => Some (sign * Z.of_N n)
    end.

Definition digit_char (d : N) : byte :=
  N2b (if (d <? 10)%N then 48 + d else 87 + d)%N.

Fixpoint N_digits (fuel : nat) (R n : N) (acc : list byte) : list byte :=
  match fuel with
  | O => acc
  | S fuel' =>
      let acc' := digit_char (n mod R) :: acc in
      if (n / R =? 0)%N then acc' else N_digits fuel' R (n / R) acc'
  end.

(** [Number.prototype.toString(radix)] on an integer. *)
Definition Number_toString (z : Z) (R : N) : list byte :=
  let n := Z.abs_N z in
  let ds := N_digits (S (N.to_nat (N.log2 n))) R n [] in
  if z <? 0 then str "-" ++ ds else ds.

(** [String.prototype.split] on a one-character separator. *)
Fixpoint split (sep : byte) (s : list byte) : list (list byte) :=
  match s with
  | [] => [[]]
  | b :: s' =>
      if decide (b = sep) then [] :: split sep s'
      else match split sep s' with
           | w :: ws => (b :: w) :: ws
           | [] => [[b]]
           end
  end.

(** [String.fromCodePoint(c)] for a code point below 256. *)
Definition String_fromCodePoint (b : byte) : list byte :=
  let n := b2N b in
  if (n <? 128)%N then [b] else [N2b (192 + n / 64); N2b (128 + n mod 64)].

(** [ToIndex]: NaN is 0, a negative integer raises a RangeError. *)
Definition ToIndex (v : num) : option nat :=
  match v with
  | None => Some O
  | Some z => if z <? 0 then None else Some (Z.to_nat z)
  end.

(** [new Uint8Array(buffer, byteOffset, length)]; [None] is the RangeError
    of a view that does not fit the buffer. *)
Definition Uint8Array_new (buffer : list byte) (byteOffset : Z) (len : num)
    : option (list byte) :=
  off ← ToIndex (Some byteOffset);
  n ← ToIndex len;
  sublist_lookup off n buffer.

(** ** The header type table *)

Definition tarItemTypeMap : list (list byte * list byte) :=
  [ (str "0", str "file");
    (str "1", str "hardLink");
    (str "2", str "symbolicLink");
    (str "3", str "characterDevice");
    (str "4", str "blockDevice");
    (str "5", str "directory");
    (str "6", str "fifo");
    (str "7", str "contiguousFile");
    (str "g", str "globalExtendedHeader");
    (str "x", str "extendedHeader");
    (str "D", str "gnuDirectory");
    (str "I", str "gnuInodeMetadata");
    (str "K", str "gnuLongLinkName");
    (str "L", str "gnuLongFileName");
    (str "N", str "gnuOldLongFileName");
    (str "M", str "gnuMultiVolume");
    (str "S", str "gnuSparseFile");
    (str "E", str "gnuExtendedSparse");
    (str "A", str "solarisAcl");
    (str "V", str "solarisVolumeLabel");
    (str "X", str "solarisOldExtendedHeader") ].

Fixpoint assoc (k : list byte) (m : list (list byte * list byte))
    : option (list byte) :=
  match m with
  | [] => None
  | (k', v) :: m' => if decide (k = k') then Some v else assoc k m'
  end.

(** ** Reading *)

(** [_readString(buffer, offset, size)]: the field up to its first NUL. *)
Definition _readString (buffer : list byte) (offset : Z) (size : num)
    : option (list byte) :=
  view ← Uint8Array_new buffer offset size;
  Some (TextDecoder_decode
          (match list_find (λ b, b = Byte.x00) view with
           | Some (i, _) => take i view
           | None => view
           end)).

(** [_readNumber(buffer, offset, size)]: every byte becomes a character, the
    result is parsed in radix 8. *)
Definition _readNumber (buffer : list byte) (offset : Z) (size : Z)
    : option num :=
  view ← Uint8Array_new buffer offset (Some size);
  Some (parseInt (concat (String_fromCodePoint <$> view)) 8).

(** An extended header: keyword to value, a value may be [undefined]. *)
Abbreviation Headers := (gmap (list byte) (option (list byte))).

(** [headers[k] = v] on a plain object: assigning a string or undefined to
    [__proto__] has no effect. *)
Definition set_property (k : list byte) (v : option (list byte))
    (headers : Headers) : Headers :=
  if decide (k = str "__proto__") then headers else <[k := v]> headers.

(** [_parseExtendedHeaders(data)]. *)
Definition _parseExtendedHeaders (data : list byte) : Headers :=
  let dataStr := TextDecoder_decode data in
  foldl (λ headers line,
           match split " " line !! 1%nat with
           | Some kv =>
               let s := split "=" kv in
               set_property (default [] (s !! 0%nat)) (s !! 1%nat) headers
           | None => headers
           end)
        ∅ (split Byte.x0a dataStr).

(** ** parseTar *)

(** A value stored in [attrs]. *)
Inductive JsValue :=
  | JUndefined
  | JString (s : list byte)
  | JNumber (n : num).

Definition of_header (v : option (list byte)) : JsValue :=
  match v with
  | Some s => JString s
  | None => JUndefined
  end.

Record Meta := {
  meta_name : list byte;
  meta_type : list byte;
  meta_size : num;
  meta_attrs : gmap (list byte) JsValue
}.

(** What [files.push] receives: the metadata alone under [metaOnly], or the
    metadata with its [data] (a view of the payload, or undefined). *)
Inductive Entry :=
  | MetaEntry (m : Meta)
  | FileEntry (m : Meta) (data : option (list byte)).

Definition entry_meta (e : Entry) : Meta :=
  match e with
  | MetaEntry m => m
  | FileEntry m _ => m
  end.

(** The lazy [text] accessor of an emitted entry. *)
Definition entry_text (e : Entry) : list byte :=
  match e with
  | FileEntry _ (Some d) => TextDecoder_decode d
  | _ => []
  end.

Record ParseOpts := {
  opt_filter : option (Meta -> bool);
  opt_metaOnly : bool
}.

Definition no_opts : ParseOpts :=
  {| opt_filter := None; opt_metaOnly := false |}.

(** The variables of the decode loop. *)
Record State := {
  offset : num;
  nextExtendedHeader : option Headers;
  globalExtendedHeader : option Headers;
  files : list Entry
}.

Definition initial_state : State :=
  {| offset := Some 0; nextExtendedHeader := None;
     globalExtendedHeader := None; files := [] |}.

(** One pass through the loop body ends the loop ([break]) or reaches its
    end or a [continue] with new values of the variables. *)
Inductive Step :=
  | Break
  | Continue (st : State).

(** A truthy header value: a non-empty string. *)
Definition truthy (v : option (option (list byte))) : option (list byte) :=
  match v with
  | Some (Some (b :: s)) => Some (b :: s)
  | _ => None
  end.

(** [nextExtendedHeader.path || nextExtendedHeader.linkpath], when truthy. *)
Definition longName (h : Headers) : option (list byte) :=
  match truthy (h !! str "path") with
  | Some l => Some l
  | None => truthy (h !! str "linkpath")
  end.

(** [512 + 512 * Math.trunc(size / 512) + (size % 512 ? 512 : 0)]. *)
Definition seek_of (size : num) : num :=
  s ← size;
  Some (512 + 512 * Z.quot s 512 + (if Z.rem s 512 =? 0 then 0 else 512)).

(** [offset += seek]. *)
Definition advance (off : Z) (seek : num) : num :=
  k ← seek; Some (off + k).

(** [{...a, ...b}]: the keys of [b] win. *)
Definition spread {V} (a b : gmap (list byte) V) : gmap (list byte) V := b ∪ a.

Definition headers_or_empty (h : option Headers) : Headers := default ∅ h.

(** The join of a non-empty USTAR prefix with the name. *)
Definition join_prefix (prefix name : list byte) : list byte :=
  let prefixEndsWithSlash := endsWith prefix (str "/") in
  let nameStartsWithSlash := startsWith name (str "/") in
  if prefixEndsWithSlash && nameStartsWithSlash then prefix ++ drop 1 name
  else if prefixEndsWithSlash || nameStartsWithSlash then prefix ++ name
  else prefix ++ str "/" ++ name.

(** The explicit fields of [attrs]. *)
Definition explicit_attrs (mode : list byte) (uid gid mtime : num)
    (user group : option (list byte)) : gmap (list byte) JsValue :=
  list_to_map
    [ (str "mode", JString mode); (str "uid", JNumber uid);
      (str "gid", JNumber gid); (str "mtime", JNumber mtime);
      (str "user", of_header user); (str "group", of_header group) ].

Definition is_extended (type : list byte) : bool :=
  bool_decide (type = str "extendedHeader")
  || bool_decide (type = str "globalExtendedHeader").

Definition is_gnu_long (type : list byte) : bool :=
  bool_decide (type = str "gnuLongFileName")
  || bool_decide (type = str "gnuOldLongFileName")
  || bool_decide (type = str "gnuLongLinkName").

(** The body of the [while] loop at a numeric offset [off]; [None] is a
    thrown RangeError. *)
Definition parseTar_body (buffer : list byte) (opts : ParseOpts) (off : Z)
    (st : State) : option Step :=
  name ← _readString buffer off (Some 100);
  if bool_decide (name = []) then Some Break
  else
    let name :=
      match nextExtendedHeader st with
      | Some h => default name (longName h)
      | None => name
      end in
    mode ← trim <$> _readString buffer (off + 100) (Some 8);
    uid ← (λ s, parseInt s 0) <$> _readString buffer (off + 108) (Some 8);
    gid ← (λ s, parseInt s 0) <$> _readString buffer (off + 116) (Some 8);
    size ← _readNumber buffer (off + 124) 12;
    let seek := seek_of size in
    mtime ← _readNumber buffer (off + 136) 12;
    _type ← (λ s, if bool_decide (s = []) then str "0" else s)
              <$> _readString buffer (off + 156) (Some 1);
    let type := default _type (assoc _type tarItemTypeMap) in
    if is_extended type then
      data ← Uint8Array_new buffer (off + 512) size;
      let headers := _parseExtendedHeaders data in
      if bool_decide (type = str "extendedHeader") then
        Some (Continue
                {| offset := advance off seek;
                   nextExtendedHeader := Some headers;
                   globalExtendedHeader := globalExtendedHeader st;
                   files := files st |})
      else
        Some (Continue
                {| offset := advance off seek;
                   nextExtendedHeader := None;
                   globalExtendedHeader :=
                     Some (spread (headers_or_empty (globalExtendedHeader st))
                                  headers);
                   files := files st |})
    else if is_gnu_long type then
      path ← _readString buffer (off + 512) size;
      Some (Continue
              {| offset := advance off seek;
                 nextExtendedHeader := Some {[ str "path" := Some path ]};
                 globalExtendedHeader := globalExtendedHeader st;
                 files := files st |})
    else
      ustar ← _readString buffer (off + 257) (Some 6);
      '(user, group, name) ←
        (if bool_decide (ustar = str "ustar") then
           user ← _readString buffer (off + 265) (Some 32);
           group ← _readString buffer (off + 297) (Some 32);
           prefix ← _readString buffer (off + 345) (Some 155);
           Some (Some user, Some group,
                 if bool_decide (prefix = []) then name
                 else join_prefix prefix name)
         else Some (None, None, name));
      let meta :=
        {| meta_name := name; meta_type := type; meta_size := size;
           meta_attrs :=
             spread
               (spread (of_header <$> headers_or_empty (globalExtendedHeader st))
                       (of_header <$> headers_or_empty (nextExtendedHeader st)))
               (explicit_attrs mode uid gid mtime user group) |} in
      let next st' := Some (Continue
                {| offset := advance off seek;
                   nextExtendedHeader := None;
                   globalExtendedHeader := globalExtendedHeader st;
                   files := st' |}) in
      if match opt_filter opts with
         | Some f => negb (f meta)
         | None => false
         end
      then next (files st)
      else if opt_metaOnly opts then next (files st ++ [MetaEntry meta])
      else
        data2 ← (if bool_decide (size = Some 0) then Some None
                 else Some <$> Uint8Array_new buffer (off + 512) size);
        next (files st ++ [FileEntry meta data2]).

(** The outcome of a call: the returned array, a thrown error, or a loop
    still running when the fuel is spent. *)
Inductive Result :=
  | Ok (entries : list Entry)
  | Error
  | OutOfFuel.

(** [while (offset < buffer.byteLength - 512)]; a comparison with NaN is
    false. *)
Fixpoint parseTar_loop (fuel : nat) (buffer : list byte) (opts : ParseOpts)
    (st : State) : Result :=
  match fuel with
  | O => OutOfFuel
  | S fuel' =>
      match offset st with
      | Some off =>
          if off <? Z.of_nat (length buffer) - 512 then
            match parseTar_body buffer opts off st with
            | None => Error
            | Some Break => Ok (files st)
            | Some (Continue st') => parseTar_loop fuel' buffer opts st'
            end
          else Ok (files st)
      | None => Ok (files st)
      end
  end.

(** [parseTar(data, opts)] on the contents of [data.buffer || data]. *)
Definition parseTar (fuel : nat) (buffer : list byte) (opts : ParseOpts)
    : Result :=
  parseTar_loop fuel buffer opts initial_state.

(** ** createTar *)

Local Open Scope nat_scope.

(** A typed-array view at a non-negative offset. *)
Definition view (buffer : list byte) (offset size : nat)
    : option (list byte) :=
  sublist_lookup offset size buffer.

(** [_writeString(buffer, str, offset, size)]: the characters that fit, then
    zeros up to [size]. *)
Definition _writeString (buffer : list byte) (s : list byte)
    (offset size : nat) : option (list byte) :=
  _ ← view buffer offset size;
  let written := encodeInto s size in
  Some (list_inserts (offset + length written)
          (replicate (size - length written) Byte.x00)
          (list_inserts offset written buffer)).

(** [String(input).padStart(targetLength, "0")]. *)
Definition _leftPad (input : list byte) (targetLength : nat) : list byte :=
  replicate (targetLength - utf16_length input) "0"%byte ++ input.

(** The [data] of an input entry: absent, a string, or bytes. *)
Inductive FileData :=
  | NoData
  | StringData (s : list byte)
  | BytesData (b : list byte).

Definition _normalizeData (data : FileData) : option (list byte) :=
  match data with
  | NoData => None
  | StringData s => Some (TextEncoder_encode s)
  | BytesData b => Some b
  end.

Record Attrs := {
  attr_mode : option (list byte);
  attr_uid : option Z;
  attr_gid : option Z;
  attr_mtime : option Z;
  attr_user : option (list byte);
  attr_group : option (list byte)
}.

(** An entry passed to [createTar], as the library declares it: the name is
    a string. *)
Record TarFileInput := {
  file_name : list byte;
  file_attrs : option Attrs;
  file_data : FileData
}.

Record CreateOpts := { create_attrs : option Attrs }.

(** An element of [_files]: the entry with its normalised data and size. *)
Record NormFile := {
  nf_file : TarFileInput;
  nf_data : option (list byte);
  nf_size : nat
}.

Definition normalize (file : TarFileInput) : NormFile :=
  let data := _normalizeData (file_data file) in
  {| nf_file := file; nf_data := data; nf_size := from_option length 0 data |}.

(** [file.attrs?.x ?? opts.attrs?.x ?? dflt]. *)
Definition attr {A} (get : Attrs -> option A) (file : NormFile)
    (opts : CreateOpts) (dflt : A) : A :=
  match file_attrs (nf_file file) ≫= get with
  | Some v => v
  | None => default dflt (create_attrs opts ≫= get)
  end.

Definition tarDataSize (_files : list NormFile) : nat :=
  foldl (λ tarDataSize file,
           let size := from_option length 0 (nf_data file) in
           let tarDataSize := tarDataSize + (512 + 512 * (size / 512)) in
           if size mod 512 =? 0 then tarDataSize else tarDataSize + 512)
        0 _files.

Definition bufSize (tarDataSize : nat) : nat :=
  let bufSize := 10240 * (tarDataSize / 10240) in
  if tarDataSize mod 10240 =? 0 then bufSize else bufSize + 10240.

Definition checksum (header : list byte) : N :=
  foldl (λ chksum b, chksum + b2N b)%N 0%N header.

(** The body of the writing loop for one entry, at [offset]; [now] is the
    reading of [Date.now()]. *)
Definition write_file (opts : CreateOpts) (now : Z) (file : NormFile)
    (st : list byte * nat) : option (list byte * nat) :=
  let '(buffer, offset) := st in
  let isDir := bool_decide (nf_data file = None) in
  buffer ← _writeString buffer (file_name (nf_file file)) offset 100;
  let mode := attr attr_mode file opts (if isDir then str "775" else str "664") in
  buffer ← _writeString buffer (_leftPad mode 7) (offset + 100) 8;
  let uid := attr attr_uid file opts 1000%Z in
  buffer ← _writeString buffer (_leftPad (Number_toString uid 8) 7) (offset + 108) 8;
  let gid := attr attr_gid file opts 1000%Z in
  buffer ← _writeString buffer (_leftPad (Number_toString gid 8) 7) (offset + 116) 8;
  buffer ← _writeString buffer
             (_leftPad (Number_toString (Z.of_nat (nf_size file)) 8) 11)
             (offset + 124) 12;
  let mtime := attr attr_mtime file opts now in
  buffer ← _writeString buffer
             (_leftPad (Number_toString (Z.quot mtime 1000) 8) 11)
             (offset + 136) 12;
  let type := if isDir then str "5" else str "0" in
  buffer ← _writeString buffer type (offset + 156) 1;
  buffer ← _writeString buffer (str "ustar") (offset + 257) 6;
  buffer ← _writeString buffer (str "00") (offset + 263) 2;
  let user := attr attr_user file opts [] in
  buffer ← _writeString buffer user (offset + 265) 32;
  let group := attr attr_group file opts [] in
  buffer ← _writeString buffer group (offset + 297) 32;
  buffer ← _writeString buffer (str "        ") (offset + 148) 8;
  header ← view buffer offset 512;
  let chksum := checksum header in
  buffer ← _writeString buffer (Number_toString (Z.of_N chksum) 8) (offset + 148) 8;
  match nf_data file with
  | None => Some (buffer, offset + 512)
  | Some data =>
      _ ← view buffer (offset + 512) (nf_size file);
      let buffer := list_inserts (offset + 512) (take (nf_size file) data) buffer in
      let offset := offset + 512 * (nf_size file / 512) in
      let offset := if nf_size file mod 512 =? 0 then offset else offset + 512 in
      Some (buffer, offset + 512)
  end.

(** The writing loop; [i] is the index of the next entry. *)
Fixpoint write_files (opts : CreateOpts) (now : nat -> Z) (i : nat)
    (_files : list NormFile) (st : list byte * nat)
    : option (list byte * nat) :=
  match _files with
  | [] => Some st
  | file :: rest =>
      st' ← write_file opts (now i) file st;
      write_files opts now (S i) rest st'
  end.

(** [createTar(files, opts)]; [now i] is the clock when entry [i] is
    written. *)
Definition createTar (now : nat -> Z) (files : list TarFileInput)
    (opts : CreateOpts) : option (list byte) :=
  let _files := normalize <$> files in
  let buffer := replicate (bufSize (tarDataSize _files)) Byte.x00 in
  fst <$> write_files opts now 0 _files (buffer, 0).

Local Close Scope nat_scope.

(** * Definitions used in the statements and proofs *)

Local Open Scope nat_scope.

(** ** Fields and segments of a buffer *)

(** [n] NUL bytes. *)
Definition zeros (n : nat) : list byte := replicate n Byte.x00.

(** What [_writeString] leaves in a field of [size] bytes. *)
Definition field (s : list byte) (size : nat) : list byte :=
  encodeInto s size ++ zeros (size - length (encodeInto s size)).

(** The buffer as a list of segments: the offset of segment [k]. *)
Definition seg_offset (segs : list (list byte)) (k : nat) : nat :=
  sum_list (length <$> take k segs).

Arguments field : simpl never.

Arguments zeros : simpl never.

(** ** The bytes [createTar] writes *)

(** The payload blocks of an entry of [size] bytes, rounded up to 512. *)
Definition payload_blocks (size : nat) : nat :=
  (512 * (size / 512) + (if size mod 512 =? 0 then 0 else 512))%nat.

(** The sixteen segments of a header block; [chk] is the checksum field. *)
Definition header_segments (opts : CreateOpts) (now : Z) (file : NormFile)
    (chk : list byte) : list (list byte) :=
  let isDir := bool_decide (nf_data file = None) in
  [ field (file_name (nf_file file)) 100;
    field (_leftPad (attr attr_mode file opts
                       (if isDir then str "775" else str "664")) 7) 8;
    field (_leftPad (Number_toString (attr attr_uid file opts 1000%Z) 8) 7) 8;
    field (_leftPad (Number_toString (attr attr_gid file opts 1000%Z) 8) 7) 8;
    field (_leftPad (Number_toString (Z.of_nat (nf_size file)) 8) 11) 12;
    field (_leftPad (Number_toString
                       (Z.quot (attr attr_mtime file opts now) 1000) 8) 11) 12;
    chk;
    field (if isDir then str "5" else str "0") 1;
    zeros 100;
    field (str "ustar") 6;
    field (str "00") 2;
    field (attr attr_user file opts []) 32;
    field (attr attr_group file opts []) 32;
    zeros 16;
    zeros 155;
    zeros 12 ].

(** The header as it is summed, its checksum field holding spaces. *)
Definition blank_header (opts : CreateOpts) (now : Z) (file : NormFile)
    : list byte :=
  concat (header_segments opts now file (field (str "        ") 8)).

(** The checksum field: the sum of the blank header, in octal. *)
Definition chksum_field (opts : CreateOpts) (now : Z) (file : NormFile)
    : list byte :=
  field (Number_toString (Z.of_N (checksum (blank_header opts now file))) 8) 8.

(** The header as it is left in the buffer. *)
Definition final_header (opts : CreateOpts) (now : Z) (file : NormFile)
    : list byte :=
  concat (header_segments opts now file (chksum_field opts now file)).

(** The bytes copied after the header. *)
Definition payload (file : NormFile) : list byte := default [] (nf_data file).

(** Header, payload and padding. *)
Definition entry_block (opts : CreateOpts) (now : Z) (file : NormFile)
    : list byte :=
  final_header opts now file ++ payload file
  ++ zeros (payload_blocks (nf_size file) - nf_size file).

(** The bytes taken by the blocks of a list of entries. *)
Fixpoint entries_size (files : list NormFile) : nat :=
  match files with
  | [] => 0%nat
  | file :: rest => (512 + payload_blocks (nf_size file) + entries_size rest)%nat
  end.

(** The size of a normalised entry is the length of its data. *)
Definition size_ok (file : NormFile) : Prop :=
  nf_size file = from_option length 0%nat (nf_data file).

(** The blocks of the entries, entry [j] of the list being entry [i + j] of
    the archive. *)
Fixpoint entry_blocks (opts : CreateOpts) (now : nat → Z) (i : nat)
    (files : list NormFile) : list byte :=
  match files with
  | [] => []
  | file :: rest =>
      entry_block opts (now i) file ++ entry_blocks opts now (S i) rest
  end.

(** ** Digits and strings in a field *)

(** An ASCII byte: a character of its own in UTF-8. *)
Definition is_ascii (b : byte) : Prop := (b2N b < 128)%N.

(** A string of digits of radix [R], none of them a sign or a blank. *)
Definition digits_of (R : N) (ds : list byte) (n : N) : Prop :=
  Forall (λ b, is_ascii b ∧ ∃ d, digit_val b = Some d ∧ (d < R)%N) ds
  ∧ foldl (λ v b, R * v + default 0 (digit_val b))%N 0%N ds = n.

(** The value of a string of digits read after the value [v]. *)
Definition digits_val (R : N) (v : N) (ds : list byte) : N :=
  foldl (λ v b, R * v + default 0 (digit_val b))%N v ds.

(** The bytes of a view up to its first NUL. *)
Definition cstring (view : list byte) : list byte :=
  match list_find (λ b, b = Byte.x00) view with
  | Some (i, _) => take i view
  | None => view
  end.

(** ** Encoded entries and their decoding *)

(** A name that a header field holds and gives back unchanged. *)
Definition valid_name (s : list byte) : Prop :=
  s ≠ [] ∧ (Byte.x00 ∉ s) ∧ (length s ≤ 100)%nat ∧ take 3 s ≠ BOM.

(** What the decoder returns for an encoded entry. *)
Definition decodes_to (file : NormFile) (e : Entry) : Prop :=
  ∃ meta data,
    e = FileEntry meta data
    ∧ meta_name meta = file_name (nf_file file)
    ∧ meta_type meta = match nf_data file with
                       | Some _ => str "file"
                       | None => str "directory"
                       end
    ∧ meta_size meta = Some (Z.of_nat (nf_size file))
    ∧ default [] data = payload file.

(** An entry that is decoded as it was encoded. *)
Definition entry_ok (file : NormFile) : Prop :=
  valid_name (file_name (nf_file file)) ∧ size_ok file
  ∧ (Z.of_nat (nf_size file) < 8 ^ 12)%Z.

(** The header of the last entry does not start in the last 512 bytes of a
    buffer with [k] bytes after the blocks. *)
Definition tail_ok (files : list NormFile) (k : nat) : Prop :=
  files = [] ∨ (0 < k)%nat ∨ ∃ file, last files = Some file ∧ nf_size file ≠ 0%nat.

Local Close Scope nat_scope.

(** ** The cases of one pass through the decode loop *)

(** The fixed fields of a header block, as [parseTar] reads them. *)
Record Header := {
  hd_raw_name : list byte;
  hd_mode : list byte;
  hd_uid : num;
  hd_gid : num;
  hd_size : num;
  hd_mtime : num;
  hd_code : list byte
}.

(** Lines 59 to 75 of the loop body, without the test of the name. *)
Definition read_header (buffer : list byte) (off : Z) : option Header :=
  name ← _readString buffer off (Some 100);
  mode ← trim <$> _readString buffer (off + 100) (Some 8);
  uid ← (λ s, parseInt s 0) <$> _readString buffer (off + 108) (Some 8);
  gid ← (λ s, parseInt s 0) <$> _readString buffer (off + 116) (Some 8);
  size ← _readNumber buffer (off + 124) 12;
  mtime ← _readNumber buffer (off + 136) 12;
  _type ← (λ s, if bool_decide (s = []) then str "0" else s)
            <$> _readString buffer (off + 156) (Some 1);
  Some {| hd_raw_name := name; hd_mode := mode; hd_uid := uid; hd_gid := gid;
          hd_size := size; hd_mtime := mtime; hd_code := _type |}.

(** The name after the override of a pending extended header. *)
Definition hd_name (next : option Headers) (h : Header) : list byte :=
  match next with
  | Some x => default (hd_raw_name h) (longName x)
  | None => hd_raw_name h
  end.

(** [tarItemTypeMap[_type] || _type]. *)
Definition hd_type (h : Header) : list byte :=
  default (hd_code h) (assoc (hd_code h) tarItemTypeMap).

(** The USTAR fields: user, group, and the name joined with the prefix. *)
Definition read_ustar (buffer : list byte) (off : Z) (name : list byte)
    : option (option (list byte) * option (list byte) * list byte) :=
  ustar ← _readString buffer (off + 257) (Some 6);
  if bool_decide (ustar = str "ustar") then
    user ← _readString buffer (off + 265) (Some 32);
    group ← _readString buffer (off + 297) (Some 32);
    prefix ← _readString buffer (off + 345) (Some 155);
    Some (Some user, Some group,
          if bool_decide (prefix = []) then name else join_prefix prefix name)
  else Some (None, None, name).

(** The [meta] object of an ordinary entry. *)
Definition make_meta (st : State) (h : Header)
    (user group : option (list byte)) (name : list byte) : Meta :=
  {| meta_name := name; meta_type := hd_type h; meta_size := hd_size h;
     meta_attrs :=
       spread
         (spread (of_header <$> headers_or_empty (globalExtendedHeader st))
                 (of_header <$> headers_or_empty (nextExtendedHeader st)))
         (explicit_attrs (hd_mode h) (hd_uid h) (hd_gid h) (hd_mtime h)
                         user group) |}.

(** The array after the filter, [metaOnly] and the payload view. *)
Definition emit (buffer : list byte) (opts : ParseOpts) (off : Z)
    (meta : Meta) (entries : list Entry) : option (list Entry) :=
  if match opt_filter opts with
     | Some f => negb (f meta)
     | None => false
     end
  then Some entries
  else if opt_metaOnly opts then Some (entries ++ [MetaEntry meta])
  else
    data2 ← (if bool_decide (meta_size meta = Some 0) then Some None
             else Some <$> Uint8Array_new buffer (off + 512) (meta_size meta));
    Some (entries ++ [FileEntry meta data2]).

(** The variables after a pass over the header [h]. *)
Definition after (off : Z) (h : Header) (next global : option Headers)
    (entries : list Entry) : State :=
  {| offset := advance off (seek_of (hd_size h));
     nextExtendedHeader := next;
     globalExtendedHeader := global;
     files := entries |}.

(** One pass through the loop body, case by case. *)
Inductive decode_step (buffer : list byte) (opts : ParseOpts) (off : Z)
    (st : State) : Step → Prop :=
  | step_break :
      _readString buffer off (Some 100) = Some [] →
      decode_step buffer opts off st Break
  | step_extended h data :
      read_header buffer off = Some h → hd_raw_name h ≠ [] →
      hd_type h = str "extendedHeader" →
      Uint8Array_new buffer (off + 512) (hd_size h) = Some data →
      decode_step buffer opts off st
        (Continue (after off h (Some (_parseExtendedHeaders data))
                     (globalExtendedHeader st) (files st)))
  | step_global h data :
      read_header buffer off = Some h → hd_raw_name h ≠ [] →
      hd_type h = str "globalExtendedHeader" →
      Uint8Array_new buffer (off + 512) (hd_size h) = Some data →
      decode_step buffer opts off st
        (Continue (after off h None
                     (Some (spread (headers_or_empty (globalExtendedHeader st))
                                   (_parseExtendedHeaders data)))
                     (files st)))
  | step_gnu_long h path :
      read_header buffer off = Some h → hd_raw_name h ≠ [] →
      is_extended (hd_type h) = false → is_gnu_long (hd_type h) = true →
      _readString buffer (off + 512) (hd_size h) = Some path →
      decode_step buffer opts off st
        (Continue (after off h (Some {[ str "path" := Some path ]})
                     (globalExtendedHeader st) (files st)))
  | step_entry h user group name entries :
      read_header buffer off = Some h → hd_raw_name h ≠ [] →
      is_extended (hd_type h) = false → is_gnu_long (hd_type h) = false →
      read_ustar buffer off (hd_name (nextExtendedHeader st) h)
        = Some (user, group, name) →
      emit buffer opts off (make_meta st h user group name) (files st)
        = Some entries →
      decode_step buffer opts off st
        (Continue (after off h None (globalExtendedHeader st) entries)).

(** ** Notions of the claims *)

(** The seek distance as the specification gives it, with a floor division. *)
Definition spec_seek (s : Z) : Z :=
  512 + 512 * (s / 512) + (if s mod 512 =? 0 then 0 else 512).

(** An mtime is supplied for the entry, by its own attrs or by the defaults
    of the archive. *)
Definition has_mtime (opts : CreateOpts) (file : TarFileInput) : Prop :=
  is_Some (file_attrs file ≫= attr_mtime)
  ∨ is_Some (create_attrs opts ≫= attr_mtime).

(** The offset at which the header of entry [i] is written. *)
Definition header_offset (files : list NormFile) (i : nat) : nat :=
  entries_size (take i files).

(** A header with its checksum field set to eight spaces. *)
Definition blank_checksum (header : list byte) : list byte :=
  list_inserts 148 (replicate 8 " "%byte) header.

(** The payload of an input entry, as bytes. *)
Definition payload_of (file : TarFileInput) : list byte :=
  default [] (_normalizeData (file_data file)).

(** The payload of a decoded entry; no [data] is an empty payload. *)
Definition entry_payload (e : Entry) : list byte :=
  match e with
  | FileEntry _ (Some d) => d
  | _ => []
  end.

(** A decoded entry with the name, type, size and payload of the input. *)
Definition roundtrip_entry (file : TarFileInput) (e : Entry) : Prop :=
  meta_name (entry_meta e) = file_name file
  ∧ meta_type (entry_meta e)
    = match file_data file with
      | NoData => str "directory"
      | _ => str "file"
      end
  ∧ meta_size (entry_meta e) = Some (Z.of_nat (length (payload_of file)))
  ∧ entry_payload e = payload_of file.

(** The entries fill the buffer and the last one has no payload: its header
    is the last 512 bytes of the buffer. *)
Definition last_header_in_final_block (files : list TarFileInput) : Prop :=
  (tarDataSize (normalize <$> files) mod 10240 = 0)%nat
  ∧ ∃ file, last files = Some file ∧ payload_of file = [].

(** ** Notions of the further properties *)

(** A byte between [lo] and [hi]. *)
Definition byte_in (lo hi : N) (b : byte) : bool :=
  ((lo <=? b2N b) && (b2N b <=? hi))%N.

(** Well-formed UTF-8: a sequence of the byte sequences of the Unicode
    standard (table 3-7), without overlong forms, surrogates or code points
    above U+10FFFF.  On these [TextDecoder.decode] substitutes nothing and
    the string it returns has the bytes of the view as its UTF-8 form. *)
Fixpoint utf8_valid (s : list byte) : bool :=
  match s with
  | [] => true
  | b1 :: s1 =>
      if byte_in 0x00 0x7f b1 then utf8_valid s1
      else
        match s1 with
        | [] => false
        | b2 :: s2 =>
            if byte_in 0xc2 0xdf b1 then byte_in 0x80 0xbf b2 && utf8_valid s2
            else
              match s2 with
              | [] => false
              | b3 :: s3 =>
                  if byte_in 0xe0 0xef b1 then
                    (if byte_in 0xe0 0xe0 b1 then byte_in 0xa0 0xbf b2
                     else if byte_in 0xed 0xed b1 then byte_in 0x80 0x9f b2
                     else byte_in 0x80 0xbf b2)
                    && byte_in 0x80 0xbf b3 && utf8_valid s3
                  else
                    match s3 with
                    | [] => false
                    | b4 :: s4 =>
                        byte_in 0xf0 0xf4 b1
                        && (if byte_in 0xf0 0xf0 b1 then byte_in 0x90 0xbf b2
                            else if byte_in 0xf4 0xf4 b1
                                 then byte_in 0x80 0x8f b2
                            else byte_in 0x80 0xbf b2)
                        && byte_in 0x80 0xbf b3 && byte_in 0x80 0xbf b4
                        && utf8_valid s4
                    end
              end
        end
  end.

(** A record of an extended header, "<length> <keyword>=<value>\n". *)
Record PaxRecord := {
  pax_length : list byte;
  pax_key : list byte;
  pax_value : list byte
}.

(** The line of a record, without its newline. *)
Definition pax_line (r : PaxRecord) : list byte :=
  pax_length r ++ " "%byte :: pax_key r ++ "="%byte :: pax_value r.

(** The payload of an extended header with the records [rs]. *)
Definition pax_payload (rs : list PaxRecord) : list byte :=
  concat ((λ r, pax_line r ++ [Byte.x0a]) <$> rs).

(** A record whose parts hold no separator: no space or newline in the
    length, no space, newline or "=" in the keyword and in the value; the
    length does not begin with a byte-order mark and the keyword is not
    [__proto__]. *)
Definition pax_plain (r : PaxRecord) : Prop :=
  (" "%byte ∉ pax_length r) ∧ (Byte.x0a ∉ pax_length r)
  ∧ take 3 (pax_length r) ≠ BOM
  ∧ (" "%byte ∉ pax_key r) ∧ (Byte.x0a ∉ pax_key r) ∧ ("="%byte ∉ pax_key r)
  ∧ pax_key r ≠ str "__proto__"
  ∧ (" "%byte ∉ pax_value r) ∧ (Byte.x0a ∉ pax_value r)
  ∧ ("="%byte ∉ pax_value r).

(** The object built by assigning the records in order. *)
Definition pax_headers (rs : list PaxRecord) : Headers :=
  foldl (λ headers r, <[pax_key r := Some (pax_value r)]> headers) ∅ rs.

(** The loop body after the fixed fields of the header are read. *)
Definition pass (buffer : list byte) (opts : ParseOpts) (off : Z)
    (st : State) (h : Header) : option Step :=
  if bool_decide (hd_raw_name h = []) then Some Break
  else if is_extended (hd_type h) then
    data ← Uint8Array_new buffer (off + 512) (hd_size h);
    if bool_decide (hd_type h = str "extendedHeader") then
      Some (Continue (after off h (Some (_parseExtendedHeaders data))
                        (globalExtendedHeader st) (files st)))
    else
      Some (Continue
              (after off h None
                 (Some (spread (headers_or_empty (globalExtendedHeader st))
                               (_parseExtendedHeaders data)))
                 (files st)))
  else if is_gnu_long (hd_type h) then
    path ← _readString buffer (off + 512) (hd_size h);
    Some (Continue (after off h (Some {[ str "path" := Some path ]})
                      (globalExtendedHeader st) (files st)))
  else
    '(user, group, name) ←
      read_ustar buffer off (hd_name (nextExtendedHeader st) h);
    entries ← emit buffer opts off (make_meta st h user group name) (files st);
    Some (Continue (after off h None (globalExtendedHeader st) entries)).

(** The data of an entry pushed without [metaOnly]: undefined for size 0,
    else a view of the buffer with as many bytes as the size says (none for
    a size that is NaN). *)
Definition data_of_size (buffer : list byte) (size : num)
    (data : option (list byte)) : Prop :=
  match size with
  | Some 0 => data = None
  | _ =>
      ∃ v off, data = Some v
               ∧ Uint8Array_new buffer off size = Some v
               ∧ Z.of_nat (length v) = default 0 size
  end.

(** The form of the entries of a result: metadata alone under [metaOnly],
    else metadata with data that fits the size. *)
Definition entry_shape (buffer : list byte) (metaOnly : bool) (e : Entry)
    : Prop :=
  match e with
  | MetaEntry _ => metaOnly = true
  | FileEntry m d => metaOnly = false ∧ data_of_size buffer (meta_size m) d
  end.

(** A state with another array of entries. *)
Definition with_files (st : State) (entries : list Entry) : State :=
  {| offset := offset st; nextExtendedHeader := nextExtendedHeader st;
     globalExtendedHeader := globalExtendedHeader st; files := entries |}.

(** The entries that a filter keeps. *)
Definition keep (f : Meta → bool) (entries : list Entry) : list Entry :=
  List.filter (λ e, f (entry_meta e)) entries.

(** The metadata of the entries, as [metaOnly] returns them. *)
Definition metas (entries : list Entry) : list Entry :=
  (λ e, MetaEntry (entry_meta e)) <$> entries.

(** The options with the filter [f]. *)
Definition with_filter (f : Meta → bool) (opts : ParseOpts) : ParseOpts :=
  {| opt_filter := Some f; opt_metaOnly := opt_metaOnly opts |}.

(** The options with [metaOnly] set. *)
Definition with_metaOnly (opts : ParseOpts) : ParseOpts :=
  {| opt_filter := opt_filter opts; opt_metaOnly := true |}.

(** The bytes an entry takes in the archive: its header and its payload
    rounded up to whole blocks. *)
Definition entry_span (file : TarFileInput) : nat :=
  (512 + payload_blocks (length (payload_of file)))%nat.

(** An octal digit, "0" to "7". *)
Definition is_octal (b : byte) : Prop := (48 ≤ b2N b ≤ 55)%N.

(** A string that a field of [size] bytes gives back: no NUL, no
    byte-order mark at its start, at most [size] bytes. *)
Definition fits_field (s : list byte) (size : nat) : Prop :=
  (Byte.x00 ∉ s) ∧ take 3 s ≠ BOM ∧ (length s ≤ size)%nat.

(** The number that [parseInt] without a radix reads from the octal digits
    of [n]: they are read as decimal digits. *)
Definition octal_as_decimal (n : Z) : Z :=
  Z.of_N (digits_val 10 0 (Number_toString n 8)).

(** ** Concrete inputs *)

Definition sample_attrs : Attrs :=
  {| attr_mode := None; attr_uid := Some 1000; attr_gid := Some 8;
     attr_mtime := Some 1700000000000; attr_user := Some (str "alice");
     attr_group := None |}.

Definition sample_file : TarFileInput :=
  {| file_name := str "a.txt"; file_attrs := Some sample_attrs;
     file_data := StringData (str "12345678") |}.

Definition sample_dir (name : string) : TarFileInput :=
  {| file_name := str name; file_attrs := None; file_data := NoData |}.

Definition sample_files : list TarFileInput := [sample_file; sample_dir "d"].

Definition sample_opts : CreateOpts := {| create_attrs := None |}.

Definition sample_clock : nat → Z := λ _, 1700000000000.

(** [parseTar(createTar(files, opts))]. *)
Definition parseTar_createTar (fuel : nat) (now : nat → Z)
    (files : list TarFileInput) (opts : CreateOpts) : option Result :=
  buffer ← createTar now files opts;
  Some (parseTar fuel buffer no_opts).

(** The names of the entries of a result. *)
Definition result_names (r : Result) : option (list (list byte)) :=
  match r with
  | Ok entries => Some ((λ e, meta_name (entry_meta e)) <$> entries)
  | _ => None
  end.

(** The first entry of a result. *)
Definition first_meta (r : Result) : option Meta :=
  match r with
  | Ok (e :: _) => Some (entry_meta e)
  | _ => None
  end.

(** The buffer of [createTar] for a file of 8 bytes and a directory. *)
Definition sample_archive : list byte :=
  default [] (createTar sample_clock sample_files sample_opts).

(** Twenty directories: 20 blocks of 512 bytes, a buffer of 10240 bytes. *)
Definition twenty_dirs : list TarFileInput :=
  replicate 19 (sample_dir "d") ++ [sample_dir "last"].

#[global] Instance valid_name_dec s : Decision (valid_name s).
Proof. unfold valid_name. apply _. Defined.

(** The state after the loop body has run once on [buffer] from [st]. *)
Definition step_from (buffer : list byte) (opts : ParseOpts) (off : Z)
    (st : State) : State :=
  match parseTar_body buffer opts off st with
  | Some (Continue st') => st'
  | _ => st
  end.

(** The entry last pushed in a state. *)
Definition last_entry (st : State) : Entry :=
  default (MetaEntry {| meta_name := []; meta_type := []; meta_size := None;
                        meta_attrs := ∅ |})
          (last (files st)).

(** A state with a pending and a global extended header. *)
Definition pending_state : State :=
  {| offset := Some 0;
     nextExtendedHeader :=
       Some {[ str "path" := Some (str "N"); str "mode" := Some (str "777") ]};
     globalExtendedHeader :=
       Some {[ str "path" := Some (str "G"); str "comment" := Some (str "c") ]};
     files := [] |}.

(** A USTAR header with name [/c.txt] and prefix [a/b/], and two blocks of
    zeros. *)
Definition ustar_buffer : list byte :=
  concat [ field (str "/c.txt") 100; zeros 157; field (str "ustar") 6;
           zeros 82; field (str "a/b/") 155; zeros 12 ]
  ++ zeros 1024.

(** A header with a name and nothing else, and two blocks of zeros. *)
Definition bare_buffer : list byte := field (str "f") 512 ++ zeros 1024.

(** The header fields of the first entry of [sample_archive]. *)
Definition sample_header : Header :=
  {| hd_raw_name := str "a.txt"; hd_mode := str "0000664";
     hd_uid := Some 1750; hd_gid := Some 10; hd_size := Some 8;
     hd_mtime := Some 1700000000; hd_code := str "0" |}.

(** The buffer and offset after [sample_file] is written at offset 0 of
    two blocks of zeros. *)
Definition sample_written : list byte * nat :=
  default ([], 0%nat)
    (write_file sample_opts (sample_clock 0%nat) (normalize sample_file)
       (zeros 1024, 0%nat)).

(** A header with the name [f] and the size field [-1], and two blocks of
    zeros. *)
Definition negative_size_archive : list byte :=
  concat [field (str "f") 100; zeros 24; field (str "-1") 12; zeros 376]
  ++ zeros 1024.

(** The record of [negative_size_archive]. *)
Definition negative_size_meta : Meta :=
  {| meta_name := str "f"; meta_type := str "file"; meta_size := Some (-1);
     meta_attrs :=
       explicit_attrs [] None None None None None |}.

(** Options with a default mtime. *)
Definition mtime_opts : CreateOpts :=
  {| create_attrs :=
       Some {| attr_mode := None; attr_uid := None; attr_gid := None;
               attr_mtime := Some 0; attr_user := None; attr_group := None |} |}.


(** Two records of an extended header with the same keyword, and a third
    one. *)
Definition sample_records : list PaxRecord :=
  [ {| pax_length := str "12"; pax_key := str "path"; pax_value := str "a" |};
    {| pax_length := str "0"; pax_key := str "path"; pax_value := str "b" |};
    {| pax_length := str "9"; pax_key := str "uid"; pax_value := str "7" |} ].

#[global] Instance pax_plain_dec r : Decision (pax_plain r).
Proof. unfold pax_plain. apply _. Defined.

#[global] Instance fits_field_dec s size : Decision (fits_field s size).
Proof. unfold fits_field. apply _. Defined.

#[global] Instance is_octal_dec b : Decision (is_octal b).
Proof. unfold is_octal. apply _. Defined.

#[global] Instance is_ascii_dec b : Decision (is_ascii b).
Proof. unfold is_ascii. apply _. Defined.

(** What [parseTar] returns for [sample_archive]. *)
Definition sample_entries : list Entry :=
  match parseTar 3 sample_archive no_opts with
  | Ok entries => entries
  | _ => []
  end.

(** A filter that keeps the regular files. *)
Definition is_file (meta : Meta) : bool :=
  bool_decide (meta_type meta = str "file").

(** Options with that filter, and options with [metaOnly] alone. *)
Definition only_files : ParseOpts :=
  {| opt_filter := Some is_file; opt_metaOnly := false |}.

Definition meta_only : ParseOpts :=
  {| opt_filter := None; opt_metaOnly := true |}.

(** A header that announces 2000 bytes of payload, and one block. *)
Definition truncated_buffer : list byte :=
  concat [ field (str "f") 100; zeros 24; field (str "00000003720") 12;
           zeros 376 ]
  ++ zeros 512.

(** The fields of that header. *)
Definition truncated_header : Header :=
  {| hd_raw_name := str "f"; hd_mode := []; hd_uid := None; hd_gid := None;
     hd_size := Some 2000; hd_mtime := None; hd_code := str "0" |}.

(** A header whose size field holds "-1000", octal for -512, and one
    block. *)
Definition loop_buffer : list byte :=
  concat [ field (str "f") 100; zeros 24; field (str "-1000") 12; zeros 376 ]
  ++ zeros 512.

(** The fields of that header. *)
Definition loop_header : Header :=
  {| hd_raw_name := str "f"; hd_mode := []; hd_uid := None; hd_gid := None;
     hd_size := Some (-512); hd_mtime := None; hd_code := str "0" |}.

(** The header of [bare_buffer]: a name and nothing else. *)
Definition bare_header : Header :=
  {| hd_raw_name := str "f"; hd_mode := []; hd_uid := None; hd_gid := None;
     hd_size := None; hd_mtime := None; hd_code := str "0" |}.

(** A GNU long name header (type L, 14 bytes of payload), its payload, the
    header of the entry it names, and two blocks of zeros. *)
Definition gnu_buffer : list byte :=
  concat [ field (str "././@LongLink") 100; zeros 24;
           field (str "00000000016") 12; zeros 20; field (str "L") 1;
           zeros 355 ]
  ++ field (str "long/name.txt") 512
  ++ field (str "short") 512
  ++ zeros 1024.

(** The fields of the long name header. *)
Definition gnu_header : Header :=
  {| hd_raw_name := str "././@LongLink"; hd_mode := []; hd_uid := None;
     hd_gid := None; hd_size := Some 14; hd_mtime := None;
     hd_code := str "L" |}.

(** A directory whose name has 120 characters. *)
Definition long_name_dir : TarFileInput :=
  {| file_name := replicate 120 "a"%byte; file_attrs := None;
     file_data := NoData |}.

(** The buffer of [createTar] for [long_name_dir]. *)
Definition long_name_archive : list byte :=
  default [] (createTar sample_clock [long_name_dir] sample_opts).

(** * Lemmas on the layout of buffers *)

Local Open Scope nat_scope.

(** ** Fields, views and writes *)

Lemma fit_boundary_le s k : (fit_boundary s k ≤ k)%nat.
Proof.
  induction k as [|k IH]; simpl; [lia|].
  destruct (s !! S k) as [b|]; [|lia].
  destruct (is_continuation b); lia.
Qed.

Lemma length_encodeInto s size : (length (encodeInto s size) ≤ size)%nat.
Proof.
  unfold encodeInto. case_decide; [done|].
  rewrite length_take. pose proof (fit_boundary_le s size). lia.
Qed.

Lemma encodeInto_fits s size : (length s ≤ size)%nat → encodeInto s size = s.
Proof. intros. unfold encodeInto. by case_decide. Qed.

Lemma length_field s size : length (field s size) = size.
Proof.
  unfold field, zeros. rewrite length_app, length_replicate.
  pose proof (length_encodeInto s size). lia.
Qed.

Lemma length_zeros n : length (zeros n) = n.
Proof. apply length_replicate. Qed.

Lemma zeros_add n m : zeros (n + m) = zeros n ++ zeros m.
Proof. apply replicate_add. Qed.

Lemma view_middle (pre mid post : list byte) off n :
  off = length pre → n = length mid →
  view (pre ++ mid ++ post) off n = Some mid.
Proof.
  intros -> ->. unfold view. rewrite sublist_lookup_Some.
  - by rewrite drop_app_length, take_app_length.
  - rewrite !length_app. lia.
Qed.

Lemma list_inserts_middle (pre old post new : list byte) off :
  off = length pre → length old = length new →
  list_inserts off new (pre ++ old ++ post) = pre ++ new ++ post.
Proof.
  intros -> Hlen.
  replace (length pre) with (length pre + 0)%nat by lia.
  rewrite list_inserts_app_r. f_equal. by apply list_inserts_0_r.
Qed.

Lemma _writeString_middle (pre old post s : list byte) off size :
  off = length pre → length old = size →
  _writeString (pre ++ old ++ post) s off size
  = Some (pre ++ field s size ++ post).
Proof.
  intros Hoff Hold. unfold _writeString.
  rewrite (view_middle pre old post) by done. simpl.
  pose proof (length_encodeInto s size) as Hw.
  set (w := encodeInto s size) in *.
  rewrite <- (take_drop (length w) old).
  rewrite <- (app_assoc (take _ old)).
  rewrite (list_inserts_middle pre (take (length w) old) _ w) by
    (try done; rewrite length_take; lia).
  rewrite (app_assoc pre w).
  rewrite (list_inserts_middle (pre ++ w) (drop (length w) old) post).
  - unfold field. fold w. unfold zeros. by rewrite <- !app_assoc.
  - rewrite length_app. lia.
  - rewrite length_drop, length_replicate. lia.
Qed.

Lemma length_concat_take (segs : list (list byte)) k :
  length (concat (take k segs)) = seg_offset segs k.
Proof.
  unfold seg_offset. generalize (take k segs) as l.
  induction l as [|x l IH]; [done|].
  rewrite fmap_cons. simpl. rewrite length_app, IH. done.
Qed.

Lemma concat_split (segs : list (list byte)) k x :
  segs !! k = Some x →
  concat segs = concat (take k segs) ++ x ++ concat (drop (S k) segs).
Proof.
  intros H. rewrite <- (take_drop_middle segs k x H) at 1.
  by rewrite concat_app.
Qed.

Lemma concat_insert (segs : list (list byte)) k x :
  (k < length segs)%nat →
  concat (<[k:=x]> segs) = concat (take k segs) ++ x ++ concat (drop (S k) segs).
Proof.
  intros H. rewrite insert_take_drop by done. by rewrite concat_app.
Qed.

Lemma _writeString_segment pre segs post k old s size off :
  segs !! k = Some old → length old = size →
  off = (length pre + seg_offset segs k)%nat →
  _writeString (pre ++ concat segs ++ post) s off size
  = Some (pre ++ concat (<[k := field s size]> segs) ++ post).
Proof.
  intros Hk Hold ->.
  rewrite (concat_split segs k old Hk).
  rewrite (concat_insert segs k) by (by eapply lookup_lt_Some).
  rewrite <- !app_assoc.
  rewrite (app_assoc pre (concat (take k segs))).
  rewrite (_writeString_middle (pre ++ concat (take k segs)) old _ s _ size).
  - by rewrite <- !app_assoc.
  - rewrite length_app, length_concat_take. lia.
  - done.
Qed.

Lemma view_segment pre segs post k x off n :
  segs !! k = Some x → n = length x →
  off = (length pre + seg_offset segs k)%nat →
  view (pre ++ concat segs ++ post) off n = Some x.
Proof.
  intros Hk -> ->.
  rewrite (concat_split segs k x Hk).
  rewrite <- !app_assoc.
  rewrite (app_assoc pre (concat (take k segs))).
  apply view_middle; [|done].
  rewrite length_app, length_concat_take. lia.
Qed.

(** ** The buffer [createTar] returns *)

Lemma payload_blocks_bounds size :
  (size ≤ payload_blocks size < size + 512)%nat
  ∧ (payload_blocks size mod 512 = 0)%nat.
Proof.
  unfold payload_blocks.
  pose proof (Nat.div_mod_eq size 512) as Hdm.
  pose proof (Nat.mod_upper_bound size 512 ltac:(lia)) as Hub.
  destruct (Nat.eqb_spec (size mod 512) 0) as [E|E].
  - split; [lia|]. rewrite Nat.add_0_r, Nat.mul_comm. by apply Nat.Div0.mod_mul.
  - split; [lia|].
    replace (512 * (size / 512) + 512)%nat with ((size / 512 + 1) * 512)%nat by lia.
    by apply Nat.Div0.mod_mul.
Qed.

Lemma length_header opts now file chk :
  length chk = 8%nat →
  length (concat (header_segments opts now file chk)) = 512%nat.
Proof.
  intros H. unfold header_segments. cbn [concat].
  rewrite !length_app, !length_field, !length_zeros, H. reflexivity.
Qed.

Lemma length_chksum_field opts now file :
  length (chksum_field opts now file) = 8%nat.
Proof. apply length_field. Qed.

Lemma length_final_header opts now file :
  length (final_header opts now file) = 512%nat.
Proof. apply length_header, length_field. Qed.

Lemma length_payload file :
  nf_size file = from_option length 0%nat (nf_data file) →
  length (payload file) = nf_size file.
Proof. intros H. unfold payload. rewrite H. by destruct (nf_data file). Qed.

Lemma length_entry_block opts now file :
  nf_size file = from_option length 0%nat (nf_data file) →
  length (entry_block opts now file) = (512 + payload_blocks (nf_size file))%nat.
Proof.
  intros H. unfold entry_block.
  rewrite !length_app, length_final_header, length_payload, length_zeros by done.
  pose proof (payload_blocks_bounds (nf_size file)). lia.
Qed.

Lemma zeros_512_segments :
  zeros 512 =
  concat [ zeros 100; zeros 8; zeros 8; zeros 8; zeros 12; zeros 12; zeros 8;
           zeros 1; zeros 100; zeros 6; zeros 2; zeros 32; zeros 32;
           zeros 16; zeros 155; zeros 12 ].
Proof. vm_compute. reflexivity. Qed.

Ltac seg_side :=
  lazymatch goal with
  | |- _ !! _ = Some _ => reflexivity
  | |- length _ = _ => first [apply length_zeros | apply length_field]
  | |- _ = (_ + seg_offset _ _)%nat =>
      unfold seg_offset; cbn [take firstn fmap list_fmap sum_list sum_list_with];
      rewrite ?length_field, ?length_zeros; cbn [id]; lia
  end.

Ltac write_seg k :=
  erewrite (_writeString_segment _ _ _ k); [| seg_side ..];
  cbn [mbind option_bind insert list_insert].

Lemma write_file_layout opts now file pre rest off :
  nf_size file = from_option length 0%nat (nf_data file) →
  off = length pre →
  (512 + payload_blocks (nf_size file) ≤ rest)%nat →
  write_file opts now file (pre ++ zeros rest, off)
  = Some (pre ++ entry_block opts now file
              ++ zeros (rest - (512 + payload_blocks (nf_size file))),
          (off + (512 + payload_blocks (nf_size file)))%nat).
Proof.
  intros Hsize Hoff Hrest.
  replace rest with (512 + (rest - 512))%nat at 1 by lia.
  rewrite zeros_add, zeros_512_segments.
  unfold write_file.
  write_seg 0%nat. write_seg 1%nat. write_seg 2%nat. write_seg 3%nat.
  write_seg 4%nat. write_seg 5%nat. write_seg 7%nat. write_seg 9%nat.
  write_seg 10%nat. write_seg 11%nat. write_seg 12%nat. write_seg 6%nat.
  change (concat _) with (blank_header opts now file) at 1.
  rewrite (view_middle pre (blank_header opts now file)) by
    (try done; symmetry; apply length_header, length_field).
  cbn [mbind option_bind].
  unfold blank_header at 1. unfold header_segments at 1. write_seg 6%nat.
  change (concat _) with (final_header opts now file).
  pose proof (payload_blocks_bounds (nf_size file)) as [Hpb _].
  pose proof (length_final_header opts now file) as Hlen.
  unfold entry_block, payload.
  destruct (nf_data file) as [data|] eqn:Hdata; simpl in Hsize.
  - replace (rest - 512)%nat
      with (nf_size file + (rest - 512 - nf_size file))%nat by lia.
    rewrite zeros_add, (app_assoc pre).
    rewrite (view_middle (pre ++ final_header opts now file) (zeros (nf_size file)))
      by (rewrite ?length_app, ?length_zeros; lia).
    cbn [mbind option_bind].
    rewrite (list_inserts_middle _ (zeros (nf_size file)))
      by (rewrite ?length_app, ?length_zeros, ?length_take; lia).
    rewrite take_ge by lia. cbn [default].
    f_equal. f_equal.
    + rewrite <- !app_assoc. do 3 f_equal.
      rewrite <- zeros_add. f_equal. lia.
    + unfold payload_blocks. destruct (nf_size file mod 512 =? 0)%nat; lia.
  - rewrite Hsize. cbn [default]. change (payload_blocks 0) with 0%nat.
    rewrite Nat.sub_0_r. change (zeros 0) with (@nil byte).
    rewrite !Nat.add_0_r. cbn [app]. by rewrite app_nil_r.
Qed.

Lemma normalize_size_ok files : Forall size_ok (normalize <$> files).
Proof. apply Forall_fmap, Forall_true. intros f. reflexivity. Qed.

Lemma tarDataSize_entries_size files :
  Forall size_ok files → tarDataSize files = entries_size files.
Proof.
  unfold tarDataSize.
  enough (∀ acc, Forall size_ok files →
            foldl (λ tarDataSize file,
                     let size := from_option length 0%nat (nf_data file) in
                     let tarDataSize := (tarDataSize + (512 + 512 * (size / 512)))%nat in
                     if (size mod 512 =? 0)%nat then tarDataSize
                     else (tarDataSize + 512)%nat) acc files
            = (acc + entries_size files)%nat) as H by (intros; by rewrite H).
  intros acc Hall. revert acc.
  induction Hall as [|file files Hfile Hall IH]; intros acc;
    cbn [foldl entries_size]; [lia|].
  rewrite IH. unfold payload_blocks. unfold size_ok in Hfile. rewrite <- Hfile.
  destruct (nf_size file mod 512 =? 0)%nat; lia.
Qed.

Lemma length_entry_blocks opts now i files :
  Forall size_ok files →
  length (entry_blocks opts now i files) = entries_size files.
Proof.
  intros Hall. revert i. induction Hall as [|file files Hfile Hall IH]; intros i.
  - done.
  - cbn [entry_blocks entries_size].
    rewrite length_app, length_entry_block, IH by exact Hfile. lia.
Qed.

Lemma write_files_layout opts now files i pre rest off :
  Forall size_ok files →
  off = length pre →
  (entries_size files ≤ rest)%nat →
  write_files opts now i files (pre ++ zeros rest, off)
  = Some (pre ++ entry_blocks opts now i files
              ++ zeros (rest - entries_size files),
          (off + entries_size files)%nat).
Proof.
  intros Hall. revert i pre rest off.
  induction Hall as [|file files Hfile Hall IH]; intros i pre rest off Hoff Hrest.
  - simpl. rewrite Nat.sub_0_r, Nat.add_0_r. done.
  - cbn [write_files entries_size entry_blocks] in *.
    rewrite (write_file_layout opts (now i) file pre rest off Hfile Hoff); [|lia].
    cbn [mbind option_bind].
    rewrite (app_assoc pre).
    rewrite IH.
    + f_equal. f_equal.
      * rewrite <- !app_assoc. do 4 f_equal. lia.
      * lia.
    + rewrite length_app, length_entry_block by exact Hfile. lia.
    + lia.
Qed.

Lemma bufSize_ge t : (t ≤ bufSize t)%nat.
Proof.
  unfold bufSize.
  pose proof (Nat.div_mod_eq t 10240) as Hdm.
  pose proof (Nat.mod_upper_bound t 10240 ltac:(done)) as Hub.
  destruct (Nat.eqb_spec (t mod 10240) 0); lia.
Qed.

(** [createTar] never raises, and returns the blocks of its entries followed
    by zeros up to a multiple of 10240 bytes. *)
Lemma createTar_layout now files opts :
  let _files := normalize <$> files in
  createTar now files opts
  = Some (entry_blocks opts now 0 _files
            ++ zeros (bufSize (tarDataSize _files) - tarDataSize _files)).
Proof.
  intros _files. unfold createTar. fold _files.
  pose proof (normalize_size_ok files) as Hok. fold _files in Hok.
  pose proof (bufSize_ge (tarDataSize _files)) as Hge.
  rewrite (tarDataSize_entries_size _ Hok) in *.
  change (replicate ?n Byte.x00) with (zeros n).
  rewrite <- (app_nil_l (zeros _)).
  rewrite write_files_layout by done.
  done.
Qed.

(** ** Octal digits written and read back *)

Lemma b2N_N2b n : (n < 256)%N → b2N (N2b n) = n.
Proof.
  intros H. unfold b2N, N2b.
  destruct (Byte.of_N n) as [b|] eqn:E.
  - simpl. by apply Byte.to_of_N.
  - apply Byte.of_N_None_iff in E. lia.
Qed.

Lemma N2b_b2N b : N2b (b2N b) = b.
Proof. unfold b2N, N2b. by rewrite Byte.of_to_N. Qed.

Lemma b2N_bounded b : (b2N b < 256)%N.
Proof. unfold b2N. pose proof (Byte.to_N_bounded b). lia. Qed.

Lemma digit_val_digit_char d : (d < 10)%N → digit_val (digit_char d) = Some d.
Proof.
  intros H. unfold digit_val, digit_char.
  destruct (N.ltb_spec d 10); [|lia].
  rewrite b2N_N2b by lia.
  destruct (N.leb_spec 48 (48 + d)); [|lia].
  destruct (N.leb_spec (48 + d) 57); [|lia].
  simpl. f_equal. lia.
Qed.

Lemma is_ascii_digit_char d : (d < 10)%N → is_ascii (digit_char d).
Proof.
  intros H. unfold is_ascii, digit_char.
  destruct (N.ltb_spec d 10); [|lia]. rewrite b2N_N2b by lia. lia.
Qed.

Lemma N_digits_spec R fuel : (2 ≤ R ≤ 10)%N →
  ∀ k n acc, (1 ≤ k ≤ fuel)%nat → (n < R ^ N.of_nat k)%N →
    ∃ ds, N_digits fuel R n acc = ds ++ acc ∧ digits_of R ds n
          ∧ (1 ≤ length ds ≤ k)%nat.
Proof.
  intros HR. induction fuel as [|fuel IH]; intros k n acc Hk Hn.
  - lia.
  - cbn [N_digits].
    assert (n mod R < R)%N as Hmod by (apply N.mod_lt; lia).
    assert (n = R * (n / R) + n mod R)%N as Hdm by (apply N.div_mod; lia).
    destruct (N.eqb_spec (n / R) 0) as [E|E].
    + exists [digit_char (n mod R)]. split; [done|]. split.
      * split.
        -- constructor; [|constructor]. split.
           ++ apply is_ascii_digit_char. lia.
           ++ exists (n mod R)%N. split; [apply digit_val_digit_char; lia|done].
        -- simpl. rewrite digit_val_digit_char by lia. simpl. lia.
      * simpl. lia.
    + destruct k as [|k]; [lia|].
      assert (n / R < R ^ N.of_nat k)%N as Hq.
      { apply N.Div0.div_lt_upper_bound.
        rewrite Nat2N.inj_succ, N.pow_succ_r' in Hn. exact Hn. }
      assert (1 ≤ k)%nat.
      { destruct k; [|lia]. change (N.of_nat 0) with 0%N in Hq.
        rewrite N.pow_0_r in Hq. apply N.lt_1_r in Hq. done. }
      destruct (IH k (n / R)%N (digit_char (n mod R) :: acc)) as (ds & Hds & [Hall Hval] & Hlen);
        [lia|done|].
      exists (ds ++ [digit_char (n mod R)]). split.
      { rewrite Hds. by rewrite <- app_assoc. }
      split.
      * split.
        -- apply Forall_app. split; [done|].
           constructor; [|constructor]. split.
           ++ apply is_ascii_digit_char. lia.
           ++ exists (n mod R)%N. split; [apply digit_val_digit_char; lia|done].
        -- rewrite foldl_app. simpl. rewrite Hval.
           rewrite digit_val_digit_char by lia. simpl. lia.
      * rewrite length_app. simpl. lia.
Qed.

Lemma Number_toString_digits n k : (0 ≤ n < 8 ^ Z.of_nat k)%Z → (1 ≤ k)%nat →
  ∃ ds, Number_toString n 8 = ds ∧ digits_of 8 ds (Z.to_N n)
        ∧ (1 ≤ length ds ≤ k)%nat.
Proof.
  intros Hn Hk. unfold Number_toString.
  destruct (Z.ltb_spec n 0); [lia|].
  replace (Z.abs_N n) with (Z.to_N n) by lia.
  set (m := Z.to_N n).
  assert (m < 8 ^ N.of_nat k)%N as Hm.
  { unfold m. apply N2Z.inj_lt. rewrite N2Z.inj_pow, Z2N.id by lia.
    rewrite nat_N_Z. simpl. lia. }
  set (fuel := S (N.to_nat (N.log2 m))).
  destruct (le_lt_dec k fuel) as [Hle|Hgt].
  - destruct (N_digits_spec 8 fuel ltac:(lia) k m [] ltac:(lia) Hm) as (ds & Hds & Hdig & Hlen).
    exists ds. by rewrite Hds, app_nil_r.
  - assert (m < 8 ^ N.of_nat fuel)%N as Hm'.
    { unfold fuel. rewrite Nat2N.inj_succ, N2Nat.id.
      destruct (N.eq_dec m 0%N) as [->|Hne]; [done|].
      pose proof (N.log2_spec m ltac:(lia)) as [_ Hlog].
      eapply N.lt_le_trans; [exact Hlog|].
      apply N.pow_le_mono_l. lia. }
    destruct (N_digits_spec 8 fuel ltac:(lia) fuel m [] ltac:(unfold fuel; lia) Hm') as (ds & Hds & Hdig & Hlen).
    exists ds. rewrite Hds, app_nil_r. split; [done|]. split; [done|]. lia.
Qed.

Lemma parse_digits_app R ds rest acc :
  Forall (λ b, is_ascii b ∧ ∃ d, digit_val b = Some d ∧ (d < R)%N) ds →
  parse_digits R (ds ++ rest) acc
  = parse_digits R rest
      (match ds with
       | [] => acc
       | _ => Some (digits_val R (default 0%N acc) ds)
       end).
Proof.
  intros Hall. revert acc.
  induction Hall as [|b ds (_ & d & Hd & Hlt) Hall IH]; intros acc; [done|].
  cbn [app parse_digits]. rewrite Hd.
  destruct (N.ltb_spec d R); [|lia].
  rewrite IH. cbn [digits_val foldl]. rewrite Hd. simpl.
  by destruct ds.
Qed.

Lemma parse_digits_zeros R n acc : parse_digits R (zeros n) acc = acc.
Proof. by destruct n. Qed.

Lemma digits_val_pad R k ds :
  digits_val R 0 (replicate k "0"%byte ++ ds) = digits_val R 0 ds.
Proof.
  induction k as [|k IH]; [done|].
  cbn [replicate app digits_val foldl].
  change (digit_val "0") with (Some 0%N). simpl.
  rewrite N.mul_0_r. exact IH.
Qed.

Lemma utf16_length_ascii s : Forall is_ascii s → utf16_length s = length s.
Proof.
  induction 1 as [|b s Hb _ IH]; [done|].
  cbn [utf16_length length]. rewrite IH.
  unfold is_continuation. unfold is_ascii in Hb.
  destruct (N.leb_spec 128 (b2N b)); [lia|].
  destruct (N.leb_spec 240 (b2N b)); [lia|]. done.
Qed.

Lemma fromCodePoint_ascii s :
  Forall is_ascii s → concat (String_fromCodePoint <$> s) = s.
Proof.
  induction 1 as [|b s Hb _ IH]; [done|].
  rewrite fmap_cons. cbn [concat]. rewrite IH.
  unfold String_fromCodePoint. unfold is_ascii in Hb.
  by destruct (N.ltb_spec (b2N b) 128); [|lia].
Qed.

Lemma Forall_is_ascii_zeros n : Forall is_ascii (zeros n).
Proof. apply Forall_replicate. unfold is_ascii. by vm_compute. Qed.

(** A digit is not white space, nor a sign, nor the [x] of a hexadecimal
    prefix in second position. *)
Lemma strip_one_digit b d s :
  digit_val b = Some d → strip_one js_whitespace (b :: s) = None.
Proof.
  intros Hd. unfold js_whitespace. cbn [strip_one].
  repeat match goal with
  | |- context [startsWith (b :: s) ?p] =>
      let E := fresh in
      destruct (startsWith (b :: s) p) eqn:E;
      [ exfalso; unfold startsWith in E; apply bool_decide_eq_true in E;
        cbn [length take firstn] in E; apply (f_equal head) in E;
        cbn [head] in E; injection E as ->;
        vm_compute in Hd; discriminate
      | clear E ]
  end.
  done.
Qed.

Lemma trimStart_digit b d s : digit_val b = Some d → trimStart (b :: s) = b :: s.
Proof.
  intros Hd. unfold trimStart. cbn [length strip_loop].
  by rewrite (strip_one_digit b d s Hd).
Qed.

Lemma startsWith_digit_sign b d s p :
  digit_val b = Some d → p = str "-" ∨ p = str "+" →
  startsWith (b :: s) p = false.
Proof.
  intros Hd Hp. unfold startsWith. apply bool_decide_eq_false.
  destruct Hp as [-> | ->]; cbn [str length take firstn];
    intros E; simpl in E; injection E as ->; vm_compute in Hd; discriminate.
Qed.

(** [parseInt(s, 8)] on a non-empty string of octal digits followed by NULs. *)
Lemma parseInt_octal ds n j :
  digits_of 8 ds n → ds ≠ [] → parseInt (ds ++ zeros j) 8 = Some (Z.of_N n).
Proof.
  intros [Hall Hval] Hne.
  destruct ds as [|b ds]; [done|].
  pose proof (Forall_inv Hall) as (_ & d & Hd & _).
  unfold parseInt. cbn [app].
  rewrite (trimStart_digit b d) by done.
  rewrite !(startsWith_digit_sign b d) by auto.
  change (8 =? 0)%Z with false. change (8 =? 16)%Z with false.
  change (8 <? 2)%Z with false. change (36 <? 8)%Z with false.
  cbn [orb andb negb].
  change (Z.to_N 8) with 8%N.
  change (b :: ds ++ zeros j) with ((b :: ds) ++ zeros j).
  rewrite parse_digits_app by done.
  rewrite parse_digits_zeros. cbn [default].
  unfold digits_val. rewrite Hval. f_equal. lia.
Qed.

Lemma digits_of_nonempty R ds n : digits_of R ds n → Forall is_ascii ds.
Proof. intros [Hall _]. eapply Forall_impl; [exact Hall|]. by intros b [? _]. Qed.

Lemma digits_of_leftPad ds n k :
  digits_of 8 ds n →
  digits_of 8 (_leftPad ds k) n
  ∧ length (_leftPad ds k) = (length ds `max` k)%nat.
Proof.
  intros Hds. pose proof (digits_of_nonempty _ _ _ Hds) as Hascii.
  destruct Hds as [Hall Hval].
  unfold _leftPad. rewrite (utf16_length_ascii ds Hascii).
  split; [split|].
  - apply Forall_app. split; [|done].
    apply Forall_replicate. split; [by vm_compute|].
    exists 0%N. split; [reflexivity|lia].
  - fold (digits_val 8 0 (replicate (k - length ds) "0"%byte ++ ds)).
    by rewrite digits_val_pad.
  - rewrite length_app, length_replicate. lia.
Qed.

(** A field holding octal digits reads back as their value. *)
Lemma octal_field_read s n size :
  digits_of 8 s n → (1 ≤ length s ≤ size)%nat →
  parseInt (concat (String_fromCodePoint <$> field s size)) 8
  = Some (Z.of_N n).
Proof.
  intros Hds Hlen. unfold field.
  rewrite encodeInto_fits by lia.
  rewrite fromCodePoint_ascii.
  - apply parseInt_octal; [done|]. intros ->. simpl in Hlen. lia.
  - apply Forall_app. split; [by eapply digits_of_nonempty|].
    apply Forall_is_ascii_zeros.
Qed.

Lemma size_field_read (n : Z) :
  (0 ≤ n < 8 ^ 12)%Z →
  parseInt (concat (String_fromCodePoint
                      <$> field (_leftPad (Number_toString n 8) 11) 12)) 8
  = Some n.
Proof.
  intros Hn.
  destruct (Number_toString_digits n 12 ltac:(simpl; lia) ltac:(lia))
    as (ds & -> & Hds & Hlen).
  destruct (digits_of_leftPad ds _ 11 Hds) as [Hpad Hplen].
  rewrite (octal_field_read _ _ _ Hpad) by lia.
  f_equal. lia.
Qed.

Lemma cstring_cons b l : b ≠ Byte.x00 → cstring (b :: l) = b :: cstring l.
Proof.
  intros Hb. unfold cstring. cbn [list_find].
  destruct (decide (b = Byte.x00)); [done|].
  by destruct (list_find _ l) as [[i x]|].
Qed.

Lemma cstring_zeros n : cstring (zeros n) = [].
Proof. by destruct n. Qed.

Lemma cstring_field s size :
  Byte.x00 ∉ s → (length s ≤ size)%nat → cstring (field s size) = s.
Proof.
  intros Hs Hlen. unfold field. rewrite encodeInto_fits by done.
  generalize (size - length s)%nat as k. intros k. clear Hlen.
  induction s as [|b s IH]; [apply cstring_zeros|].
  cbn [app]. rewrite cstring_cons.
  - f_equal. apply IH. intros ?. apply Hs. by right.
  - intros ->. apply Hs. by left.
Qed.

Lemma TextDecoder_decode_no_BOM s : take 3 s ≠ BOM → TextDecoder_decode s = s.
Proof. intros H. unfold TextDecoder_decode. by rewrite bool_decide_eq_false_2. Qed.

Lemma Uint8Array_new_view buffer z len (a n : nat) :
  z = Z.of_nat a → len = Some (Z.of_nat n) →
  Uint8Array_new buffer z len = view buffer a n.
Proof.
  intros -> ->. unfold Uint8Array_new, ToIndex, view.
  destruct (Z.ltb_spec (Z.of_nat a) 0); [lia|].
  destruct (Z.ltb_spec (Z.of_nat n) 0); [lia|].
  cbn [mbind option_bind]. by rewrite !Nat2Z.id.
Qed.

Lemma _readString_segment pre segs post k x z n :
  segs !! k = Some x →
  z = Z.of_nat (length pre + seg_offset segs k) →
  n = Z.of_nat (length x) →
  _readString (pre ++ concat segs ++ post) z (Some n)
  = Some (TextDecoder_decode (cstring x)).
Proof.
  intros Hk -> ->. unfold _readString.
  rewrite (Uint8Array_new_view _ _ _ _ _ eq_refl eq_refl).
  by rewrite (view_segment pre segs post k x) by done.
Qed.

Lemma _readNumber_segment pre segs post k x z n :
  segs !! k = Some x →
  z = Z.of_nat (length pre + seg_offset segs k) →
  n = Z.of_nat (length x) →
  _readNumber (pre ++ concat segs ++ post) z n
  = Some (parseInt (concat (String_fromCodePoint <$> x)) 8).
Proof.
  intros Hk -> ->. unfold _readNumber.
  rewrite (Uint8Array_new_view _ _ _ _ _ eq_refl eq_refl).
  by rewrite (view_segment pre segs post k x) by done.
Qed.

(** ** One pass of the decode loop over an encoded entry *)

Lemma seek_of_nat (n : nat) :
  seek_of (Some (Z.of_nat n)) = Some (Z.of_nat (512 + payload_blocks n)).
Proof.
  unfold seek_of, payload_blocks. cbn [mbind option_bind]. f_equal.
  rewrite Z.quot_div_nonneg, Z.rem_mod_nonneg by lia.
  change 512%Z with (Z.of_nat 512).
  rewrite <- Nat2Z.inj_div, <- Nat2Z.inj_mod.
  destruct (Nat.eqb_spec (n mod 512) 0) as [E|E].
  - rewrite E. simpl (Z.of_nat 0 =? 0)%Z. cbv iota. lia.
  - destruct (Z.eqb_spec (Z.of_nat (n mod 512)) 0); lia.
Qed.

Ltac read_side :=
  lazymatch goal with
  | |- _ !! _ = Some _ => reflexivity
  | |- _ = Z.of_nat (length _) =>
      rewrite ?length_field, ?length_zeros, ?length_chksum_field; reflexivity
  | |- _ = Z.of_nat (_ + seg_offset _ _) =>
      unfold seg_offset; cbn [take firstn fmap list_fmap sum_list sum_list_with];
      rewrite ?length_field, ?length_zeros, ?length_chksum_field; cbn [id]; lia
  end.

Ltac read_string k z n :=
  lazymatch goal with
  | |- context [_readString (?pre ++ concat ?segs ++ ?post) z (Some n)] =>
      lazymatch eval cbn [lookup list_lookup] in (segs !! k) with
      | Some ?x =>
          rewrite (_readString_segment pre segs post k x z n eq_refl
                     ltac:(read_side) ltac:(read_side))
      end
  end.

Ltac read_number k z n :=
  lazymatch goal with
  | |- context [_readNumber (?pre ++ concat ?segs ++ ?post) z n] =>
      lazymatch eval cbn [lookup list_lookup] in (segs !! k) with
      | Some ?x =>
          rewrite (_readNumber_segment pre segs post k x z n eq_refl
                     ltac:(read_side) ltac:(read_side))
      end
  end.

Lemma type_field_file :
  TextDecoder_decode (cstring (field (str "0") 1)) = str "0".
Proof. vm_compute. reflexivity. Qed.

Lemma type_field_directory :
  TextDecoder_decode (cstring (field (str "5") 1)) = str "5".
Proof. vm_compute. reflexivity. Qed.

Lemma magic_field :
  TextDecoder_decode (cstring (field (str "ustar") 6)) = str "ustar".
Proof. vm_compute. reflexivity. Qed.

Lemma prefix_field : TextDecoder_decode (cstring (zeros 155)) = [].
Proof. vm_compute. reflexivity. Qed.

Lemma parseTar_body_entry opts now file pre post st :
  valid_name (file_name (nf_file file)) →
  size_ok file →
  (Z.of_nat (nf_size file) < 8 ^ 12)%Z →
  nextExtendedHeader st = None →
  ∃ meta,
    parseTar_body (pre ++ entry_block opts now file ++ post) no_opts
      (Z.of_nat (length pre)) st
    = Some (Continue
              {| offset := Some (Z.of_nat (length pre + (512 + payload_blocks (nf_size file))));
                 nextExtendedHeader := None;
                 globalExtendedHeader := globalExtendedHeader st;
                 files := files st ++
                   [FileEntry meta (if decide (nf_size file = 0%nat) then None
                                    else Some (payload file))] |})
    ∧ meta_name meta = file_name (nf_file file)
    ∧ meta_type meta = (match nf_data file with Some _ => str "file" | None => str "directory" end)
    ∧ meta_size meta = Some (Z.of_nat (nf_size file)).
Proof.
  intros (Hne & Hnul & Hlen & Hbom) Hsize Hbound Hnext.
  unfold entry_block, final_header. rewrite <- !app_assoc.
  set (post' := payload file ++ _).
  unfold parseTar_body. unfold header_segments.
  read_string 0%nat (Z.of_nat (length pre)) 100%Z. cbn [mbind option_bind].
  rewrite cstring_field, TextDecoder_decode_no_BOM by done.
  rewrite bool_decide_eq_false_2 by done.
  rewrite Hnext.
  read_string 1%nat (Z.of_nat (length pre) + 100)%Z 8%Z.
  read_string 2%nat (Z.of_nat (length pre) + 108)%Z 8%Z.
  read_string 3%nat (Z.of_nat (length pre) + 116)%Z 8%Z.
  read_number 4%nat (Z.of_nat (length pre) + 124)%Z 12%Z.
  read_number 5%nat (Z.of_nat (length pre) + 136)%Z 12%Z.
  read_string 7%nat (Z.of_nat (length pre) + 156)%Z 1%Z.
  read_string 9%nat (Z.of_nat (length pre) + 257)%Z 6%Z.
  read_string 11%nat (Z.of_nat (length pre) + 265)%Z 32%Z.
  read_string 12%nat (Z.of_nat (length pre) + 297)%Z 32%Z.
  read_string 14%nat (Z.of_nat (length pre) + 345)%Z 155%Z.
  cbn [mbind option_bind fmap option_fmap option_map].
  rewrite size_field_read by lia.
  rewrite seek_of_nat.
  rewrite magic_field, prefix_field.
  rewrite (bool_decide_eq_true_2 (str "ustar" = str "ustar")) by done.
  rewrite (bool_decide_eq_true_2 (@nil byte = [])) by done.
  cbn [mbind option_bind opt_filter opt_metaOnly no_opts].
  assert (Hview : Uint8Array_new
            (pre ++ concat (header_segments opts now file (chksum_field opts now file)) ++ post')
            (Z.of_nat (length pre) + 512) (Some (Z.of_nat (nf_size file)))
          = Some (payload file)).
  { rewrite (Uint8Array_new_view _ _ _ (length pre + 512)%nat (nf_size file))
      by first [reflexivity | lia].
    rewrite app_assoc. unfold post'.
    apply view_middle.
    - rewrite length_app. fold (final_header opts now file).
      by rewrite length_final_header.
    - by rewrite length_payload. }
  unfold header_segments in Hview.
  assert (Hadv : advance (Z.of_nat (length pre))
                   (Some (Z.of_nat (512 + payload_blocks (nf_size file))))
                 = Some (Z.of_nat (length pre + (512 + payload_blocks (nf_size file))))).
  { unfold advance. cbn [mbind option_bind]. f_equal. lia. }
  rewrite !Hadv. clear Hadv.
  destruct (nf_data file) as [data|] eqn:Hdata.
  - rewrite (bool_decide_eq_false_2 (Some data = None)) in Hview |- * by done.
    rewrite type_field_file.
    change (bool_decide (str "0" = [])) with false. cbv iota.
    change (assoc (str "0") tarItemTypeMap) with (Some (str "file")).
    cbn [default from_option id].
    change (is_extended (str "file")) with false.
    change (is_gnu_long (str "file")) with false. cbv iota.
    destruct (decide (nf_size file = 0%nat)) as [E|E].
    + rewrite E. rewrite bool_decide_eq_true_2 by done.
      cbn [mbind option_bind fmap option_fmap option_map].
      eexists. split; [reflexivity|]. by repeat split.
    + rewrite bool_decide_eq_false_2 by (intros [=]; lia).
      rewrite Hview.
      cbn [mbind option_bind fmap option_fmap option_map].
      eexists. split; [reflexivity|]. by repeat split.
  - rewrite (bool_decide_eq_true_2 (@None (list byte) = None)) by done.
    rewrite type_field_directory.
    change (bool_decide (str "5" = [])) with false. cbv iota.
    change (assoc (str "5") tarItemTypeMap) with (Some (str "directory")).
    cbn [default from_option id].
    change (is_extended (str "directory")) with false.
    change (is_gnu_long (str "directory")) with false. cbv iota.
    assert (nf_size file = 0%nat) as E by (by rewrite Hsize, Hdata).
    rewrite E. rewrite bool_decide_eq_true_2 by done.
    cbn [mbind option_bind fmap option_fmap option_map].
    rewrite decide_True by done.
    eexists. split; [reflexivity|]. by repeat split.
Qed.

(** ** The decode loop over the encoded entries *)

Lemma _readString_zeros pre k :
  (100 ≤ k)%nat →
  _readString (pre ++ zeros k) (Z.of_nat (length pre)) (Some 100%Z) = Some [].
Proof.
  intros Hk. unfold _readString.
  rewrite (Uint8Array_new_view _ _ _ (length pre) 100) by reflexivity.
  replace k with (100 + (k - 100))%nat by lia.
  rewrite zeros_add, (view_middle pre (zeros 100)) by done.
  reflexivity.
Qed.

Lemma parseTar_loop_end fuel pre k opts st :
  offset st = Some (Z.of_nat (length pre)) →
  parseTar_loop (S fuel) (pre ++ zeros k) opts st = Ok (files st).
Proof.
  intros Hoff. cbn [parseTar_loop]. rewrite Hoff.
  destruct (Z.ltb_spec (Z.of_nat (length pre))
              (Z.of_nat (length (pre ++ zeros k)) - 512)) as [Hlt|]; [|done].
  rewrite length_app, length_zeros in Hlt.
  unfold parseTar_body. rewrite _readString_zeros by lia.
  reflexivity.
Qed.

Lemma length_entry_block_ge opts now file :
  size_ok file → (512 ≤ length (entry_block opts now file))%nat.
Proof. intros H. rewrite length_entry_block by done. lia. Qed.

Lemma parseTar_loop_entries opts now fs :
  ∀ i pre k st fuel,
    Forall entry_ok fs →
    tail_ok fs k →
    nextExtendedHeader st = None →
    offset st = Some (Z.of_nat (length pre)) →
    (length fs < fuel)%nat →
    ∃ entries,
      parseTar_loop fuel (pre ++ entry_blocks opts now i fs ++ zeros k)
        no_opts st = Ok (files st ++ entries)
      ∧ Forall2 decodes_to fs entries.
Proof.
  induction fs as [|file fs IH]; intros i pre k st fuel Hall Htail Hnext Hoff Hfuel.
  - exists []. split; [|constructor].
    destruct fuel as [|fuel]; [simpl in Hfuel; lia|].
    cbn [entry_blocks app]. rewrite app_nil_r.
    by apply parseTar_loop_end.
  - apply Forall_cons in Hall as [(Hname & Hsize & Hbound) Hall].
    destruct fuel as [|fuel]; [simpl in Hfuel; lia|].
    cbn [entry_blocks parseTar_loop]. rewrite Hoff.
    rewrite <- (app_assoc (entry_block _ _ _)).
    set (post := entry_blocks opts now (S i) fs ++ zeros k).
    assert (512 < length (entry_block opts (now i) file ++ post))%nat as Hguard.
    { rewrite length_app, length_entry_block by done. unfold post.
      rewrite length_app, length_zeros.
      destruct fs as [|file' fs'].
      - destruct Htail as [?|[?|(f & Hlast & Hnz)]]; [done|simpl; lia|].
        simpl in Hlast. injection Hlast as <-.
        pose proof (payload_blocks_bounds (nf_size file)). simpl. lia.
      - apply Forall_cons in Hall as [(_ & Hsize' & _) _].
        cbn [entry_blocks]. rewrite length_app.
        pose proof (length_entry_block_ge opts (now (S i)) file' Hsize'). lia. }
    destruct (Z.ltb_spec (Z.of_nat (length pre))
                (Z.of_nat (length (pre ++ entry_block opts (now i) file ++ post)) - 512))
      as [_|Hge]; [|rewrite length_app in Hge; lia].
    destruct (parseTar_body_entry opts (now i) file pre post st Hname Hsize Hbound Hnext)
      as (meta & Hbody & Hmn & Hmt & Hms).
    rewrite Hbody.
    rewrite (app_assoc pre). unfold post.
    match goal with |- context [parseTar_loop fuel _ _ ?s] => set (st' := s) end.
    assert (tail_ok fs k) as Htail'.
    { destruct fs as [|file' fs']; [by left|].
      destruct Htail as [?|[?|(f & Hlast & Hnz)]]; [done|by right; left|].
      right. right. exists f. split; [|done]. exact Hlast. }
    assert (offset st' = Some (Z.of_nat (length (pre ++ entry_block opts (now i) file))))
      as Hoff'.
    { cbn [offset st']. rewrite length_app, length_entry_block by done. done. }
    destruct (IH (S i) (pre ++ entry_block opts (now i) file) k st' fuel
                Hall Htail' eq_refl Hoff' ltac:(simpl in Hfuel; lia))
      as (entries & Hloop & Hdec).
    rewrite Hloop. cbn [files st']. rewrite <- app_assoc.
    eexists. split; [reflexivity|].
    constructor; [|done].
    exists meta, (if decide (nf_size file = 0%nat) then None else Some (payload file)).
    repeat split; try done.
    destruct (decide (nf_size file = 0%nat)) as [E|E]; [|done].
    cbn [default]. symmetry. apply nil_length_inv.
    by rewrite length_payload.
Qed.

Local Close Scope nat_scope.

(** * The decoder *)

(** ** The cases of one pass through the loop *)

Ltac body_reads H :=
  repeat match type of H with
  | context [mbind _ ?o] =>
      lazymatch o with
      | _readString _ _ _ => idtac
      | _readNumber _ _ _ => idtac
      | Uint8Array_new _ _ _ => idtac
      | fmap _ (_readString _ _ _) => idtac
      end;
      let E := fresh "E" in
      destruct o eqn:E; cbn [mbind option_bind] in H; [|discriminate H]
  end.

Lemma parseTar_body_step buffer opts off st r :
  parseTar_body buffer opts off st = Some r → decode_step buffer opts off st r.
Proof.
  intros H. unfold parseTar_body in H.
  destruct (_readString buffer off (Some 100%Z)) as [name|] eqn:Ename;
    cbn [mbind option_bind] in H; [|discriminate H].
  destruct (bool_decide (name = [])) eqn:Ene.
  { apply bool_decide_eq_true in Ene as ->. injection H as <-.
    by apply step_break. }
  apply bool_decide_eq_false in Ene.
  destruct (trim <$> _readString buffer (off + 100) (Some 8%Z)) as [mode|] eqn:Emode;
    cbn [mbind option_bind] in H; [|discriminate H].
  destruct ((λ s, parseInt s 0) <$> _readString buffer (off + 108) (Some 8%Z))
    as [uid|] eqn:Euid; cbn [mbind option_bind] in H; [|discriminate H].
  destruct ((λ s, parseInt s 0) <$> _readString buffer (off + 116) (Some 8%Z))
    as [gid|] eqn:Egid; cbn [mbind option_bind] in H; [|discriminate H].
  destruct (_readNumber buffer (off + 124) 12) as [size|] eqn:Esize;
    cbn [mbind option_bind] in H; [|discriminate H].
  destruct (_readNumber buffer (off + 136) 12) as [mtime|] eqn:Emtime;
    cbn [mbind option_bind] in H; [|discriminate H].
  destruct ((λ s, if bool_decide (s = []) then str "0" else s)
              <$> _readString buffer (off + 156) (Some 1%Z))
    as [code|] eqn:Ecode; cbn [mbind option_bind] in H; [|discriminate H].
  set (h := {| hd_raw_name := name; hd_mode := mode; hd_uid := uid;
               hd_gid := gid; hd_size := size; hd_mtime := mtime;
               hd_code := code |}).
  assert (read_header buffer off = Some h) as Hh.
  { unfold read_header. rewrite Ename. cbn [mbind option_bind].
    rewrite Emode. cbn [mbind option_bind]. rewrite Euid. cbn [mbind option_bind].
    rewrite Egid. cbn [mbind option_bind]. rewrite Esize. cbn [mbind option_bind].
    rewrite Emtime. cbn [mbind option_bind]. rewrite Ecode. done. }
  change (default code (assoc code tarItemTypeMap)) with (hd_type h) in H.
  destruct (is_extended (hd_type h)) eqn:Eext.
  - destruct (Uint8Array_new buffer (off + 512) size) as [data|] eqn:Edata;
      cbn [mbind option_bind] in H; [|discriminate H].
    destruct (bool_decide (hd_type h = str "extendedHeader")) eqn:Ex.
    + apply bool_decide_eq_true in Ex. injection H as <-.
      by apply (step_extended _ _ _ _ h data).
    + apply bool_decide_eq_false in Ex. injection H as <-.
      apply (step_global _ _ _ _ h data); try done.
      unfold is_extended in Eext. apply orb_true_iff in Eext as [E|E].
      * by apply bool_decide_eq_true in E.
      * by apply bool_decide_eq_true in E.
  - destruct (is_gnu_long (hd_type h)) eqn:Egnu.
    + destruct (_readString buffer (off + 512) size) as [path|] eqn:Epath;
        cbn [mbind option_bind] in H; [|discriminate H].
      injection H as <-. by apply (step_gnu_long _ _ _ _ h path).
    + destruct (_readString buffer (off + 257) (Some 6%Z)) as [ustar|] eqn:Emagic;
        cbn [mbind option_bind] in H; [|discriminate H].
      match type of H with
      | mbind _ ?X = _ =>
          assert (read_ustar buffer off (hd_name (nextExtendedHeader st) h) = X)
            as Eustar by (unfold read_ustar; rewrite Emagic; reflexivity);
          destruct X as [[[user group] name']|];
            cbn [mbind option_bind] in H; [|discriminate H]
      end.
      pose (M := make_meta st h user group name').
      pose (g := globalExtendedHeader st).
      assert ((if match opt_filter opts with
                  | Some f => negb (f M)
                  | None => false
                  end
               then Some (Continue (after off h None g (files st)))
               else if opt_metaOnly opts
                    then Some (Continue (after off h None g (files st ++ [MetaEntry M])))
                    else
                      data2 ← (if bool_decide (size = Some 0) then Some None
                               else Some <$> Uint8Array_new buffer (off + 512) size);
                      Some (Continue (after off h None g (files st ++ [FileEntry M data2]))))
              = Some r) as H' by exact H.
      clear H.
      assert (∃ entries,
                emit buffer opts off M (files st) = Some entries
                ∧ r = Continue (after off h None g entries))
        as (entries & Hemit & ->).
      { unfold emit. change (meta_size M) with size.
        destruct (match opt_filter opts with
                  | Some f => negb (f M)
                  | None => false
                  end); [injection H' as <-; eauto|].
        destruct (opt_metaOnly opts); [injection H' as <-; eauto|].
        destruct (if bool_decide (size = Some 0) then Some None
                  else Some <$> Uint8Array_new buffer (off + 512) size)
          as [data2|]; cbn [mbind option_bind] in H' |- *; [|discriminate H'].
        injection H' as <-. eauto. }
      by apply (step_entry _ _ _ _ h user group name' entries).
Qed.

(** ** Properties of a pass *)

Lemma sample_archive_created :
  createTar sample_clock sample_files sample_opts = Some sample_archive.
Proof. vm_compute. reflexivity. Qed.

Lemma emit_cases buffer opts off meta entries entries' :
  emit buffer opts off meta entries = Some entries' →
  entries' = entries
  ∨ entries' = entries ++ [MetaEntry meta]
  ∨ ∃ data, entries' = entries ++ [FileEntry meta data].
Proof.
  unfold emit. intros H.
  destruct (match opt_filter opts with Some f => negb (f meta) | None => false end);
    [injection H as <-; by left|].
  destruct (opt_metaOnly opts); [injection H as <-; by right; left|].
  destruct (if bool_decide (meta_size meta = Some 0) then Some None
            else Some <$> Uint8Array_new buffer (off + 512) (meta_size meta))
    as [data|]; cbn [mbind option_bind] in H; [|discriminate H].
  injection H as <-. right. right. by exists data.
Qed.

Lemma emit_new_entry buffer opts off meta entries entries' e :
  emit buffer opts off meta entries = Some entries' →
  entries' = entries ++ [e] → entry_meta e = meta.
Proof.
  intros H He. apply emit_cases in H as [->|[->|[data ->]]].
  - apply (f_equal length) in He. rewrite length_app in He. simpl in He. lia.
  - apply app_inv_head in He. by injection He as <-.
  - apply app_inv_head in He. by injection He as <-.
Qed.

Lemma emit_no_filter buffer off meta entries entries' :
  emit buffer no_opts off meta entries = Some entries' →
  ∃ data, entries' = entries ++ [FileEntry meta data].
Proof.
  unfold emit. cbn [no_opts opt_filter opt_metaOnly]. intros H.
  destruct (if bool_decide (meta_size meta = Some 0) then Some None
            else Some <$> Uint8Array_new buffer (off + 512) (meta_size meta))
    as [data|]; cbn [mbind option_bind] in H; [|discriminate H].
  injection H as <-. by exists data.
Qed.

(** In every case that continues the loop the header was read and the cursor
    moved by [seek]. *)
Lemma decode_step_continue buffer opts off st st' :
  decode_step buffer opts off st (Continue st') →
  ∃ h, read_header buffer off = Some h ∧ hd_raw_name h ≠ []
       ∧ offset st' = advance off (seek_of (hd_size h)).
Proof. inversion 1; subst; eauto. Qed.

Lemma seek_of_floor s :
  0 ≤ s →
  seek_of (Some s)
  = Some (512 + 512 * (s / 512) + (if s mod 512 =? 0 then 0 else 512)).
Proof.
  intros Hs. unfold seek_of. cbn [mbind option_bind].
  by rewrite Z.quot_div_nonneg, Z.rem_mod_nonneg by lia.
Qed.

Lemma read_header_size buffer off h :
  read_header buffer off = Some h →
  _readNumber buffer (off + 124) 12 = Some (hd_size h).
Proof.
  unfold read_header. intros H.
  repeat match type of H with
  | mbind _ ?o = _ =>
      destruct o; cbn [mbind option_bind] in H; [|discriminate H]
  end.
  by injection H as <-.
Qed.

Lemma read_header_code buffer off h :
  read_header buffer off = Some h →
  ∃ s, _readString buffer (off + 156) (Some 1) = Some s
       ∧ hd_code h = if bool_decide (s = []) then str "0" else s.
Proof.
  unfold read_header. intros H.
  repeat match type of H with
  | mbind _ ?o = _ =>
      lazymatch o with
      | fmap _ (_readString _ (_ + 156) _) => fail
      | _ => destruct o; cbn [mbind option_bind] in H; [|discriminate H]
      end
  end.
  destruct (_readString buffer (off + 156) (Some 1)) as [s|];
    cbn [fmap option_fmap option_map mbind option_bind] in H; [|discriminate H].
  injection H as <-. eauto.
Qed.

(** The uid and gid of a header are [parseInt] of their fields with no
    radix given. *)
Lemma read_header_uid_gid buffer off h :
  read_header buffer off = Some h →
  ∃ u g, _readString buffer (off + 108) (Some 8) = Some u
         ∧ _readString buffer (off + 116) (Some 8) = Some g
         ∧ hd_uid h = parseInt u 0 ∧ hd_gid h = parseInt g 0.
Proof.
  unfold read_header. intros H.
  destruct (_readString buffer off (Some 100)) as [name|];
    cbn [mbind option_bind] in H; [|discriminate H].
  destruct (trim <$> _readString buffer (off + 100) (Some 8)) as [mode|];
    cbn [mbind option_bind] in H; [|discriminate H].
  destruct (_readString buffer (off + 108) (Some 8)) as [u|];
    cbn [fmap option_fmap option_map mbind option_bind] in H; [|discriminate H].
  destruct (_readString buffer (off + 116) (Some 8)) as [g|];
    cbn [fmap option_fmap option_map mbind option_bind] in H; [|discriminate H].
  repeat match type of H with
  | mbind _ ?o = _ =>
      destruct o; cbn [mbind option_bind] in H; [|discriminate H]
  end.
  injection H as <-. by exists u, g.
Qed.

(** The loop stops, without reading, at a cursor with 512 bytes or fewer
    after it. *)
Lemma parseTar_loop_last_block fuel buffer opts st off :
  offset st = Some off →
  Z.of_nat (length buffer) - 512 ≤ off →
  parseTar_loop (S fuel) buffer opts st = Ok (files st).
Proof.
  intros Hoff Hlast. cbn [parseTar_loop]. rewrite Hoff.
  by destruct (Z.ltb_spec off (Z.of_nat (length buffer) - 512)); [lia|].
Qed.

Lemma view_single (buffer : list byte) i b v :
  sublist_lookup i 1 buffer = Some v → buffer !! i = Some b → v = [b].
Proof.
  intros Hv Hb. apply sublist_lookup_Some' in Hv as [-> _].
  rewrite <- (take_drop_middle buffer i b Hb).
  rewrite drop_app_length'; [done|].
  rewrite length_take. apply lookup_lt_Some in Hb. lia.
Qed.

Lemma _readString_nul buffer off s :
  _readString buffer (off + 156) (Some 1) = Some s →
  buffer !! Z.to_nat (off + 156) = Some Byte.x00 →
  s = [].
Proof.
  unfold _readString, Uint8Array_new, ToIndex. intros H Hb.
  destruct (Z.ltb_spec (off + 156) 0);
    cbn [mbind option_bind] in H; [discriminate H|].
  change (1 <? 0) with false in H. cbn [mbind option_bind] in H.
  change (Z.to_nat 1) with 1%nat in H.
  destruct (sublist_lookup (Z.to_nat (off + 156)) 1 buffer) as [v|] eqn:Hv;
    cbn [mbind option_bind] in H; [|discriminate H].
  rewrite (view_single _ _ _ _ Hv Hb) in H. by injection H as <-.
Qed.

(** C9. A header whose type byte is NUL is given the type code "0" and
    decoded as a "file": the pass through the loop that reads it classifies
    it so, treats it as an ordinary entry (it clears the pending extended
    header), and every entry it appends has type "file". *)
Theorem nul_type_is_file buffer opts off st st' :
  parseTar_body buffer opts off st = Some (Continue st') →
  buffer !! Z.to_nat (off + 156) = Some Byte.x00 →
  ∃ h, read_header buffer off = Some h
       ∧ hd_code h = str "0"
       ∧ hd_type h = str "file"
       ∧ nextExtendedHeader st' = None
       ∧ (∀ e, files st' = files st ++ [e] →
               meta_type (entry_meta e) = str "file")
       ∧ (opt_filter opts = None →
          ∃ e, files st' = files st ++ [e]
               ∧ meta_type (entry_meta e) = str "file").
Proof.
  intros Hbody Hnul. apply parseTar_body_step in Hbody.
  assert (∀ h, read_header buffer off = Some h →
               hd_code h = str "0" ∧ hd_type h = str "file") as Hfile.
  { intros h Hh. destruct (read_header_code _ _ _ Hh) as (s & Hs & Hcode).
    rewrite (_readString_nul _ _ _ Hs Hnul) in Hcode.
    unfold hd_type. rewrite Hcode. done. }
  inversion Hbody as [|h data Hh _ Hty|h data Hh _ Hty|h path Hh _ _ Hgnu
                      |h user group name entries Hh _ _ _ Hustar Hemit];
    subst; destruct (Hfile h Hh) as [Hcode Htype].
  - rewrite Htype in Hty. discriminate Hty.
  - rewrite Htype in Hty. discriminate Hty.
  - rewrite Htype in Hgnu. discriminate Hgnu.
  - exists h. repeat split; try done.
    + intros e He. cbn [after files] in He.
      by rewrite (emit_new_entry _ _ _ _ _ _ e Hemit He).
    + intros Hf. cbn [after files].
      apply emit_cases in Hemit as Hcases.
      unfold emit in Hemit. rewrite Hf in Hemit.
      destruct Hcases as [->|[->|[data ->]]].
      * destruct (opt_metaOnly opts); [|destruct (if bool_decide _ then _ else _)];
          cbn [mbind option_bind] in Hemit; try discriminate Hemit;
          injection Hemit as Hemit; apply (f_equal length) in Hemit;
          rewrite length_app in Hemit; simpl in Hemit; lia.
      * by eexists.
      * by eexists.
Qed.

(** The hypotheses of C9 hold for a header made of a name followed by NULs:
    the pass appends an entry of type "file". *)
Lemma nul_type_is_file_witness :
  parseTar_body bare_buffer no_opts 0 initial_state
  = Some (Continue (step_from bare_buffer no_opts 0 initial_state))
  ∧ bare_buffer !! Z.to_nat (0 + 156) = Some Byte.x00
  ∧ ∃ e, files (step_from bare_buffer no_opts 0 initial_state)
         = files initial_state ++ [e]
         ∧ meta_type (entry_meta e) = str "file".
Proof.
  assert (parseTar_body bare_buffer no_opts 0 initial_state
          = Some (Continue (step_from bare_buffer no_opts 0 initial_state)))
    as H1 by (vm_compute; reflexivity).
  assert (bare_buffer !! Z.to_nat (0 + 156) = Some Byte.x00)
    as H2 by (vm_compute; reflexivity).
  split; [exact H1|]. split; [exact H2|].
  destruct (nul_type_is_file _ _ _ _ _ H1 H2) as (h & _ & _ & _ & _ & _ & H).
  exact (H eq_refl).
Defined.

Lemma read_ustar_prefix buffer off name user group name' prefix :
  read_ustar buffer off name = Some (user, group, name') →
  _readString buffer (off + 257) (Some 6) = Some (str "ustar") →
  _readString buffer (off + 345) (Some 155) = Some prefix →
  prefix ≠ [] →
  name' = join_prefix prefix name.
Proof.
  unfold read_ustar. intros H Hmagic Hprefix Hne.
  rewrite Hmagic in H. cbn [mbind option_bind] in H.
  rewrite bool_decide_eq_true_2 in H by done.
  destruct (_readString buffer (off + 265) (Some 32)) as [u|];
    cbn [mbind option_bind] in H; [|discriminate H].
  destruct (_readString buffer (off + 297) (Some 32)) as [g|];
    cbn [mbind option_bind] in H; [|discriminate H].
  rewrite Hprefix in H. cbn [mbind option_bind] in H.
  rewrite bool_decide_eq_false_2 in H by done.
  by injection H as _ _ <-.
Qed.

Lemma startsWith_slash name :
  startsWith name (str "/") = true → name = str "/" ++ drop 1 name.
Proof.
  unfold startsWith. intros H. apply bool_decide_eq_true in H.
  change (length (str "/")) with 1%nat in H.
  rewrite <- H at 1. by rewrite take_drop.
Qed.

(** The two rules of the specification for the prefix, on its examples. *)
Example join_prefix_examples :
  join_prefix (str "a/b/") (str "/c.txt") = str "a/b/c.txt"
  ∧ join_prefix (str "a/b") (str "c.txt") = str "a/b/c.txt".
Proof. split; reflexivity. Qed.

(** C7. When the magic field reads "ustar" and the prefix field is not
    empty, the name of the decoded entry is the prefix joined with the name
    (the name field, or the long name of a pending extended header): the
    leading slash of the name is dropped when the prefix ends with a slash
    and the name starts with one, the two are concatenated when exactly one
    of these holds, and a slash is inserted when neither holds. *)
Theorem ustar_prefix_join buffer opts off st st' prefix e :
  parseTar_body buffer opts off st = Some (Continue st') →
  _readString buffer (off + 257) (Some 6) = Some (str "ustar") →
  _readString buffer (off + 345) (Some 155) = Some prefix →
  prefix ≠ [] →
  files st' = files st ++ [e] →
  ∃ h, read_header buffer off = Some h ∧
    let name := hd_name (nextExtendedHeader st) h in
    let joined := meta_name (entry_meta e) in
    (endsWith prefix (str "/") = true → startsWith name (str "/") = true →
       ∃ rest, name = str "/" ++ rest ∧ joined = prefix ++ rest)
    ∧ (xorb (endsWith prefix (str "/")) (startsWith name (str "/")) = true →
       joined = prefix ++ name)
    ∧ (endsWith prefix (str "/") = false → startsWith name (str "/") = false →
       joined = prefix ++ str "/" ++ name).
Proof.
  intros Hbody Hmagic Hprefix Hne He. apply parseTar_body_step in Hbody.
  inversion Hbody as [|h data Hh _ Hty|h data Hh _ Hty|h path Hh _ _ Hgnu
                      |h user group name entries Hh _ _ _ Hustar Hemit];
    subst; cbn [after files] in He.
  1-3: apply (f_equal length) in He; rewrite length_app in He; simpl in He; lia.
  exists h. split; [done|]. cbn zeta.
  rewrite (emit_new_entry _ _ _ _ _ _ e Hemit He). cbn [make_meta meta_name].
  rewrite (read_ustar_prefix _ _ _ _ _ _ _ Hustar Hmagic Hprefix Hne).
  unfold join_prefix.
  destruct (endsWith prefix (str "/")), (startsWith (hd_name _ h) (str "/")) eqn:Hs;
    cbn [andb orb xorb]; repeat split; try done.
  intros _ _. exists (drop 1 (hd_name (nextExtendedHeader st) h)).
  split; [|done]. by apply startsWith_slash.
Qed.

(** The hypotheses of C7 hold for the prefix [a/b/] and the name [/c.txt]:
    the decoded name is [a/b/c.txt]. *)
Lemma ustar_prefix_join_witness :
  let st' := step_from ustar_buffer no_opts 0 initial_state in
  parseTar_body ustar_buffer no_opts 0 initial_state = Some (Continue st')
  ∧ _readString ustar_buffer (0 + 257) (Some 6) = Some (str "ustar")
  ∧ _readString ustar_buffer (0 + 345) (Some 155) = Some (str "a/b/")
  ∧ str "a/b/" ≠ []
  ∧ files st' = files initial_state ++ [last_entry st']
  ∧ meta_name (entry_meta (last_entry st')) = str "a/b/c.txt".
Proof.
  cbn zeta.
  set (st' := step_from ustar_buffer no_opts 0 initial_state).
  assert (parseTar_body ustar_buffer no_opts 0 initial_state = Some (Continue st'))
    as H1 by (vm_compute; reflexivity).
  assert (_readString ustar_buffer (0 + 257) (Some 6) = Some (str "ustar"))
    as H2 by (vm_compute; reflexivity).
  assert (_readString ustar_buffer (0 + 345) (Some 155) = Some (str "a/b/"))
    as H3 by (vm_compute; reflexivity).
  assert (str "a/b/" ≠ []) as H4 by discriminate.
  assert (files st' = files initial_state ++ [last_entry st'])
    as H5 by (vm_compute; reflexivity).
  split; [exact H1|]. split; [exact H2|]. split; [exact H3|].
  split; [exact H4|]. split; [exact H5|].
  destruct (ustar_prefix_join _ _ _ _ _ _ _ H1 H2 H3 H4 H5)
    as (h & Hh & Hboth & _ & _).
  assert (read_header ustar_buffer 0
          = Some {| hd_raw_name := str "/c.txt"; hd_mode := []; hd_uid := None;
                    hd_gid := None; hd_size := None; hd_mtime := None;
                    hd_code := str "0" |}) as Hh' by (vm_compute; reflexivity).
  rewrite Hh' in Hh. injection Hh as <-.
  destruct (Hboth eq_refl eq_refl) as (rest & Hrest & ->).
  cbn [hd_name initial_state nextExtendedHeader hd_raw_name] in Hrest.
  injection Hrest as <-. reflexivity.
Defined.

Lemma lookup_spread {V} (a b : gmap (list byte) V) k :
  spread a b !! k = match b !! k with Some v => Some v | None => a !! k end.
Proof.
  unfold spread. rewrite lookup_union.
  by destruct (b !! k), (a !! k).
Qed.

Lemma explicit_attrs_keys mode uid gid mtime user group k :
  is_Some (explicit_attrs mode uid gid mtime user group !! k)
  ↔ k ∈ [str "mode"; str "uid"; str "gid"; str "mtime"; str "user"; str "group"].
Proof.
  unfold explicit_attrs. cbn [list_to_map foldr uncurry].
  rewrite !lookup_insert_is_Some', lookup_empty, !elem_of_cons, elem_of_nil.
  split.
  - intros [?|[?|[?|[?|[?|[?|[? ?]]]]]]]; auto 10; done.
  - intros [?|[?|[?|[?|[?|[?|[]]]]]]]; auto 10.
Qed.

Lemma is_extended_global : is_extended (str "globalExtendedHeader") = true.
Proof. reflexivity. Qed.

Lemma is_gnu_long_global : is_gnu_long (str "globalExtendedHeader") = false.
Proof. reflexivity. Qed.

Lemma explicit_attrs_lookup mode uid gid mtime user group :
  let explicit := explicit_attrs mode uid gid mtime user group in
  explicit !! str "mode" = Some (JString mode)
  ∧ explicit !! str "uid" = Some (JNumber uid)
  ∧ explicit !! str "gid" = Some (JNumber gid)
  ∧ explicit !! str "mtime" = Some (JNumber mtime)
  ∧ explicit !! str "user" = Some (of_header user)
  ∧ explicit !! str "group" = Some (of_header group).
Proof.
  cbn zeta. unfold explicit_attrs. cbn [list_to_map foldr uncurry].
  repeat split;
    repeat first [ rewrite lookup_insert_eq; reflexivity
                 | rewrite lookup_insert_ne by (intros E; discriminate E) ].
Qed.

(** The fields of a header, each with the read that gives it. *)
Lemma read_header_fields buffer off h :
  read_header buffer off = Some h →
  ∃ mode uid gid,
    _readString buffer off (Some 100) = Some (hd_raw_name h)
    ∧ _readString buffer (off + 100) (Some 8) = Some mode
    ∧ _readString buffer (off + 108) (Some 8) = Some uid
    ∧ _readString buffer (off + 116) (Some 8) = Some gid
    ∧ _readNumber buffer (off + 124) 12 = Some (hd_size h)
    ∧ _readNumber buffer (off + 136) 12 = Some (hd_mtime h)
    ∧ hd_mode h = trim mode
    ∧ hd_uid h = parseInt uid 0
    ∧ hd_gid h = parseInt gid 0.
Proof.
  unfold read_header. intros H.
  destruct (_readString buffer off (Some 100%Z)) as [name|];
    cbn [mbind option_bind] in H; [|discriminate H].
  destruct (_readString buffer (off + 100) (Some 8%Z)) as [mode|];
    cbn [fmap option_fmap option_map mbind option_bind] in H; [|discriminate H].
  destruct (_readString buffer (off + 108) (Some 8%Z)) as [uid|];
    cbn [fmap option_fmap option_map mbind option_bind] in H; [|discriminate H].
  destruct (_readString buffer (off + 116) (Some 8%Z)) as [gid|];
    cbn [fmap option_fmap option_map mbind option_bind] in H; [|discriminate H].
  destruct (_readNumber buffer (off + 124) 12) as [size|];
    cbn [mbind option_bind] in H; [|discriminate H].
  destruct (_readNumber buffer (off + 136) 12) as [mtime|];
    cbn [mbind option_bind] in H; [|discriminate H].
  destruct (_readString buffer (off + 156) (Some 1%Z)) as [code|];
    cbn [fmap option_fmap option_map mbind option_bind] in H; [|discriminate H].
  injection H as <-. cbn [hd_raw_name hd_mode hd_uid hd_gid hd_size hd_mtime].
  exists mode, uid, gid. by repeat split.
Qed.

(** The USTAR fields, each with the read that gives it. *)
Lemma read_ustar_fields buffer off name user group name' :
  read_ustar buffer off name = Some (user, group, name') →
  ∃ magic,
    _readString buffer (off + 257) (Some 6) = Some magic
    ∧ (magic = str "ustar" →
       ∃ u g prefix,
         _readString buffer (off + 265) (Some 32) = Some u
         ∧ _readString buffer (off + 297) (Some 32) = Some g
         ∧ _readString buffer (off + 345) (Some 155) = Some prefix
         ∧ user = Some u ∧ group = Some g
         ∧ name' = if bool_decide (prefix = []) then name
                   else join_prefix prefix name)
    ∧ (magic ≠ str "ustar" → user = None ∧ group = None ∧ name' = name).
Proof.
  unfold read_ustar. intros H.
  destruct (_readString buffer (off + 257) (Some 6%Z)) as [magic|];
    cbn [mbind option_bind] in H; [|discriminate H].
  exists magic. split; [done|].
  case_bool_decide as Hm.
  - destruct (_readString buffer (off + 265) (Some 32%Z)) as [u|];
      cbn [mbind option_bind] in H; [|discriminate H].
    destruct (_readString buffer (off + 297) (Some 32%Z)) as [g|];
      cbn [mbind option_bind] in H; [|discriminate H].
    destruct (_readString buffer (off + 345) (Some 155%Z)) as [prefix|];
      cbn [mbind option_bind] in H; [|discriminate H].
    apply (inj Some) in H.
    assert (user = Some u ∧ group = Some g
            ∧ name' = if bool_decide (prefix = []) then name
                      else join_prefix prefix name) as (-> & -> & ->).
    { by inversion H. }
    split; [|done]. intros _. by exists u, g, prefix.
  - apply (inj Some) in H.
    assert (user = None ∧ group = None ∧ name' = name) as (-> & -> & ->)
      by (by inversion H).
    split; [done|]. done.
Qed.

(** C5. In one pass through the loop over a header [h], with [g] the global
    and [n] the pending extended header:
    - the [attrs] of an entry the pass appends hold, under the keys mode,
      uid, gid, mtime, user and group, what the pass reads from the header
      (the mode trimmed, uid and gid parsed, user and group undefined
      unless the magic is "ustar"), whatever [n] and [g] hold for these
      keys; under any other key they hold the value of [n], and where [n]
      has none the value of [g];
    - a header that is not itself an extension header leaves no pending
      header behind and the global header unchanged;
    - an extended header for the next entry appends no entry, leaves the
      global header as it is, and makes its parsed payload the pending
      header;
    - a global extended header appends no entry, clears the pending header,
      and merges its keys over the earlier global keys;
    - a GNU long name header appends no entry, leaves the global header as
      it is, and makes its payload the [path] of the pending header;
    - with no pending header the name of an appended entry is the name
      field, joined with the USTAR prefix if there is one, whatever [g]
      holds. *)
Theorem extended_header_precedence buffer opts off st st' :
  parseTar_body buffer opts off st = Some (Continue st') →
  ∃ h, read_header buffer off = Some h ∧
    let g := headers_or_empty (globalExtendedHeader st) in
    let n := headers_or_empty (nextExtendedHeader st) in
    (∀ e, files st' = files st ++ [e] →
       let a := meta_attrs (entry_meta e) in
       ∃ mode uid gid mtime magic,
         _readString buffer (off + 100) (Some 8) = Some mode
         ∧ _readString buffer (off + 108) (Some 8) = Some uid
         ∧ _readString buffer (off + 116) (Some 8) = Some gid
         ∧ _readNumber buffer (off + 136) 12 = Some mtime
         ∧ _readString buffer (off + 257) (Some 6) = Some magic
         ∧ a !! str "mode" = Some (JString (trim mode))
         ∧ a !! str "uid" = Some (JNumber (parseInt uid 0))
         ∧ a !! str "gid" = Some (JNumber (parseInt gid 0))
         ∧ a !! str "mtime" = Some (JNumber mtime)
         ∧ (magic = str "ustar" →
            ∃ user group,
              _readString buffer (off + 265) (Some 32) = Some user
              ∧ _readString buffer (off + 297) (Some 32) = Some group
              ∧ a !! str "user" = Some (JString user)
              ∧ a !! str "group" = Some (JString group))
         ∧ (magic ≠ str "ustar" →
            a !! str "user" = Some JUndefined
            ∧ a !! str "group" = Some JUndefined)
         ∧ (∀ k, k ∉ [str "mode"; str "uid"; str "gid"; str "mtime";
                      str "user"; str "group"] →
                 a !! k = match n !! k with
                          | Some v => Some (of_header v)
                          | None => of_header <$> g !! k
                          end)
         ∧ nextExtendedHeader st' = None
         ∧ globalExtendedHeader st' = globalExtendedHeader st)
    ∧ (is_extended (hd_type h) = false → is_gnu_long (hd_type h) = false →
       nextExtendedHeader st' = None
       ∧ globalExtendedHeader st' = globalExtendedHeader st)
    ∧ (hd_type h = str "extendedHeader" →
       files st' = files st
       ∧ globalExtendedHeader st' = globalExtendedHeader st
       ∧ ∃ data,
           Uint8Array_new buffer (off + 512) (hd_size h) = Some data
           ∧ nextExtendedHeader st' = Some (_parseExtendedHeaders data))
    ∧ (hd_type h = str "globalExtendedHeader" →
       nextExtendedHeader st' = None ∧ files st' = files st
       ∧ ∃ data,
           Uint8Array_new buffer (off + 512) (hd_size h) = Some data
           ∧ ∀ k, headers_or_empty (globalExtendedHeader st') !! k =
                    match _parseExtendedHeaders data !! k with
                    | Some v => Some v
                    | None => g !! k
                    end)
    ∧ (is_gnu_long (hd_type h) = true →
       files st' = files st
       ∧ globalExtendedHeader st' = globalExtendedHeader st
       ∧ ∃ path,
           _readString buffer (off + 512) (hd_size h) = Some path
           ∧ nextExtendedHeader st' = Some {[ str "path" := Some path ]})
    ∧ (∀ e, files st' = files st ++ [e] → nextExtendedHeader st = None →
         _readString buffer off (Some 100) = Some (hd_raw_name h)
         ∧ (meta_name (entry_meta e) = hd_raw_name h
            ∨ ∃ prefix,
                prefix ≠ []
                ∧ _readString buffer (off + 257) (Some 6) = Some (str "ustar")
                ∧ _readString buffer (off + 345) (Some 155) = Some prefix
                ∧ meta_name (entry_meta e)
                  = join_prefix prefix (hd_raw_name h))).
Proof.
  intros Hbody. apply parseTar_body_step in Hbody.
  assert (∀ (l : list Entry) e, l = l ++ [e] → False) as Hgrow.
  { intros l e He. apply (f_equal length) in He.
    rewrite length_app in He. simpl in He. lia. }
  inversion Hbody as [|h data Hh _ Hty|h data Hh _ Hty|h path Hh _ Hext Hgnu
                      |h user group name entries Hh _ Hext Hgnu Hustar Hemit];
    subst; exists h; (split; [done|]); cbn zeta; cbn [after files
      nextExtendedHeader globalExtendedHeader].
  - (* an extended header *)
    split; [|split; [|split; [|split; [|split]]]].
    + intros e He. destruct (Hgrow _ _ He).
    + rewrite Hty. intros [=].
    + intros _. split; [done|]. split; [done|]. by exists data.
    + rewrite Hty. intros [=].
    + rewrite Hty. intros [=].
    + intros e He. destruct (Hgrow _ _ He).
  - (* a global extended header *)
    split; [|split; [|split; [|split; [|split]]]].
    + intros e He. destruct (Hgrow _ _ He).
    + rewrite Hty, is_extended_global. intros [=].
    + rewrite Hty. intros [=].
    + intros _. split; [done|]. split; [done|]. exists data. split; [done|].
      intros k. cbn [headers_or_empty default from_option id].
      apply lookup_spread.
    + rewrite Hty, is_gnu_long_global. intros [=].
    + intros e He. destruct (Hgrow _ _ He).
  - (* a GNU long name *)
    split; [|split; [|split; [|split; [|split]]]].
    + intros e He. destruct (Hgrow _ _ He).
    + rewrite Hgnu. intros _ [=].
    + intros Hty. rewrite Hty in Hext. discriminate Hext.
    + intros Hty. rewrite Hty, is_gnu_long_global in Hgnu. discriminate Hgnu.
    + intros _. split; [done|]. split; [done|]. by exists path.
    + intros e He. destruct (Hgrow _ _ He).
  - (* an ordinary entry *)
    destruct (read_header_fields _ _ _ Hh)
      as (mode & uid & gid & Hname & Hmode & Huid & Hgid & _ & Hmtime
          & Emode & Euid & Egid).
    destruct (read_ustar_fields _ _ _ _ _ _ Hustar)
      as (magic & Hmagic & Hyes & Hno).
    pose proof (explicit_attrs_lookup (hd_mode h) (hd_uid h) (hd_gid h)
                  (hd_mtime h) user group) as Hexp. cbn zeta in Hexp.
    destruct Hexp as (Xmode & Xuid & Xgid & Xmtime & Xuser & Xgroup).
    split; [|split; [|split; [|split; [|split]]]].
    + intros e He. rewrite (emit_new_entry _ _ _ _ _ _ e Hemit He).
      exists mode, uid, gid, (hd_mtime h), magic.
      cbn [make_meta meta_attrs].
      split; [done|]. split; [done|]. split; [done|]. split; [done|].
      split; [done|].
      split; [by rewrite lookup_spread, Xmode, Emode|].
      split; [by rewrite lookup_spread, Xuid, Euid|].
      split; [by rewrite lookup_spread, Xgid, Egid|].
      split; [by rewrite lookup_spread, Xmtime|].
      split; [|split; [|split; [|done]]].
      * intros Hm.
        destruct (Hyes Hm) as (u & g & prefix & Hu & Hg & _ & -> & -> & _).
        exists u, g. split; [done|]. split; [done|].
        split; [by rewrite lookup_spread, Xuser|by rewrite lookup_spread, Xgroup].
      * intros Hm. destruct (Hno Hm) as (-> & -> & _).
        split; [by rewrite lookup_spread, Xuser|by rewrite lookup_spread, Xgroup].
      * intros k Hk. rewrite !lookup_spread, !lookup_fmap.
        destruct (explicit_attrs (hd_mode h) (hd_uid h) (hd_gid h) (hd_mtime h)
                    user group !! k) as [v|] eqn:Ek.
        { exfalso. apply Hk.
          apply (proj1 (explicit_attrs_keys (hd_mode h) (hd_uid h) (hd_gid h)
                         (hd_mtime h) user group k)).
          rewrite Ek. eauto. }
        by destruct (headers_or_empty (nextExtendedHeader st) !! k).
    + done.
    + intros Hty. rewrite Hty in Hext. discriminate Hext.
    + intros Hty. rewrite Hty, is_extended_global in Hext. discriminate Hext.
    + rewrite Hgnu. intros [=].
    + intros e He Hnext. rewrite (emit_new_entry _ _ _ _ _ _ e Hemit He).
      cbn [make_meta meta_name]. split; [done|].
      rewrite Hnext in Hustar, Hyes, Hno. cbn [hd_name] in Hyes, Hno.
      destruct (decide (magic = str "ustar")) as [Hm|Hm].
      * destruct (Hyes Hm) as (u & g & prefix & _ & _ & Hp & _ & _ & ->).
        case_bool_decide as Hpe; [by left|].
        right. exists prefix. subst magic. done.
      * destruct (Hno Hm) as (_ & _ & ->). by left.
Qed.

(** The hypothesis of C5 holds for the first header of [sample_archive] read
    with a pending header [path=N, mode=777] and a global header [path=G,
    comment=c]: the entry has the [mode] of its header field, [path] from
    the pending header and [comment] from the global one, and the pending
    header is cleared. *)
Lemma extended_header_precedence_witness :
  let st' := step_from sample_archive no_opts 0 pending_state in
  parseTar_body sample_archive no_opts 0 pending_state = Some (Continue st')
  ∧ files st' = files pending_state ++ [last_entry st']
  ∧ meta_attrs (entry_meta (last_entry st')) !! str "mode"
    = Some (JString (str "0000664"))
  ∧ meta_attrs (entry_meta (last_entry st')) !! str "path"
    = Some (JString (str "N"))
  ∧ meta_attrs (entry_meta (last_entry st')) !! str "comment"
    = Some (JString (str "c"))
  ∧ nextExtendedHeader st' = None
  ∧ globalExtendedHeader st' = globalExtendedHeader pending_state.
Proof.
  cbn zeta.
  set (st' := step_from sample_archive no_opts 0 pending_state).
  assert (parseTar_body sample_archive no_opts 0 pending_state = Some (Continue st'))
    as H1 by (vm_compute; reflexivity).
  assert (files st' = files pending_state ++ [last_entry st'])
    as H2 by (vm_compute; reflexivity).
  split; [exact H1|]. split; [exact H2|].
  destruct (extended_header_precedence _ _ _ _ _ H1)
    as (h & Hh & Hattrs & _).
  destruct (Hattrs _ H2)
    as (mode & uid & gid & mtime & magic & Hmode & _ & _ & _ & _ & Hamode
        & _ & _ & _ & _ & _ & Hk & Hnext & Hglobal).
  assert (_readString sample_archive (0 + 100) (Some 8) = Some (str "0000664"))
    as Hmode' by (vm_compute; reflexivity).
  assert (mode = str "0000664") as Emode.
  { apply (inj Some). rewrite <- Hmode. exact Hmode'. }
  split; [|split; [|split; [|split]]].
  - rewrite Hamode, Emode. vm_compute. reflexivity.
  - rewrite (Hk (str "path")); [vm_compute; reflexivity|].
    apply (bool_decide_unpack _). vm_compute. reflexivity.
  - rewrite (Hk (str "comment")); [vm_compute; reflexivity|].
    apply (bool_decide_unpack _). vm_compute. reflexivity.
  - exact Hnext.
  - exact Hglobal.
Defined.

Lemma spec_seek_nat (n : nat) :
  spec_seek (Z.of_nat n) = Z.of_nat (512 + payload_blocks n).
Proof.
  pose proof (seek_of_nat n) as H. rewrite seek_of_floor in H by lia.
  by injection H.
Qed.

Lemma Some_pair_snd {A B} (a a' : A) (b b' : B) :
  Some (a, b) = Some (a', b') → b = b'.
Proof. congruence. Qed.

Lemma write_file_offset opts now file buffer off buffer' off' :
  write_file opts now file (buffer, off) = Some (buffer', off') →
  off' = match nf_data file with
         | Some _ => (off + (512 + payload_blocks (nf_size file)))%nat
         | None => (off + 512)%nat
         end.
Proof.
  unfold write_file. intros H.
  repeat match type of H with
  | mbind _ ?o = _ =>
      destruct o; cbn [mbind option_bind] in H; [|discriminate H]
  end.
  destruct (nf_data file); [|by apply Some_pair_snd in H].
  match type of H with
  | mbind _ ?o = _ =>
      destruct o; cbn [mbind option_bind] in H; [|discriminate H]
  end.
  apply Some_pair_snd in H as <-. unfold payload_blocks.
  destruct (nf_size file mod 512 =? 0)%nat; lia.
Qed.

Lemma Uint8Array_new_length buffer off s v :
  Uint8Array_new buffer off (Some s) = Some v → 0 ≤ s.
Proof.
  unfold Uint8Array_new, ToIndex. intros H.
  destruct (off <? 0); cbn [mbind option_bind] in H; [discriminate H|].
  destruct (Z.ltb_spec s 0); cbn [mbind option_bind] in H; [discriminate H|].
  done.
Qed.

(** An entry pushed with its payload has a size that is not negative: the
    view of a payload of negative length raises. *)
Lemma emit_file_entry_size buffer opts off meta entries m d s :
  emit buffer opts off meta entries = Some (entries ++ [FileEntry m d]) →
  meta_size meta = Some s → 0 ≤ s.
Proof.
  unfold emit. intros H Hs. rewrite Hs in H.
  destruct (match opt_filter opts with Some f => negb (f meta) | None => false end).
  { apply (inj Some), (f_equal length) in H. rewrite length_app in H.
    simpl in H. lia. }
  destruct (opt_metaOnly opts).
  { apply (inj Some), app_inv_head in H. discriminate H. }
  destruct (bool_decide (Some s = Some 0)) eqn:E.
  - apply bool_decide_eq_true in E. injection E as ->. done.
  - destruct (Uint8Array_new buffer (off + 512) (Some s)) as [v|] eqn:Hv;
      cbn [fmap option_fmap option_map mbind option_bind] in H; [|discriminate H].
    by eapply Uint8Array_new_length.
Qed.

(** C6. Decoder: for a pass over a header whose size field holds [s], when
    the pass appends an entry with its payload, or when [s] is not negative,
    the cursor after the pass is [off + seek] with [seek] as the
    specification gives it, and [s] is the size of any entry the pass
    appends.  Encoder: writing an entry moves the write offset by the same
    distance, which keeps it a multiple of 512 and leaves room for the
    payload and less than a block of padding. *)
Theorem seek_block_alignment buffer popts off st st' h s
    copts now f wbuffer woff wbuffer' woff' :
  parseTar_body buffer popts off st = Some (Continue st') →
  read_header buffer off = Some h →
  hd_size h = Some s →
  (∃ m d, files st' = files st ++ [FileEntry m d]) ∨ 0 ≤ s →
  write_file copts now (normalize f) (wbuffer, woff) = Some (wbuffer', woff') →
  (offset st' = Some (off + spec_seek s)
   ∧ ∀ e, files st' = files st ++ [e] → meta_size (entry_meta e) = Some s)
  ∧ (let size := nf_size (normalize f) in
     Z.of_nat woff' = Z.of_nat woff + spec_seek (Z.of_nat size)
     ∧ ((woff mod 512 = 0)%nat → (woff' mod 512 = 0)%nat)
     ∧ (woff + 512 + size ≤ woff' < woff + 512 + size + 512)%nat).
Proof.
  intros Hbody Hh Hs Hpos Hwrite. split.
  - apply parseTar_body_step in Hbody.
    destruct (decode_step_continue _ _ _ _ _ Hbody) as (h' & Hh' & _ & Hoff).
    rewrite Hh in Hh'. injection Hh' as <-.
    assert (∀ e, files st' = files st ++ [e] →
                 ∃ meta, entry_meta e = meta ∧ meta_size meta = Some s
                         ∧ emit buffer popts off meta (files st) = Some (files st'))
      as Hnew.
    { intros e He.
      inversion Hbody as [|h1 data Hh1 _ Hty|h1 data Hh1 _ Hty|h1 path Hh1 _ _ Hgnu
                          |h1 user group name entries Hh1 _ _ _ Hustar Hemit];
        subst; cbn [after files] in He |- *.
      1-3: apply (f_equal length) in He; rewrite length_app in He; simpl in He; lia.
      rewrite Hh in Hh1. injection Hh1 as <-.
      exists (make_meta st h user group name). split; [|split; [exact Hs|exact Hemit]].
      by apply (emit_new_entry _ _ _ _ _ _ e Hemit He). }
    assert (0 ≤ s) as Hs0.
    { destruct Hpos as [(m & d & He)|]; [|done].
      destruct (Hnew _ He) as (meta & _ & Hms & Hemit).
      rewrite He in Hemit. by eapply emit_file_entry_size. }
    split.
    + rewrite Hoff, Hs, seek_of_floor by done. reflexivity.
    + intros e He. destruct (Hnew e He) as (meta & <- & Hms & _). exact Hms.
  - cbn zeta. apply write_file_offset in Hwrite.
    pose proof (payload_blocks_bounds (nf_size (normalize f))) as [Hb Hm].
    rewrite spec_seek_nat.
    assert (woff' = (woff + (512 + payload_blocks (nf_size (normalize f))))%nat) as ->.
    { rewrite Hwrite. unfold normalize. cbn [nf_data nf_size].
      by destruct (_normalizeData (file_data f)). }
    split; [lia|]. split; [|lia].
    intros Hal.
    rewrite Nat.add_assoc, <- Nat.Div0.add_mod_idemp_r, Hm, Nat.add_0_r.
    rewrite <- Nat.Div0.add_mod_idemp_l, Hal. reflexivity.
Qed.

(** The hypotheses of C6 hold for the first entry of [sample_archive], of 8
    bytes, read and written at offset 0. *)
Lemma seek_block_alignment_witness :
  let st' := step_from sample_archive no_opts 0 initial_state in
  parseTar_body sample_archive no_opts 0 initial_state = Some (Continue st')
  ∧ read_header sample_archive 0 = Some sample_header
  ∧ hd_size sample_header = Some 8
  ∧ ((∃ m d, files st' = files initial_state ++ [FileEntry m d]) ∨ 0 ≤ 8)
  ∧ write_file sample_opts (sample_clock 0%nat) (normalize sample_file)
      (zeros 1024, 0%nat) = Some (sample_written.1, sample_written.2)
  ∧ offset st' = Some (0 + spec_seek 8)
  ∧ Z.of_nat sample_written.2
    = Z.of_nat 0 + spec_seek (Z.of_nat (nf_size (normalize sample_file))).
Proof.
  cbn zeta.
  set (st' := step_from sample_archive no_opts 0 initial_state).
  assert (parseTar_body sample_archive no_opts 0 initial_state = Some (Continue st'))
    as H1 by (vm_compute; reflexivity).
  assert (read_header sample_archive 0 = Some sample_header)
    as H2 by (vm_compute; reflexivity).
  assert (hd_size sample_header = Some 8) as H3 by reflexivity.
  assert ((∃ m d, files st' = files initial_state ++ [FileEntry m d]) ∨ 0 ≤ 8)
    as H4 by (right; lia).
  assert (write_file sample_opts (sample_clock 0%nat) (normalize sample_file)
            (zeros 1024, 0%nat) = Some (sample_written.1, sample_written.2))
    as H5 by (vm_compute; reflexivity).
  split; [exact H1|]. split; [exact H2|]. split; [exact H3|].
  split; [exact H4|]. split; [exact H5|].
  destruct (seek_block_alignment _ _ _ _ _ _ _ _ _ _ _ _ _ _ H1 H2 H3 H4 H5)
    as [[Hoff _] [Hw _]].
  split; [exact Hoff|exact Hw].
Defined.

(** C6 fails for a record of negative size: with [metaOnly] the header of
    [negative_size_archive], whose size field reads -1, is decoded into a
    record of size -1 and the cursor advances from 0 to 1024, where the
    formula gives 512. *)
Lemma seek_negative_size_counterexample :
  read_header negative_size_archive 0 ≫= hd_size = Some (-1)
  ∧ parseTar_body negative_size_archive
      {| opt_filter := None; opt_metaOnly := true |} 0 initial_state
    = Some (Continue {| offset := Some 1024; nextExtendedHeader := None;
                        globalExtendedHeader := None;
                        files := [MetaEntry negative_size_meta] |})
  ∧ parseTar 2 negative_size_archive
      {| opt_filter := None; opt_metaOnly := true |}
    = Ok [MetaEntry negative_size_meta]
  ∧ 0 + spec_seek (-1) = 512.
Proof. repeat split; vm_compute; reflexivity. Qed.

(** * The encoder *)

Lemma attr_mtime_clock opts file now1 now2 :
  has_mtime opts file →
  attr attr_mtime (normalize file) opts now1
  = attr attr_mtime (normalize file) opts now2.
Proof.
  unfold has_mtime, attr. cbn [normalize nf_file].
  intros [[v Hv]|[v Hv]].
  - by rewrite Hv.
  - rewrite Hv. by destruct (file_attrs file ≫= attr_mtime).
Qed.

Lemma write_file_clock opts file now1 now2 st :
  has_mtime opts file →
  write_file opts now1 (normalize file) st
  = write_file opts now2 (normalize file) st.
Proof.
  intros H. unfold write_file.
  by rewrite (attr_mtime_clock opts file now1 now2 H).
Qed.

Lemma write_files_clock opts now1 now2 files :
  Forall (has_mtime opts) files →
  ∀ i st, write_files opts now1 i (normalize <$> files) st
          = write_files opts now2 i (normalize <$> files) st.
Proof.
  induction 1 as [|file files Hfile _ IH]; intros i st; [done|].
  rewrite fmap_cons. cbn [write_files].
  rewrite (write_file_clock opts file (now1 i) (now2 i) st Hfile).
  destruct (write_file opts (now2 i) (normalize file) st); [|done].
  cbn [mbind option_bind]. apply IH.
Qed.

(** C10. When every entry has an mtime, in its own attrs or in the defaults
    of the archive, the buffer does not depend on the clock: two calls on
    the same entries and options return the same bytes whatever [Date.now()]
    reads during each. *)
Theorem createTar_deterministic now1 now2 files opts :
  Forall (has_mtime opts) files →
  createTar now1 files opts = createTar now2 files opts.
Proof.
  intros H. unfold createTar.
  by rewrite (write_files_clock opts now1 now2 files H).
Qed.

(** The hypothesis of C10 holds for [sample_files] with a default mtime. *)
Lemma createTar_deterministic_witness :
  Forall (has_mtime mtime_opts) sample_files
  ∧ createTar (λ _, 0) sample_files mtime_opts
    = createTar (λ _, 1) sample_files mtime_opts.
Proof.
  assert (Forall (has_mtime mtime_opts) sample_files) as H1.
  { constructor; [left; by eexists|].
    constructor; [right; by eexists|]. constructor. }
  split; [exact H1|].
  exact (createTar_deterministic (λ _, 0) (λ _, 1) sample_files mtime_opts H1).
Defined.

(** The clock can change the buffer only when some entry has no mtime. *)
Corollary clock_needs_missing_mtime now1 now2 files opts :
  createTar now1 files opts ≠ createTar now2 files opts →
  Exists (λ file, ¬ has_mtime opts file) files.
Proof.
  intros Hne. apply not_Forall_Exists.
  - intros file. unfold has_mtime. apply _.
  - intros H. apply Hne. unfold createTar.
    by rewrite (write_files_clock opts now1 now2 files H).
Qed.

(** Without an mtime the clock shows in the buffer. *)
Lemma clock_shows_without_mtime :
  createTar (λ _, 0) sample_files sample_opts
  ≠ createTar (λ _, 1000) sample_files sample_opts.
Proof.
  intros H.
  assert ((createTar (λ _, 0) sample_files sample_opts
             ≫= λ b, _readNumber b (1024 + 136) 12) = Some (Some 0)) as H0
    by (vm_compute; reflexivity).
  assert ((createTar (λ _, 1000) sample_files sample_opts
             ≫= λ b, _readNumber b (1024 + 136) 12) = Some (Some 1)) as H1
    by (vm_compute; reflexivity).
  rewrite H, H1 in H0. discriminate H0.
Qed.

Lemma entry_blocks_app opts now i l1 l2 :
  entry_blocks opts now i (l1 ++ l2)
  = entry_blocks opts now i l1 ++ entry_blocks opts now (i + length l1) l2.
Proof.
  revert i. induction l1 as [|x l1 IH]; intros i.
  - cbn [app entry_blocks length]. by rewrite Nat.add_0_r.
  - cbn [app entry_blocks length]. rewrite IH, <- app_assoc.
    do 3 f_equal. lia.
Qed.

Lemma checksum_bound l : (checksum l ≤ 255 * N.of_nat (length l))%N.
Proof.
  unfold checksum. rewrite <- (N.add_0_l (255 * _)).
  generalize 0%N as acc. induction l as [|b l IH]; intros acc.
  - simpl. lia.
  - cbn [foldl length]. etransitivity; [apply IH|].
    pose proof (b2N_bounded b). lia.
Qed.

Lemma list_inserts_segment (segs : list (list byte)) k old new off :
  segs !! k = Some old → length new = length old →
  off = seg_offset segs k →
  list_inserts off new (concat segs) = concat (<[k:=new]> segs).
Proof.
  intros Hk Hlen ->.
  rewrite (concat_split segs k old Hk).
  rewrite (concat_insert segs k) by (by eapply lookup_lt_Some).
  apply list_inserts_middle; [|done].
  by rewrite length_concat_take.
Qed.

Lemma blank_checksum_final opts now file :
  blank_checksum (final_header opts now file) = blank_header opts now file.
Proof.
  unfold blank_checksum, final_header, blank_header, header_segments.
  rewrite (list_inserts_segment _ 6 (chksum_field opts now file)).
  - reflexivity.
  - reflexivity.
  - by rewrite length_chksum_field.
  - unfold seg_offset. cbn [take firstn fmap list_fmap sum_list sum_list_with].
    rewrite !length_field. reflexivity.
Qed.

(** A buffer returned by [createTar], cut at the header of entry [i]. *)
Lemma createTar_entry now files opts buffer i file :
  createTar now files opts = Some buffer →
  (normalize <$> files) !! i = Some file →
  ∃ pre post,
    buffer = pre ++ entry_block opts (now i) file ++ post
    ∧ length pre = header_offset (normalize <$> files) i
    ∧ post = entry_blocks opts now (S i) (drop (S i) (normalize <$> files))
             ++ zeros (bufSize (tarDataSize (normalize <$> files))
                       - tarDataSize (normalize <$> files)).
Proof.
  intros Hc Hi. rewrite createTar_layout in Hc. injection Hc as <-.
  set (fs := normalize <$> files) in *.
  pose proof (normalize_size_ok files) as Hok. fold fs in Hok.
  exists (entry_blocks opts now 0 (take i fs)). eexists.
  split; [|split; [|reflexivity]].
  - rewrite <- (take_drop_middle fs i file Hi) at 1.
    rewrite entry_blocks_app. cbn [entry_blocks].
    rewrite length_take_le by (apply lookup_lt_Some in Hi; lia).
    rewrite <- !app_assoc. cbn [Nat.add]. reflexivity.
  - apply length_entry_blocks. by apply Forall_take.
Qed.

(** The sum the code accumulates is the sum of the bytes as unsigned
    numbers. *)
Lemma checksum_sum l :
  checksum l = N.of_nat (sum_list_with (λ b, N.to_nat (Byte.to_N b)) l).
Proof.
  unfold checksum.
  assert (∀ acc, foldl (λ chksum b, chksum + b2N b)%N acc l
                 = (acc + N.of_nat (sum_list_with
                                      (λ b, N.to_nat (Byte.to_N b)) l))%N)
    as H; [|by rewrite H].
  induction l as [|b l IH]; intros acc.
  - simpl. lia.
  - cbn [foldl sum_list_with]. rewrite IH. unfold b2N. lia.
Qed.

(** C4. In the buffer [createTar] returns, the 512 bytes at the offset of
    entry [i] are its header (they begin with its name field), and the
    checksum field of that header, the 8 bytes at offset 148, read back as
    an octal number, is the sum of the 512 bytes of the header, each taken
    as an unsigned number, with the checksum field set to eight spaces. *)
Theorem createTar_checksum_valid now files opts buffer i file :
  createTar now files opts = Some buffer →
  (normalize <$> files) !! i = Some file →
  let off := header_offset (normalize <$> files) i in
  ∃ header,
    view buffer off 512 = Some header
    ∧ take 100 header = field (file_name (nf_file file)) 100
    ∧ _readNumber buffer (Z.of_nat off + 148) 8
      = Some (Some (Z.of_nat (sum_list_with (λ b, N.to_nat (Byte.to_N b))
                                (list_inserts 148 (replicate 8 " "%byte)
                                   header)))).
Proof.
  intros Hc Hi off.
  destruct (createTar_entry _ _ _ _ _ _ Hc Hi) as (pre & post & -> & Hpre & _).
  fold off in Hpre.
  exists (final_header opts (now i) file). split; [|split].
  - unfold entry_block. rewrite <- !app_assoc.
    apply view_middle; [done|]. by rewrite length_final_header.
  - unfold final_header, header_segments. cbn [concat].
    apply take_app_length'. by rewrite length_field.
  - fold (blank_checksum (final_header opts (now i) file)).
    rewrite <- (nat_N_Z (sum_list_with _ _)), <- checksum_sum.
    rewrite blank_checksum_final.
    unfold entry_block, final_header. rewrite <- !app_assoc.
    unfold header_segments at 1.
    rewrite <- Hpre.
    read_number 6%nat (Z.of_nat (length pre) + 148) 8.
    do 2 f_equal. unfold chksum_field.
    pose proof (checksum_bound (blank_header opts (now i) file)) as Hb.
    unfold blank_header in Hb at 2.
    rewrite length_header in Hb by apply length_field.
    destruct (Number_toString_digits
                (Z.of_N (checksum (blank_header opts (now i) file))) 8
                ltac:(simpl; lia) ltac:(lia)) as (ds & -> & Hds & Hlen).
    rewrite N2Z.id in Hds.
    by rewrite (octal_field_read _ _ _ Hds) by lia.
Qed.

(** The hypotheses of C4 hold for the second entry of [sample_archive], the
    directory, whose header is at offset 1024: its checksum field reads
    6207 in octal, 3207, the sum of its bytes. *)
Lemma createTar_checksum_valid_witness :
  createTar sample_clock sample_files sample_opts = Some sample_archive
  ∧ (normalize <$> sample_files) !! 1%nat = Some (normalize (sample_dir "d"))
  ∧ ∃ header,
      view sample_archive 1024 512 = Some header
      ∧ take 100 header = field (str "d") 100
      ∧ _readNumber sample_archive (Z.of_nat 1024 + 148) 8
        = Some (Some (Z.of_nat (sum_list_with (λ b, N.to_nat (Byte.to_N b))
                                  (list_inserts 148 (replicate 8 " "%byte)
                                     header))))
      ∧ sum_list_with (λ b, N.to_nat (Byte.to_N b))
          (list_inserts 148 (replicate 8 " "%byte) header) = 3207%nat.
Proof.
  split; [exact sample_archive_created|]. split; [reflexivity|].
  destruct (createTar_checksum_valid sample_clock sample_files sample_opts
              sample_archive 1 (normalize (sample_dir "d"))
              sample_archive_created eq_refl)
    as (header & Hview & Hname & Hread).
  exists header. split; [exact Hview|]. split; [exact Hname|].
  split; [exact Hread|].
  assert (_readNumber sample_archive (Z.of_nat 1024 + 148) 8
          = Some (Some 3207)) as Hval by (vm_compute; reflexivity).
  cbv zeta in Hread.
  change (header_offset (normalize <$> sample_files) 1) with 1024%nat in Hread.
  rewrite Hval in Hread.
  apply (inj Some), (inj Some) in Hread. lia.
Defined.

(** * Encoding then decoding *)

Lemma bufSize_gt t : (t mod 10240 ≠ 0)%nat → (t < bufSize t)%nat.
Proof.
  intros H. unfold bufSize.
  pose proof (Nat.div_mod_eq t 10240) as Hdm.
  pose proof (Nat.mod_upper_bound t 10240 ltac:(done)) as Hub.
  destruct (Nat.eqb_spec (t mod 10240) 0); lia.
Qed.

Lemma decodes_to_roundtrip file e :
  decodes_to (normalize file) e → roundtrip_entry file e.
Proof.
  intros (meta & data & -> & Hn & Ht & Hs & Hd).
  unfold roundtrip_entry, payload_of.
  cbn [entry_meta entry_payload normalize nf_file nf_data nf_size] in *.
  unfold payload in Hd. cbn [normalize nf_data] in Hd.
  repeat split.
  - done.
  - rewrite Ht. by destruct (file_data file).
  - rewrite Hs. by destruct (_normalizeData (file_data file)).
  - rewrite <- Hd. destruct data as [d|]; [done|].
    by destruct (_normalizeData (file_data file)).
Qed.

(** C1, as the code has it. For entries whose names are not empty, hold no
    NUL, do not begin with a byte-order mark and take at most 100 bytes,
    whose payloads are shorter than 8^12 bytes, and whose last header does
    not fill the last 512 bytes of the buffer: [createTar] returns a buffer,
    [parseTar] returns from it, and the entries it returns are as many as
    the input, each with the name, type, size and payload bytes of its
    input (an empty payload coming back as no data). *)
Theorem createTar_parseTar_roundtrip now files opts fuel :
  Forall (λ file, valid_name (file_name file)
                  ∧ Z.of_nat (length (payload_of file)) < 8 ^ 12) files →
  ¬ last_header_in_final_block files →
  (length files < fuel)%nat →
  ∃ buffer entries,
    createTar now files opts = Some buffer
    ∧ parseTar fuel buffer no_opts = Ok entries
    ∧ Forall2 roundtrip_entry files entries.
Proof.
  intros Hall Hlast Hfuel.
  set (fs := normalize <$> files).
  set (k := (bufSize (tarDataSize fs) - tarDataSize fs)%nat).
  assert (Forall entry_ok fs) as Hok.
  { apply Forall_fmap. eapply Forall_impl; [exact Hall|].
    intros file [Hname Hsize]. split; [done|]. split; [reflexivity|].
    unfold payload_of in Hsize. cbn [normalize nf_size].
    by destruct (_normalizeData (file_data file)). }
  assert (tail_ok fs k) as Htail.
  { destruct (decide (tarDataSize fs mod 10240 = 0)%nat) as [Hz|Hnz].
    - destruct (last files) as [file|] eqn:Hl.
      + right. right. exists (normalize file). split.
        * unfold fs. by rewrite fmap_last, Hl.
        * intros Hsz. apply Hlast. split; [done|]. exists file. split; [done|].
          unfold payload_of. cbn [normalize nf_size] in Hsz.
          destruct (_normalizeData (file_data file)) as [d|]; [|done].
          by apply nil_length_inv.
      + left. apply last_None in Hl. unfold fs. by rewrite Hl.
    - right. left. unfold k. pose proof (bufSize_gt _ Hnz). lia. }
  destruct (parseTar_loop_entries opts now fs 0%nat [] k initial_state fuel
              Hok Htail eq_refl eq_refl)
    as (entries & Hloop & Hdec).
  { unfold fs. by rewrite length_fmap. }
  exists (entry_blocks opts now 0 fs ++ zeros k), entries.
  split; [apply createTar_layout|]. split; [exact Hloop|].
  unfold fs in Hdec. rewrite Forall2_fmap_l in Hdec.
  eapply Forall2_impl; [exact Hdec|]. apply decodes_to_roundtrip.
Qed.

(** The hypotheses of the amended C1 hold for [sample_files]. *)
Lemma createTar_parseTar_roundtrip_witness :
  Forall (λ file, valid_name (file_name file)
                  ∧ Z.of_nat (length (payload_of file)) < 8 ^ 12) sample_files
  ∧ ¬ last_header_in_final_block sample_files
  ∧ (length sample_files < 3)%nat
  ∧ ∃ buffer entries,
      createTar sample_clock sample_files sample_opts = Some buffer
      ∧ parseTar 3 buffer no_opts = Ok entries
      ∧ Forall2 roundtrip_entry sample_files entries.
Proof.
  assert (Forall (λ file, valid_name (file_name file)
                          ∧ Z.of_nat (length (payload_of file)) < 8 ^ 12)
                 sample_files) as H1.
  { repeat constructor; try (by apply (bool_decide_unpack _); vm_compute). }
  assert (¬ last_header_in_final_block sample_files) as H2.
  { assert ((tarDataSize (normalize <$> sample_files) mod 10240)%nat = 1536%nat)
      as E by (vm_compute; reflexivity).
    intros [Hm _]. rewrite E in Hm. discriminate Hm. }
  assert (length sample_files < 3)%nat as H3 by (simpl; lia).
  split; [exact H1|]. split; [exact H2|]. split; [exact H3|].
  exact (createTar_parseTar_roundtrip sample_clock sample_files sample_opts 3
           H1 H2 H3).
Defined.

(** C1 fails as stated: an entry with an empty name (at most 100 bytes) is
    written by [createTar], and [parseTar] takes its header for the end of
    the archive and returns no entry for one put in. *)
Lemma roundtrip_empty_name_counterexample :
  (length (file_name (sample_dir "")) ≤ 100)%nat
  ∧ parseTar_createTar 2 sample_clock [sample_dir ""] sample_opts
    = Some (Ok []).
Proof. split; [vm_compute; lia|]. vm_compute. reflexivity. Qed.

(** * Defects, on concrete inputs *)

(** C2. The uid and gid fields are read with [parseInt] without a radix,
    hence in radix 10 (16 after "0x"), while size and mtime are read in
    radix 8: for an entry written with uid 1000 and gid 8 (fields "0001750"
    and "0000010") and 8 bytes of payload (size field "00000000010"),
    [parseTar] returns uid 1750 and gid 10, and size 8. *)
Theorem uid_gid_read_in_radix_10 :
  _readString sample_archive 108 (Some 8) = Some (str "0001750")
  ∧ _readString sample_archive 116 (Some 8) = Some (str "0000010")
  ∧ _readString sample_archive 124 (Some 12) = Some (str "00000000010")
  ∧ (meta ← first_meta (parseTar 3 sample_archive no_opts);
     Some (meta_attrs meta !! str "uid", meta_attrs meta !! str "gid",
           meta_size meta))
    = Some (Some (JNumber (Some 1750)), Some (JNumber (Some 10)), Some 8)
  ∧ parseInt (str "0001750") 8 = Some 1000
  ∧ parseInt (str "0000010") 8 = Some 8.
Proof.
  split; [vm_compute; reflexivity|]. split; [vm_compute; reflexivity|].
  split; [vm_compute; reflexivity|]. split; [vm_compute; reflexivity|].
  split; vm_compute; reflexivity.
Qed.

(** C3. The loop runs while [offset < byteLength - 512]: a header that
    starts exactly 512 bytes before the end of the buffer is not decoded.
    For twenty directories [createTar] returns 10240 bytes, the header of
    the last one (named "last") is at offset 9728, and [parseTar] returns
    the other nineteen. *)
Theorem final_block_header_skipped :
  length <$> createTar sample_clock twenty_dirs sample_opts = Some 10240%nat
  ∧ (buffer ← createTar sample_clock twenty_dirs sample_opts;
     _readString buffer 9728 (Some 100)) = Some (str "last")
  ∧ (parseTar_createTar 21 sample_clock twenty_dirs sample_opts
       ≫= result_names) = Some (replicate 19 (str "d")).
Proof.
  split; [vm_compute; reflexivity|].
  split; vm_compute; reflexivity.
Qed.

(** C8. A record is cut at every space and every "=": of the text after
    the first space only the part up to the next space is used, and of that
    only the part between the first and the second "=" is the value. *)
Theorem pax_value_cut_at_space_and_equals :
  _parseExtendedHeaders (str "20 path=my file.txt" ++ [Byte.x0a])
    !! str "path" = Some (Some (str "my"))
  ∧ _parseExtendedHeaders (str "18 comment=a=b" ++ [Byte.x0a])
      !! str "comment" = Some (Some (str "a")).
Proof. split; vm_compute; reflexivity. Qed.

(** * Further properties of the code *)

(** ** Fields: strings and numbers written and read *)

(** A string of ASCII characters is well-formed UTF-8. *)
Lemma utf8_valid_ascii s : Forall is_ascii s → utf8_valid s = true.
Proof.
  induction 1 as [|b s Hb _ IH]; [done|].
  cbn [utf8_valid]. unfold byte_in.
  unfold is_ascii in Hb.
  destruct (N.leb_spec 0 (b2N b)); [|lia].
  destruct (N.leb_spec (b2N b) 127); [|lia].
  exact IH.
Qed.

Lemma Uint8Array_new_is_Some buffer off n :
  is_Some (Uint8Array_new buffer off (Some n))
  ↔ 0 ≤ off ∧ 0 ≤ n ∧ off + n ≤ Z.of_nat (length buffer).
Proof.
  unfold Uint8Array_new, ToIndex.
  destruct (Z.ltb_spec off 0) as [Ho|Ho]; cbn [mbind option_bind].
  { split; [intros [? [=]]|lia]. }
  destruct (Z.ltb_spec n 0) as [Hn|Hn]; cbn [mbind option_bind].
  { split; [intros [? [=]]|lia]. }
  unfold sublist_lookup. case_guard as Hg; cbn [mbind option_bind].
  - split; [lia|eauto].
  - split; [intros [? [=]]|lia].
Qed.

Lemma Uint8Array_new_NaN_is_Some buffer off :
  is_Some (Uint8Array_new buffer off NaN)
  ↔ 0 ≤ off ≤ Z.of_nat (length buffer).
Proof.
  unfold Uint8Array_new, ToIndex.
  destruct (Z.ltb_spec off 0) as [Ho|Ho]; cbn [mbind option_bind].
  { split; [intros [? [=]]|lia]. }
  unfold sublist_lookup. case_guard as Hg; cbn [mbind option_bind].
  - split; [lia|eauto].
  - split; [intros [? [=]]|lia].
Qed.

Lemma _readString_Uint8Array buffer off size :
  is_Some (_readString buffer off size)
  ↔ is_Some (Uint8Array_new buffer off size).
Proof.
  unfold _readString.
  destruct (Uint8Array_new buffer off size); cbn [mbind option_bind].
  - split; eauto.
  - done.
Qed.

Lemma _readString_fits buffer off :
  ∀ n, 0 ≤ off ∧ 0 ≤ n ∧ off + n ≤ Z.of_nat (length buffer)
       → is_Some (_readString buffer off (Some n)).
Proof.
  intros n H. rewrite _readString_Uint8Array. by apply Uint8Array_new_is_Some.
Qed.

(** X1. [_readString] returns exactly when the field lies inside the buffer:
    a negative offset or size, or a field that runs past the end, raises the
    RangeError of the view; a size that is NaN is a field of no bytes. *)
Theorem _readString_in_range buffer off :
  (∀ n, is_Some (_readString buffer off (Some n))
        ↔ 0 ≤ off ∧ 0 ≤ n ∧ off + n ≤ Z.of_nat (length buffer))
  ∧ (is_Some (_readString buffer off NaN)
     ↔ 0 ≤ off ≤ Z.of_nat (length buffer)).
Proof.
  split; [intros n|].
  - rewrite _readString_Uint8Array. apply Uint8Array_new_is_Some.
  - rewrite _readString_Uint8Array. apply Uint8Array_new_NaN_is_Some.
Qed.



Lemma TextDecoder_decode_suffix l : TextDecoder_decode l `suffix_of` l.
Proof.
  unfold TextDecoder_decode. case_bool_decide.
  - apply suffix_drop.
  - done.
Qed.

(** Ill-formed: a byte that starts no sequence, an overlong form, a
    surrogate, a sequence cut short; well-formed: the euro sign. *)
Lemma utf8_valid_examples :
  utf8_valid [Byte.xff] = false
  ∧ utf8_valid [Byte.xc0; Byte.x80] = false
  ∧ utf8_valid [Byte.xed; Byte.xa0; Byte.x80] = false
  ∧ utf8_valid [Byte.xe2; Byte.x82] = false
  ∧ utf8_valid [Byte.xe2; Byte.x82; Byte.xac] = true.
Proof. repeat split; vm_compute; reflexivity. Qed.



Local Open Scope nat_scope.

Lemma buffer_split (buffer : list byte) off size :
  off + size ≤ length buffer →
  buffer = take off buffer ++ take size (drop off buffer)
           ++ drop (off + size) buffer
  ∧ length (take off buffer) = off
  ∧ length (take size (drop off buffer)) = size.
Proof.
  intros H. split; [|split].
  - rewrite <- drop_drop, take_drop, take_drop. done.
  - rewrite length_take. lia.
  - rewrite length_take, length_drop. lia.
Qed.

Lemma view_is_Some (buffer : list byte) off size :
  is_Some (view buffer off size) ↔ off + size ≤ length buffer.
Proof.
  unfold view, sublist_lookup. case_guard; cbn [mbind option_bind].
  - split; eauto.
  - split; [intros [? [=]]|lia].
Qed.

(** The buffer after a write, cut at the field. *)
Lemma _writeString_split buffer s off size buffer' :
  _writeString buffer s off size = Some buffer' →
  off + size ≤ length buffer
  ∧ buffer' = take off buffer ++ field s size ++ drop (off + size) buffer.
Proof.
  intros H.
  assert (off + size ≤ length buffer) as Hfit.
  { apply view_is_Some. unfold _writeString in H.
    destruct (view buffer off size); [eauto|discriminate H]. }
  split; [done|].
  destruct (buffer_split buffer off size Hfit) as (Hb & Hl1 & Hl2).
  rewrite Hb in H.
  rewrite (_writeString_middle _ _ _ s off size) in H by done.
  by injection H as <-.
Qed.

(** X3. [_writeString] raises exactly when the field does not fit the
    buffer. When it returns, the buffer keeps its length, the field holds
    the characters that fit followed by NULs, and no byte outside the field
    has changed, however long the string is. *)
Theorem _writeString_frame buffer s off size :
  (is_Some (_writeString buffer s off size) ↔ off + size ≤ length buffer)
  ∧ ∀ buffer', _writeString buffer s off size = Some buffer' →
      length buffer' = length buffer
      ∧ view buffer' off size = Some (field s size)
      ∧ ∀ i, i < off ∨ off + size ≤ i → buffer' !! i = buffer !! i.
Proof.
  split.
  - split.
    + intros [b Hb]. by apply _writeString_split in Hb as [? _].
    + intros Hfit.
      destruct (buffer_split buffer off size Hfit) as (Hb & Hl1 & Hl2).
      rewrite Hb. rewrite (_writeString_middle _ _ _ s off size) by done.
      eauto.
  - intros buffer' H. apply _writeString_split in H as [Hfit ->].
    split; [|split].
    + rewrite !length_app, length_take, length_field, length_drop. lia.
    + apply view_middle; [rewrite length_take; lia|by rewrite length_field].
    + intros i [Hi|Hi].
      * rewrite lookup_app_l by (rewrite length_take; lia).
        by rewrite lookup_take_lt.
      * rewrite lookup_app_r by (rewrite length_take; lia).
        rewrite lookup_app_r by (rewrite length_take, length_field; lia).
        rewrite lookup_drop, length_take, length_field. f_equal. lia.
Qed.

Lemma _readString_split (pre x post : list byte) z n :
  z = Z.of_nat (length pre) → n = Z.of_nat (length x) →
  _readString (pre ++ x ++ post) z (Some n)
  = Some (TextDecoder_decode (cstring x)).
Proof.
  intros -> ->. unfold _readString.
  rewrite (Uint8Array_new_view _ _ _ (length pre) (length x)) by done.
  rewrite view_middle by done. done.
Qed.

Lemma _readNumber_split (pre x post : list byte) z n :
  z = Z.of_nat (length pre) → n = Z.of_nat (length x) →
  _readNumber (pre ++ x ++ post) z n
  = Some (parseInt (concat (String_fromCodePoint <$> x)) 8).
Proof.
  intros -> ->. unfold _readNumber.
  rewrite (Uint8Array_new_view _ _ _ (length pre) (length x)) by done.
  rewrite view_middle by done. done.
Qed.

Lemma _writeString_read buffer s off size buffer' :
  _writeString buffer s off size = Some buffer' →
  _readString buffer' (Z.of_nat off) (Some (Z.of_nat size))
  = Some (TextDecoder_decode (cstring (field s size)))
  ∧ _readNumber buffer' (Z.of_nat off) (Z.of_nat size)
    = Some (parseInt (concat (String_fromCodePoint <$> field s size)) 8).
Proof.
  intros H. apply _writeString_split in H as [Hfit ->].
  assert (off = length (take off buffer)) as Hoff
    by (rewrite length_take; lia).
  split; [apply _readString_split|apply _readNumber_split];
    rewrite ?length_field; congruence.
Qed.

(** X4. A string without NUL that fits the field and does not start with a
    byte-order mark is read back as it was written. *)
Theorem _writeString_readString buffer s off size buffer' :
  _writeString buffer s off size = Some buffer' →
  Byte.x00 ∉ s → take 3 s ≠ BOM → length s ≤ size →
  _readString buffer' (Z.of_nat off) (Some (Z.of_nat size)) = Some s.
Proof.
  intros H Hnul Hbom Hlen.
  destruct (_writeString_read _ _ _ _ _ H) as [-> _].
  rewrite cstring_field by done.
  by rewrite TextDecoder_decode_no_BOM.
Qed.

(** "ab" written in four bytes at offset 2 of eight NULs and read back. *)
Lemma _writeString_readString_witness :
  _writeString (zeros 8) (str "ab") 2 4 = Some (zeros 2 ++ str "ab" ++ zeros 4)
  ∧ (Byte.x00 ∉ str "ab") ∧ take 3 (str "ab") ≠ BOM
  ∧ (length (str "ab") ≤ 4)%nat
  ∧ _readString (zeros 2 ++ str "ab" ++ zeros 4)
      (Z.of_nat 2) (Some (Z.of_nat 4)) = Some (str "ab").
Proof.
  assert (_writeString (zeros 8) (str "ab") 2 4
          = Some (zeros 2 ++ str "ab" ++ zeros 4)) as H1
    by (vm_compute; reflexivity).
  assert (Byte.x00 ∉ str "ab") as H2
    by (apply (bool_decide_unpack _); vm_compute; exact I).
  assert (take 3 (str "ab") ≠ BOM) as H3 by discriminate.
  assert (length (str "ab") ≤ 4)%nat as H4 by (simpl; lia).
  split; [exact H1|]. split; [exact H2|]. split; [exact H3|].
  split; [exact H4|].
  exact (_writeString_readString _ _ _ _ _ H1 H2 H3 H4).
Defined.

Lemma fit_boundary_ascii s k : Forall is_ascii s → fit_boundary s k = k.
Proof.
  intros Hs. destruct k as [|k]; [done|]. cbn [fit_boundary].
  destruct (s !! S k) as [b|] eqn:E; [|done].
  assert (is_ascii b) as Hb
    by (eapply (proj1 (Forall_lookup _ _) Hs); exact E).
  unfold is_continuation. unfold is_ascii in Hb.
  destruct (N.leb_spec 128 (b2N b)); [lia|]. done.
Qed.

Lemma encodeInto_ascii s size :
  Forall is_ascii s → encodeInto s size = take size s.
Proof.
  intros Hs. unfold encodeInto. case_decide.
  - by rewrite take_ge.
  - by rewrite fit_boundary_ascii.
Qed.

Lemma ascii_no_BOM s : Forall is_ascii s → take 3 s ≠ BOM.
Proof.
  intros Hs Hb. destruct s as [|b s]; [discriminate Hb|].
  apply Forall_cons in Hs as [Hb0 _].
  injection Hb as -> _. vm_compute in Hb0. discriminate Hb0.
Qed.

Lemma ascii_field_read s size :
  Forall is_ascii s → Byte.x00 ∉ s →
  TextDecoder_decode (cstring (field s size)) = take size s.
Proof.
  intros Hs Hnul.
  assert (field s size = field (take size s) size) as ->.
  { unfold field. rewrite !encodeInto_ascii by (try apply Forall_take; done).
    by rewrite take_take, Nat.min_id. }
  rewrite cstring_field.
  - rewrite TextDecoder_decode_no_BOM; [done|].
    apply ascii_no_BOM. by apply Forall_take.
  - intros Hin. apply elem_of_take in Hin as (i & Hi & _).
    apply Hnul. apply list_elem_of_lookup. eauto.
  - rewrite length_take. lia.
Qed.

(** X5. A string of ASCII characters without NUL is cut to the size of the
    field: what is read back is its first [size] bytes, and all of it when
    it fits. *)
Theorem _writeString_truncates buffer s off size buffer' :
  _writeString buffer s off size = Some buffer' →
  Forall is_ascii s → Byte.x00 ∉ s →
  _readString buffer' (Z.of_nat off) (Some (Z.of_nat size))
  = Some (take size s).
Proof.
  intros H Hs Hnul.
  destruct (_writeString_read _ _ _ _ _ H) as [-> _].
  by rewrite ascii_field_read.
Qed.

(** "abcdef" written in four bytes is read back as "abcd". *)
Lemma _writeString_truncates_witness :
  _writeString (zeros 8) (str "abcdef") 2 4
  = Some (zeros 2 ++ str "abcd" ++ zeros 2)
  ∧ Forall is_ascii (str "abcdef") ∧ (Byte.x00 ∉ str "abcdef")
  ∧ _readString (zeros 2 ++ str "abcd" ++ zeros 2)
      (Z.of_nat 2) (Some (Z.of_nat 4)) = Some (take 4 (str "abcdef")).
Proof.
  assert (_writeString (zeros 8) (str "abcdef") 2 4
          = Some (zeros 2 ++ str "abcd" ++ zeros 2)) as H1
    by (vm_compute; reflexivity).
  assert (Forall is_ascii (str "abcdef")) as H2
    by (apply (bool_decide_unpack _); vm_compute; exact I).
  assert (Byte.x00 ∉ str "abcdef") as H3
    by (apply (bool_decide_unpack _); vm_compute; exact I).
  split; [exact H1|]. split; [exact H2|]. split; [exact H3|].
  exact (_writeString_truncates _ _ _ _ _ H1 H2 H3).
Defined.

(** X6. A number from 0 to 8^12 - 1 written as the encoder writes a size or
    an mtime (octal digits padded to 11 in a field of 12 bytes) is read back
    by [_readNumber]. *)
Theorem octal_field_roundtrip buffer (n : Z) off buffer' :
  (0 ≤ n < 8 ^ 12)%Z →
  _writeString buffer (_leftPad (Number_toString n 8) 11) off 12
  = Some buffer' →
  _readNumber buffer' (Z.of_nat off) 12 = Some (Some n).
Proof.
  intros Hn H.
  destruct (_writeString_read _ _ _ _ _ H) as [_ Hr].
  change (Z.of_nat 12) with 12%Z in Hr. rewrite Hr.
  by rewrite size_field_read.
Qed.

(** The number 1000 written in a field of twelve NULs and read back. *)
Lemma octal_field_roundtrip_witness :
  (0 ≤ 1000 < 8 ^ 12)%Z
  ∧ _writeString (zeros 12) (_leftPad (Number_toString 1000 8) 11) 0 12
    = Some (str "00000001750" ++ zeros 1)
  ∧ _readNumber (str "00000001750" ++ zeros 1) (Z.of_nat 0) 12
    = Some (Some 1000%Z).
Proof.
  assert (0 ≤ 1000 < 8 ^ 12)%Z as H1 by (simpl; lia).
  assert (_writeString (zeros 12) (_leftPad (Number_toString 1000 8) 11) 0 12
          = Some (str "00000001750" ++ zeros 1)) as H2
    by (vm_compute; reflexivity).
  split; [exact H1|]. split; [exact H2|].
  exact (octal_field_roundtrip _ _ _ _ H1 H2).
Defined.

(** ** Extended header records *)

Local Open Scope Z_scope.

Lemma split_no_sep sep s : sep ∉ s → split sep s = [s].
Proof.
  induction s as [|b s IH]; intros Hs; [done|].
  apply not_elem_of_cons in Hs as [Hb Hs].
  cbn [split]. rewrite decide_False by done. by rewrite IH.
Qed.

Lemma split_app sep s t :
  sep ∉ s → split sep (s ++ sep :: t) = s :: split sep t.
Proof.
  induction s as [|b s IH]; intros Hs.
  - cbn [app split]. by rewrite decide_True.
  - apply not_elem_of_cons in Hs as [Hb Hs].
    cbn [app split]. rewrite decide_False by done. by rewrite IH.
Qed.

Lemma split_Forall (P : byte → Prop) sep s :
  Forall P s → Forall (Forall P) (split sep s).
Proof.
  induction s as [|b s IH]; intros Hs.
  - repeat constructor.
  - apply Forall_cons in Hs as [Hb Hs]. specialize (IH Hs).
    cbn [split]. case_decide.
    + by constructor.
    + destruct (split sep s) as [|w ws].
      * repeat constructor. done.
      * apply Forall_cons in IH as [Hw Hws].
        constructor; [by constructor|done].
Qed.

Lemma pax_line_no_newline r : pax_plain r → Byte.x0a ∉ pax_line r.
Proof.
  intros (_ & Hl & _ & _ & Hk & _ & _ & _ & Hv & _). unfold pax_line.
  rewrite not_elem_of_app, not_elem_of_cons, not_elem_of_app,
    not_elem_of_cons.
  repeat split; try done.
Qed.

Lemma split_pax_payload rs :
  Forall pax_plain rs →
  split Byte.x0a (pax_payload rs) = (pax_line <$> rs) ++ [[]].
Proof.
  unfold pax_payload. induction rs as [|r rs IH]; intros Hrs; [done|].
  apply Forall_cons in Hrs as [Hr Hrs].
  rewrite fmap_cons. cbn [concat]. rewrite <- app_assoc. cbn [app].
  rewrite split_app by (by apply pax_line_no_newline).
  rewrite IH by done. done.
Qed.

Lemma pax_payload_no_BOM rs :
  Forall pax_plain rs → TextDecoder_decode (pax_payload rs) = pax_payload rs.
Proof.
  intros Hrs. apply TextDecoder_decode_no_BOM.
  destruct rs as [|r rs]; [done|].
  apply Forall_cons in Hrs as [(Hsp & _ & Hbom & _) _].
  unfold pax_payload. rewrite fmap_cons. cbn [concat]. unfold pax_line.
  rewrite <- !app_assoc.
  destruct (pax_length r) as [|a [|b [|c l]]]; intros H; simpl in H;
    try discriminate H.
  apply Hbom. exact H.
Qed.

Lemma pax_line_parsed r headers :
  pax_plain r →
  match split " " (pax_line r) !! 1%nat with
  | Some kv =>
      let s := split "=" kv in
      set_property (default [] (s !! 0%nat)) (s !! 1%nat) headers
  | None => headers
  end = <[pax_key r := Some (pax_value r)]> headers.
Proof.
  intros (Hl & _ & _ & Hk & _ & Hke & Hproto & Hv & _ & Hve).
  unfold pax_line.
  rewrite split_app by done.
  rewrite split_no_sep.
  2:{ rewrite not_elem_of_app, not_elem_of_cons. repeat split; done. }
  cbn [lookup list_lookup].
  rewrite split_app by done. rewrite split_no_sep by done.
  cbn [lookup list_lookup default]. unfold set_property.
  by rewrite decide_False.
Qed.

(** X7. The records of a payload that is well-formed UTF-8 and whose parts
    hold no separator are all assigned, in order, whatever their length
    fields say: a later record replaces an earlier one with the same
    keyword. *)
Theorem _parseExtendedHeaders_records rs :
  Forall pax_plain rs →
  utf8_valid (pax_payload rs) = true →
  _parseExtendedHeaders (pax_payload rs) = pax_headers rs.
Proof.
  intros Hrs _. unfold _parseExtendedHeaders, pax_headers.
  rewrite pax_payload_no_BOM, split_pax_payload by done.
  rewrite foldl_app. cbn [foldl lookup list_lookup split].
  generalize (∅ : Headers) as headers.
  induction Hrs as [|r rs Hr Hrs IH]; intros headers; [done|].
  rewrite fmap_cons. cbn [foldl].
  rewrite pax_line_parsed by done. apply IH.
Qed.

(** The records [sample_records]: the second [path] replaces the first. *)
Lemma _parseExtendedHeaders_records_witness :
  Forall pax_plain sample_records
  ∧ utf8_valid (pax_payload sample_records) = true
  ∧ _parseExtendedHeaders (pax_payload sample_records)
    = pax_headers sample_records
  ∧ pax_headers sample_records !! str "path" = Some (Some (str "b")).
Proof.
  assert (Forall pax_plain sample_records) as H
    by (apply (bool_decide_unpack _); vm_compute; exact I).
  assert (utf8_valid (pax_payload sample_records) = true) as H'
    by (vm_compute; reflexivity).
  split; [exact H|]. split; [exact H'|].
  split; [exact (_parseExtendedHeaders_records sample_records H H')|].
  vm_compute. reflexivity.
Defined.

Lemma foldl_id {A B} (f : A → B → A) (a : A) (l : list B) :
  Forall (λ b, ∀ a, f a b = a) l → foldl f a l = a.
Proof.
  intros H. revert a. induction H as [|b l Hb _ IH]; intros a; [done|].
  cbn [foldl]. by rewrite Hb.
Qed.

(** X8. A payload without any space sets no keyword: a line that has no
    second word is skipped. *)
Theorem _parseExtendedHeaders_no_space data :
  " "%byte ∉ data → _parseExtendedHeaders data = ∅.
Proof.
  intros Hsp. unfold _parseExtendedHeaders. apply foldl_id.
  assert (Forall (λ b, b ≠ " "%byte) (TextDecoder_decode data)) as Hd.
  { apply Forall_forall. intros b Hb ->. apply Hsp.
    destruct (TextDecoder_decode_suffix data) as [k ->].
    apply elem_of_app. by right. }
  apply (split_Forall _ Byte.x0a) in Hd.
  eapply Forall_impl; [exact Hd|].
  intros line Hline headers.
  rewrite split_no_sep; [done|].
  intros Hin. by apply (proj1 (Forall_forall _ _) Hline " "%byte Hin).
Qed.

(** A payload without a space sets nothing. *)
Lemma _parseExtendedHeaders_no_space_witness :
  (" "%byte ∉ str "path=a")
  ∧ _parseExtendedHeaders (str "path=a") = ∅.
Proof.
  assert (" "%byte ∉ str "path=a") as H
    by (apply (bool_decide_unpack _); vm_compute; exact I).
  split; [exact H|].
  exact (_parseExtendedHeaders_no_space _ H).
Defined.

(** ** One pass of the decode loop, from its header *)

Lemma parseTar_body_pass buffer opts off st h :
  read_header buffer off = Some h →
  parseTar_body buffer opts off st = pass buffer opts off st h.
Proof.
  intros H. unfold read_header in H.
  destruct (_readString buffer off (Some 100%Z)) as [name|] eqn:Ename;
    cbn [mbind option_bind] in H; [|discriminate H].
  destruct (trim <$> _readString buffer (off + 100) (Some 8%Z)) as [mode|] eqn:Emode;
    cbn [mbind option_bind] in H; [|discriminate H].
  destruct ((λ s, parseInt s 0) <$> _readString buffer (off + 108) (Some 8%Z))
    as [uid|] eqn:Euid; cbn [mbind option_bind] in H; [|discriminate H].
  destruct ((λ s, parseInt s 0) <$> _readString buffer (off + 116) (Some 8%Z))
    as [gid|] eqn:Egid; cbn [mbind option_bind] in H; [|discriminate H].
  destruct (_readNumber buffer (off + 124) 12) as [size|] eqn:Esize;
    cbn [mbind option_bind] in H; [|discriminate H].
  destruct (_readNumber buffer (off + 136) 12) as [mtime|] eqn:Emtime;
    cbn [mbind option_bind] in H; [|discriminate H].
  destruct ((λ s, if bool_decide (s = []) then str "0" else s)
              <$> _readString buffer (off + 156) (Some 1%Z))
    as [code|] eqn:Ecode; cbn [mbind option_bind] in H; [|discriminate H].
  injection H as <-.
  unfold parseTar_body, pass.
  rewrite Ename. cbn [mbind option_bind hd_raw_name].
  destruct (bool_decide (name = [])); [done|].
  rewrite Emode. cbn [mbind option_bind].
  rewrite Euid. cbn [mbind option_bind].
  rewrite Egid. cbn [mbind option_bind].
  rewrite Esize. cbn [mbind option_bind].
  rewrite Emtime. cbn [mbind option_bind].
  rewrite Ecode. cbn [mbind option_bind].
  unfold hd_type. cbn [hd_code hd_size].
  destruct (is_extended (default code (assoc code tarItemTypeMap))).
  { destruct (Uint8Array_new buffer (off + 512) size); [|done].
    cbn [mbind option_bind]. by destruct (bool_decide _). }
  destruct (is_gnu_long (default code (assoc code tarItemTypeMap))).
  { by destruct (_readString buffer (off + 512) size). }
  unfold read_ustar, hd_name. cbn [hd_raw_name].
  destruct (_readString buffer (off + 257) (Some 6%Z)) as [ustar|]; [|done].
  cbn [mbind option_bind].
  destruct (bool_decide (ustar = str "ustar")).
  - destruct (_readString buffer (off + 265) (Some 32%Z)) as [user|]; [|done].
    cbn [mbind option_bind].
    destruct (_readString buffer (off + 297) (Some 32%Z)) as [group|]; [|done].
    cbn [mbind option_bind].
    destruct (_readString buffer (off + 345) (Some 155%Z)) as [prefix|]; [|done].
    cbn [mbind option_bind].
    unfold emit, make_meta, hd_type. cbn [meta_size hd_size hd_code hd_mode hd_uid hd_gid hd_mtime].
    destruct (match opt_filter opts with Some f => _ | None => false end); [done|].
    destruct (opt_metaOnly opts); [done|].
    by destruct (if bool_decide (size = Some 0) then _ else _).
  - cbn [mbind option_bind].
    unfold emit, make_meta, hd_type. cbn [meta_size hd_size hd_code hd_mode hd_uid hd_gid hd_mtime].
    destruct (match opt_filter opts with Some f => _ | None => false end); [done|].
    destruct (opt_metaOnly opts); [done|].
    by destruct (if bool_decide (size = Some 0) then _ else _).
Qed.

(** Inside the loop the fixed fields of the header lie in the buffer. *)
Lemma read_header_is_Some buffer off :
  0 ≤ off → off + 157 ≤ Z.of_nat (length buffer) →
  is_Some (read_header buffer off).
Proof.
  intros H0 Hlen. unfold read_header.
  assert (∀ o n, 0 ≤ o → 0 ≤ n → off + o + n ≤ off + 157 →
                 is_Some (_readString buffer (off + o) (Some n))) as Hs.
  { intros o n Ho Hn Hfit. apply _readString_fits. lia. }
  assert (∀ o n, 0 ≤ o → 0 ≤ n → off + o + n ≤ off + 157 →
                 is_Some (_readNumber buffer (off + o) n)) as Hn.
  { intros o n Ho Hn Hfit. unfold _readNumber.
    destruct (proj2 (Uint8Array_new_is_Some buffer (off + o) n)) as [v ->];
      [lia|]. by eexists. }
  destruct (Hs 0 100) as [name Ename]; [lia..|].
  rewrite Z.add_0_r in Ename. rewrite Ename. cbn [mbind option_bind].
  destruct (Hs 100 8) as [? ->]; [lia..|]. cbn [fmap option_fmap option_map mbind option_bind].
  destruct (Hs 108 8) as [? ->]; [lia..|]. cbn [fmap option_fmap option_map mbind option_bind].
  destruct (Hs 116 8) as [? ->]; [lia..|]. cbn [fmap option_fmap option_map mbind option_bind].
  destruct (Hn 124 12) as [? ->]; [lia..|]. cbn [mbind option_bind].
  destruct (Hn 136 12) as [? ->]; [lia..|]. cbn [mbind option_bind].
  destruct (Hs 156 1) as [? ->]; [lia..|]. cbn [fmap option_fmap option_map mbind option_bind].
  by eexists.
Qed.

Lemma read_ustar_is_Some buffer off name :
  0 ≤ off → off + 500 ≤ Z.of_nat (length buffer) →
  is_Some (read_ustar buffer off name).
Proof.
  intros H0 Hlen. unfold read_ustar.
  assert (∀ o n, 0 ≤ o → 0 ≤ n → off + o + n ≤ off + 500 →
                 is_Some (_readString buffer (off + o) (Some n))) as Hs.
  { intros o n Ho Hn Hfit. apply _readString_fits. lia. }
  destruct (Hs 257 6) as [? ->]; [lia..|]. cbn [mbind option_bind].
  case_bool_decide; [|by eexists].
  destruct (Hs 265 32) as [? ->]; [lia..|]. cbn [mbind option_bind].
  destruct (Hs 297 32) as [? ->]; [lia..|]. cbn [mbind option_bind].
  destruct (Hs 345 155) as [? ->]; [lia..|]. cbn [mbind option_bind].
  by eexists.
Qed.

Lemma Uint8Array_new_None buffer z size :
  Uint8Array_new buffer z size = None →
  0 ≤ z ≤ Z.of_nat (length buffer) →
  ∃ s, size = Some s ∧ (s < 0 ∨ Z.of_nat (length buffer) < z + s).
Proof.
  intros H Hz. destruct size as [s|].
  - exists s. split; [done|].
    destruct (decide (s < 0 ∨ Z.of_nat (length buffer) < z + s)) as [|Hn];
      [done|].
    destruct (proj2 (Uint8Array_new_is_Some buffer z s)) as [v Hv]; [lia|].
    congruence.
  - destruct (proj2 (Uint8Array_new_NaN_is_Some buffer z)) as [v Hv]; [lia|].
    congruence.
Qed.

Lemma Uint8Array_new_misfit buffer z s :
  s < 0 ∨ Z.of_nat (length buffer) < z + s →
  Uint8Array_new buffer z (Some s) = None.
Proof.
  intros H. destruct (Uint8Array_new buffer z (Some s)) as [v|] eqn:E; [|done].
  assert (is_Some (Uint8Array_new buffer z (Some s))) as Hs by eauto.
  apply Uint8Array_new_is_Some in Hs. lia.
Qed.

Lemma _readString_None buffer z size :
  _readString buffer z size = None → Uint8Array_new buffer z size = None.
Proof.
  unfold _readString. by destruct (Uint8Array_new buffer z size).
Qed.

Lemma _readString_None_of buffer z s :
  s < 0 ∨ Z.of_nat (length buffer) < z + s →
  _readString buffer z (Some s) = None.
Proof.
  intros H. unfold _readString. by rewrite Uint8Array_new_misfit.
Qed.

(** X9. A pass over a header inside the loop raises only when the payload of
    the header does not fit the buffer: its size is negative or runs past
    the end. Without options every such header raises, unless its name is
    empty. *)
Theorem parseTar_body_raises buffer opts off st :
  0 ≤ off < Z.of_nat (length buffer) - 512 →
  (parseTar_body buffer opts off st = None →
   ∃ h s, read_header buffer off = Some h ∧ hd_raw_name h ≠ []
          ∧ hd_size h = Some s
          ∧ (s < 0 ∨ Z.of_nat (length buffer) < off + 512 + s))
  ∧ (∀ h s, read_header buffer off = Some h → hd_raw_name h ≠ [] →
            hd_size h = Some s →
            s < 0 ∨ Z.of_nat (length buffer) < off + 512 + s →
            parseTar_body buffer no_opts off st = None).
Proof.
  intros Hoff. split.
  - intros H.
    destruct (read_header_is_Some buffer off) as [h Hh]; [lia..|].
    rewrite (parseTar_body_pass _ _ _ _ h Hh) in H. unfold pass in H.
    exists h.
    case_bool_decide as Hname; [discriminate H|].
    assert (∀ size, Uint8Array_new buffer (off + 512) size = None →
                    ∃ s, size = Some s
                         ∧ (s < 0 ∨ Z.of_nat (length buffer) < off + 512 + s))
      as Hview.
    { intros size Hv. apply Uint8Array_new_None in Hv; [|lia]. done. }
    destruct (is_extended (hd_type h)).
    { destruct (Uint8Array_new buffer (off + 512) (hd_size h)) eqn:Ev.
      - cbn [mbind option_bind] in H. by case_bool_decide.
      - destruct (Hview _ Ev) as (s & Hs & Hfit). by exists s. }
    destruct (is_gnu_long (hd_type h)).
    { destruct (_readString buffer (off + 512) (hd_size h)) eqn:Ev;
        [discriminate H|].
      apply _readString_None in Ev.
      destruct (Hview _ Ev) as (s & Hs & Hfit). by exists s. }
    destruct (read_ustar_is_Some buffer off (hd_name (nextExtendedHeader st) h))
      as [[[user group] name] Hu]; [lia..|].
    rewrite Hu in H. cbn [mbind option_bind] in H.
    unfold emit in H. cbn [make_meta meta_size] in H.
    destruct (match opt_filter opts with Some f => _ | None => false end);
      [discriminate H|].
    destruct (opt_metaOnly opts); [discriminate H|].
    case_bool_decide; [discriminate H|].
    destruct (Uint8Array_new buffer (off + 512) (hd_size h)) eqn:Ev;
      [discriminate H|].
    destruct (Hview _ Ev) as (s & Hs & Hfit). by exists s.
  - intros h s Hh Hname Hs Hfit.
    rewrite (parseTar_body_pass _ _ _ _ h Hh). unfold pass.
    rewrite bool_decide_eq_false_2 by done.
    rewrite Hs. rewrite (_readString_None_of buffer (off + 512) s Hfit).
    rewrite (Uint8Array_new_misfit buffer (off + 512) s Hfit).
    destruct (is_extended (hd_type h)); [done|].
    destruct (is_gnu_long (hd_type h)); [done|].
    destruct (read_ustar_is_Some buffer off (hd_name (nextExtendedHeader st) h))
      as [[[user group] name] ->]; [lia..|].
    cbn [mbind option_bind]. unfold emit.
    cbn [no_opts opt_filter opt_metaOnly make_meta meta_size].
    rewrite Hs. rewrite (Uint8Array_new_misfit buffer (off + 512) s Hfit).
    case_bool_decide as H0; [|done].
    injection H0 as ->. lia.
Qed.

(** [truncated_buffer] has 1024 bytes and its header announces 2000: the
    pass raises. *)
Lemma parseTar_body_raises_witness :
  0 ≤ 0 < Z.of_nat (length truncated_buffer) - 512
  ∧ read_header truncated_buffer 0 = Some truncated_header
  ∧ parseTar_body truncated_buffer no_opts 0 initial_state = None.
Proof.
  assert (Z.of_nat (length truncated_buffer) = 1024) as Hlen
    by (vm_compute; reflexivity).
  assert (0 ≤ 0 < Z.of_nat (length truncated_buffer) - 512) as H0
    by (rewrite Hlen; lia).
  assert (read_header truncated_buffer 0 = Some truncated_header) as Hh
    by (vm_compute; reflexivity).
  split; [exact H0|]. split; [exact Hh|].
  destruct (parseTar_body_raises truncated_buffer no_opts 0 initial_state H0)
    as [_ H].
  apply (H truncated_header 2000 Hh); [discriminate|reflexivity|].
  right. rewrite Hlen. lia.
Defined.

Lemma _readString_nul_first buffer off n :
  0 ≤ off → 0 < n → off + n ≤ Z.of_nat (length buffer) →
  buffer !! Z.to_nat off = Some Byte.x00 →
  _readString buffer off (Some n) = Some [].
Proof.
  intros H0 Hn Hfit Hb. unfold _readString, Uint8Array_new, ToIndex.
  destruct (Z.ltb_spec off 0); [lia|]. cbn [mbind option_bind].
  destruct (Z.ltb_spec n 0); [lia|]. cbn [mbind option_bind].
  unfold sublist_lookup. rewrite option_guard_True by lia.
  cbn [mbind option_bind].
  assert (take (Z.to_nat n) (drop (Z.to_nat off) buffer)
          = Byte.x00 :: take (Z.to_nat n - 1) (drop (S (Z.to_nat off)) buffer))
    as ->.
  { rewrite (drop_S _ _ _ Hb).
    replace (Z.to_nat n) with (S (Z.to_nat n - 1)) at 1 by lia. done. }
  done.
Qed.

(** X10. A header whose first byte is NUL ends the decoding: the entries
    pushed so far are returned and nothing after the header is read. *)
Theorem nul_header_ends_archive fuel buffer opts st off :
  offset st = Some off → 0 ≤ off →
  buffer !! Z.to_nat off = Some Byte.x00 →
  parseTar_loop (S fuel) buffer opts st = Ok (files st).
Proof.
  intros Hoff H0 Hb. cbn [parseTar_loop]. rewrite Hoff.
  destruct (Z.ltb_spec off (Z.of_nat (length buffer) - 512)); [|done].
  unfold parseTar_body.
  rewrite (_readString_nul_first buffer off 100 H0 ltac:(lia) ltac:(lia) Hb).
  done.
Qed.

(** Two blocks of zeros decode to nothing. *)
Lemma nul_header_ends_archive_witness :
  offset initial_state = Some 0 ∧ 0 ≤ 0
  ∧ zeros 1024 !! Z.to_nat 0 = Some Byte.x00
  ∧ parseTar_loop 1 (zeros 1024) no_opts initial_state = Ok [].
Proof.
  assert (0 ≤ 0) as H0 by lia.
  split; [reflexivity|]. split; [exact H0|]. split; [reflexivity|].
  exact (nul_header_ends_archive 0 (zeros 1024) no_opts initial_state 0
           eq_refl H0 eq_refl).
Defined.

(** X11. A header whose size field does not read as a number is the last one
    decoded: the offset becomes NaN and the loop ends. Without [metaOnly],
    the entry pushed for it has an empty view as its data. *)
Theorem nan_size_ends_archive fuel buffer opts off st st' h :
  parseTar_body buffer opts off st = Some (Continue st') →
  read_header buffer off = Some h →
  hd_size h = NaN →
  parseTar_loop (S fuel) buffer opts st' = Ok (files st')
  ∧ ∀ m d, files st' = files st ++ [FileEntry m d] →
           meta_size m = NaN ∧ d = Some [].
Proof.
  intros Hbody Hh Hs. rewrite (parseTar_body_pass _ _ _ _ h Hh) in Hbody.
  assert (offset st' = None
          ∧ (files st' = files st
             ∨ ∃ user group name,
                 emit buffer opts off (make_meta st h user group name) (files st)
                 = Some (files st'))) as [Hoff Hfiles].
  { unfold pass in Hbody. case_bool_decide; [discriminate Hbody|].
    unfold after in Hbody. rewrite Hs in Hbody. cbn [seek_of advance mbind option_bind] in Hbody.
    destruct (is_extended (hd_type h)).
    { destruct (Uint8Array_new buffer (off + 512) None);
        cbn [mbind option_bind] in Hbody; [|discriminate Hbody].
      case_bool_decide; injection Hbody as <-; cbn [offset files]; eauto. }
    destruct (is_gnu_long (hd_type h)).
    { destruct (_readString buffer (off + 512) None);
        cbn [mbind option_bind] in Hbody; [|discriminate Hbody].
      injection Hbody as <-; cbn [offset files]; eauto. }
    destruct (read_ustar buffer off (hd_name (nextExtendedHeader st) h))
      as [[[user group] name]|]; cbn [mbind option_bind] in Hbody;
      [|discriminate Hbody].
    destruct (emit buffer opts off (make_meta st h user group name) (files st))
      as [entries|] eqn:Hemit; cbn [mbind option_bind] in Hbody;
      [|discriminate Hbody].
    injection Hbody as <-. cbn [offset files]. split; [done|].
    right. eauto. }
  split.
  - cbn [parseTar_loop]. by rewrite Hoff.
  - intros m d Hf. destruct Hfiles as [Hsame|(user & group & name & Hemit)].
    { rewrite Hsame in Hf. apply (f_equal length) in Hf.
      rewrite length_app in Hf. simpl in Hf. lia. }
    rewrite Hf in Hemit. unfold emit in Hemit.
    cbn [make_meta meta_size] in Hemit. rewrite Hs in Hemit.
    destruct (match opt_filter opts with Some f => _ | None => false end).
    { apply (inj Some), (f_equal length) in Hemit.
      rewrite length_app in Hemit. simpl in Hemit. lia. }
    destruct (opt_metaOnly opts).
    { apply (inj Some), app_inv_head in Hemit. discriminate Hemit. }
    rewrite bool_decide_eq_false_2 in Hemit by done.
    destruct (Uint8Array_new buffer (off + 512) None) as [v|] eqn:Ev;
      cbn [fmap option_fmap option_map mbind option_bind] in Hemit;
      [|discriminate Hemit].
    apply (inj Some), app_inv_head in Hemit. injection Hemit as <- <-.
    split; [exact Hs|].
    unfold Uint8Array_new, ToIndex in Ev.
    destruct (off + 512 <? 0); cbn [mbind option_bind] in Ev; [discriminate Ev|].
    apply sublist_lookup_length in Ev. apply nil_length_inv in Ev. by subst.
Qed.

(** The size field of [bare_buffer] is empty: its entry is the last. *)
Lemma nan_size_ends_archive_witness :
  let st' := step_from bare_buffer no_opts 0 initial_state in
  parseTar_body bare_buffer no_opts 0 initial_state = Some (Continue st')
  ∧ read_header bare_buffer 0 = Some bare_header
  ∧ hd_size bare_header = NaN
  ∧ parseTar_loop 1 bare_buffer no_opts st' = Ok (files st').
Proof.
  cbn zeta. set (st' := step_from bare_buffer no_opts 0 initial_state).
  assert (parseTar_body bare_buffer no_opts 0 initial_state
          = Some (Continue st')) as H1 by (vm_compute; reflexivity).
  assert (read_header bare_buffer 0 = Some bare_header) as H2
    by (vm_compute; reflexivity).
  split; [exact H1|]. split; [exact H2|]. split; [reflexivity|].
  exact (proj1 (nan_size_ends_archive 0 bare_buffer no_opts 0 initial_state
                  st' bare_header H1 H2 eq_refl)).
Defined.

Lemma assoc_tarItemTypeMap_nonempty k v :
  assoc k tarItemTypeMap = Some v → v ≠ [].
Proof.
  unfold tarItemTypeMap. cbn [assoc].
  repeat (case_decide; [by intros [= <-]|]). discriminate.
Qed.

Lemma hd_type_nonempty buffer off h :
  read_header buffer off = Some h → hd_type h ≠ [].
Proof.
  intros Hh. destruct (read_header_code _ _ _ Hh) as (s & _ & Hc).
  unfold hd_type.
  destruct (assoc (hd_code h) tarItemTypeMap) as [v|] eqn:E.
  - by eapply assoc_tarItemTypeMap_nonempty.
  - cbn [default]. rewrite Hc. by case_bool_decide.
Qed.

Lemma hd_name_nonempty next h : hd_raw_name h ≠ [] → hd_name next h ≠ [].
Proof.
  intros Hr. unfold hd_name. destruct next as [x|]; [|done].
  unfold longName, truthy.
  destruct (x !! str "path") as [[[|b s]|]|]; cbn [default]; try done;
    destruct (x !! str "linkpath") as [[[|b' s']|]|]; cbn [default]; done.
Qed.

Lemma join_prefix_nonempty prefix name :
  prefix ≠ [] → join_prefix prefix name ≠ [].
Proof.
  intros Hp. unfold join_prefix.
  destruct prefix as [|b p]; [done|].
  by repeat case_match.
Qed.

Lemma read_ustar_nonempty buffer off name user group name' :
  read_ustar buffer off name = Some (user, group, name') →
  name ≠ [] → name' ≠ [].
Proof.
  unfold read_ustar. intros H Hn.
  destruct (_readString buffer (off + 257) (Some 6)); cbn [mbind option_bind] in H;
    [|discriminate H].
  case_bool_decide; [|by injection H as <- <- <-].
  destruct (_readString buffer (off + 265) (Some 32)); cbn [mbind option_bind] in H;
    [|discriminate H].
  destruct (_readString buffer (off + 297) (Some 32)); cbn [mbind option_bind] in H;
    [|discriminate H].
  destruct (_readString buffer (off + 345) (Some 155)) as [prefix|];
    cbn [mbind option_bind] in H; [|discriminate H].
  injection H as <- <- <-.
  case_bool_decide; [done|]. by apply join_prefix_nonempty.
Qed.

(** What a pass does to the array of entries: nothing, or one entry for the
    header, built by [make_meta]. *)
Lemma parseTar_body_files buffer opts off st st' :
  parseTar_body buffer opts off st = Some (Continue st') →
  ∃ h, read_header buffer off = Some h ∧ hd_raw_name h ≠ []
       ∧ (files st' = files st
          ∨ ∃ user group name,
              read_ustar buffer off (hd_name (nextExtendedHeader st) h)
              = Some (user, group, name)
              ∧ emit buffer opts off (make_meta st h user group name)
                  (files st) = Some (files st')).
Proof.
  intros H. apply parseTar_body_step in H.
  inversion H as [|h data Hh Hn _ _|h data Hh Hn _ _|h path Hh Hn _ _ _
                  |h user group name entries Hh Hn _ _ Hu Hemit]; subst;
    exists h; (split; [done|]); (split; [done|]); cbn [after files]; eauto 10.
Qed.

(** ** The entries returned by the decode loop *)

Lemma sample_archive_parsed :
  parseTar 3 sample_archive no_opts = Ok sample_entries.
Proof. vm_compute. reflexivity. Qed.

Lemma sample_archive_files :
  parseTar 3 sample_archive only_files = Ok (keep is_file sample_entries).
Proof. vm_compute. reflexivity. Qed.

Lemma parseTar_body_grows buffer opts off st st' :
  parseTar_body buffer opts off st = Some (Continue st') →
  files st' = files st ∨ ∃ e, files st' = files st ++ [e].
Proof.
  intros H.
  destruct (parseTar_body_files _ _ _ _ _ H)
    as (h & _ & _ & [Hs|(user & group & name & _ & Hemit)]); [by left|].
  destruct (emit_cases _ _ _ _ _ _ Hemit) as [->|[->|[d ->]]]; eauto.
Qed.

(** A property of every entry a pass pushes holds of every entry
    returned. *)
Lemma parseTar_loop_Forall (P : Entry → Prop) buffer opts :
  (∀ off st st' e,
     parseTar_body buffer opts off st = Some (Continue st') →
     files st' = files st ++ [e] → P e) →
  ∀ fuel st entries,
    Forall P (files st) →
    parseTar_loop fuel buffer opts st = Ok entries → Forall P entries.
Proof.
  intros Hstep fuel. induction fuel as [|fuel IH]; intros st entries Hst H.
  { discriminate H. }
  cbn [parseTar_loop] in H.
  destruct (offset st) as [off|]; [|by injection H as <-].
  destruct (off <? Z.of_nat (length buffer) - 512); [|by injection H as <-].
  destruct (parseTar_body buffer opts off st) as [[|st']|] eqn:Hbody;
    [by injection H as <-| |discriminate H].
  apply (IH st' entries); [|done].
  destruct (parseTar_body_grows _ _ _ _ _ Hbody) as [->|[e He]]; [done|].
  rewrite He. apply Forall_app. split; [done|].
  constructor; [|done]. by eapply Hstep.
Qed.

(** X12. [parseTar] never returns an entry with an empty name or an empty
    type. *)
Theorem parseTar_names_nonempty fuel buffer opts entries :
  parseTar fuel buffer opts = Ok entries →
  Forall (λ e, meta_name (entry_meta e) ≠ [] ∧ meta_type (entry_meta e) ≠ [])
         entries.
Proof.
  apply parseTar_loop_Forall; [|done].
  intros off st st' e Hbody He.
  destruct (parseTar_body_files _ _ _ _ _ Hbody)
    as (h & Hh & Hname & [Hs|(user & group & name & Hu & Hemit)]).
  { rewrite Hs in He. apply (f_equal length) in He.
    rewrite length_app in He. simpl in He. lia. }
  rewrite (emit_new_entry _ _ _ _ _ _ e Hemit He). cbn [make_meta meta_name meta_type].
  split.
  - eapply read_ustar_nonempty; [exact Hu|]. by apply hd_name_nonempty.
  - by eapply hd_type_nonempty.
Qed.

(** The entries of [sample_archive] have names and types. *)
Lemma parseTar_names_nonempty_witness :
  parseTar 3 sample_archive no_opts = Ok sample_entries
  ∧ Forall (λ e, meta_name (entry_meta e) ≠ []
                 ∧ meta_type (entry_meta e) ≠ []) sample_entries.
Proof.
  split; [exact sample_archive_parsed|].
  exact (parseTar_names_nonempty 3 sample_archive no_opts sample_entries
           sample_archive_parsed).
Defined.

(** X13. With a filter, every entry returned satisfies the filter. *)
Theorem parseTar_filter_sound fuel buffer opts f entries :
  opt_filter opts = Some f →
  parseTar fuel buffer opts = Ok entries →
  Forall (λ e, f (entry_meta e) = true) entries.
Proof.
  intros Hf. apply parseTar_loop_Forall; [|done].
  intros off st st' e Hbody He.
  destruct (parseTar_body_files _ _ _ _ _ Hbody)
    as (h & Hh & Hname & [Hs|(user & group & name & Hu & Hemit)]).
  { rewrite Hs in He. apply (f_equal length) in He.
    rewrite length_app in He. simpl in He. lia. }
  rewrite (emit_new_entry _ _ _ _ _ _ e Hemit He).
  unfold emit in Hemit. rewrite Hf in Hemit.
  destruct (f (make_meta st h user group name)); [done|].
  cbn [negb] in Hemit. rewrite He in Hemit.
  apply (inj Some), (f_equal length) in Hemit.
  rewrite length_app in Hemit. simpl in Hemit. lia.
Qed.

(** [sample_archive] decoded with the filter [is_file]. *)
Lemma parseTar_filter_sound_witness :
  opt_filter only_files = Some is_file
  ∧ parseTar 3 sample_archive only_files = Ok (keep is_file sample_entries)
  ∧ Forall (λ e, is_file (entry_meta e) = true) (keep is_file sample_entries).
Proof.
  split; [reflexivity|]. split; [exact sample_archive_files|].
  exact (parseTar_filter_sound 3 sample_archive only_files is_file
           (keep is_file sample_entries) eq_refl sample_archive_files).
Defined.

Lemma emit_shape buffer opts off meta entries e :
  emit buffer opts off meta entries = Some (entries ++ [e]) →
  entry_shape buffer (opt_metaOnly opts) e.
Proof.
  unfold emit. intros H.
  destruct (match opt_filter opts with Some f => _ | None => false end).
  { apply (inj Some), (f_equal length) in H.
    rewrite length_app in H. simpl in H. lia. }
  destruct (opt_metaOnly opts).
  { apply (inj Some), app_inv_head in H. by injection H as <-. }
  case_bool_decide as Hz.
  - cbn [mbind option_bind] in H.
    apply (inj Some), app_inv_head in H. injection H as <-.
    split; [done|]. unfold data_of_size. by rewrite Hz.
  - destruct (Uint8Array_new buffer (off + 512) (meta_size meta)) as [v|] eqn:Ev;
      cbn [fmap option_fmap option_map mbind option_bind] in H; [|discriminate H].
    apply (inj Some), app_inv_head in H. injection H as <-.
    split; [done|]. unfold data_of_size.
    assert (∃ v0 off0, Some v = Some v0
              ∧ Uint8Array_new buffer off0 (meta_size meta) = Some v0
              ∧ Z.of_nat (length v0) = default 0 (meta_size meta)) as Hv.
    { exists v, (off + 512). split; [done|]. split; [done|].
      unfold Uint8Array_new, ToIndex in Ev.
      destruct (off + 512 <? 0); cbn [mbind option_bind] in Ev;
        [discriminate Ev|].
      destruct (meta_size meta) as [s|]; cbn [default from_option id].
      - destruct (Z.ltb_spec s 0); cbn [mbind option_bind] in Ev;
          [discriminate Ev|].
        apply sublist_lookup_length in Ev. lia.
      - cbn [mbind option_bind] in Ev.
        apply sublist_lookup_length in Ev. lia. }
    destruct (meta_size meta) as [[| |]|]; done.
Qed.

(** X14. Under [metaOnly] every entry returned is metadata alone. Without it
    every entry has a data property: undefined when the size is 0, else a
    view of the buffer whose length is the size of the entry. *)
Theorem parseTar_entry_shape fuel buffer opts entries :
  parseTar fuel buffer opts = Ok entries →
  Forall (entry_shape buffer (opt_metaOnly opts)) entries.
Proof.
  apply parseTar_loop_Forall; [|done].
  intros off st st' e Hbody He.
  destruct (parseTar_body_files _ _ _ _ _ Hbody)
    as (h & Hh & Hname & [Hs|(user & group & name & Hu & Hemit)]).
  { rewrite Hs in He. apply (f_equal length) in He.
    rewrite length_app in He. simpl in He. lia. }
  rewrite He in Hemit. by eapply emit_shape.
Qed.

(** The entries of [sample_archive] carry their data. *)
Lemma parseTar_entry_shape_witness :
  parseTar 3 sample_archive no_opts = Ok sample_entries
  ∧ Forall (entry_shape sample_archive (opt_metaOnly no_opts)) sample_entries.
Proof.
  split; [exact sample_archive_parsed|].
  exact (parseTar_entry_shape 3 sample_archive no_opts sample_entries
           sample_archive_parsed).
Defined.

Lemma parseTar_body_Break buffer opts off st opts' st' :
  parseTar_body buffer opts off st = Some Break →
  parseTar_body buffer opts' off st' = Some Break.
Proof.
  intros H. apply parseTar_body_step in H. inversion H as [Hn| | | |].
  unfold parseTar_body. rewrite Hn. done.
Qed.

Lemma pass_with_files buffer opts1 opts2 (T : list Entry → list Entry)
    off st h st' :
  (∀ meta entries entries',
     emit buffer opts1 off meta entries = Some entries' →
     emit buffer opts2 off meta (T entries) = Some (T entries')) →
  pass buffer opts1 off st h = Some (Continue st') →
  pass buffer opts2 off (with_files st (T (files st))) h
  = Some (Continue (with_files st' (T (files st')))).
Proof.
  intros Hemit H. unfold pass in *.
  case_bool_decide; [discriminate H|].
  cbn [with_files nextExtendedHeader globalExtendedHeader files].
  destruct (is_extended (hd_type h)).
  { destruct (Uint8Array_new buffer (off + 512) (hd_size h));
      cbn [mbind option_bind] in H |- *; [|discriminate H].
    case_bool_decide; by injection H as <-. }
  destruct (is_gnu_long (hd_type h)).
  { destruct (_readString buffer (off + 512) (hd_size h));
      cbn [mbind option_bind] in H |- *; [|discriminate H].
    by injection H as <-. }
  destruct (read_ustar buffer off (hd_name (nextExtendedHeader st) h))
    as [[[user group] name]|]; cbn [mbind option_bind] in H |- *;
    [|discriminate H].
  destruct (emit buffer opts1 off (make_meta st h user group name) (files st))
    as [entries|] eqn:He; cbn [mbind option_bind] in H; [|discriminate H].
  injection H as <-.
  change (make_meta (with_files st (T (files st))) h user group name)
    with (make_meta st h user group name).
  rewrite (Hemit _ _ _ He). done.
Qed.

Lemma parseTar_loop_with_files buffer opts1 opts2 (T : list Entry → list Entry) :
  (∀ off meta entries entries',
     emit buffer opts1 off meta entries = Some entries' →
     emit buffer opts2 off meta (T entries) = Some (T entries')) →
  ∀ fuel st entries,
    parseTar_loop fuel buffer opts1 st = Ok entries →
    parseTar_loop fuel buffer opts2 (with_files st (T (files st)))
    = Ok (T entries).
Proof.
  intros Hemit fuel. induction fuel as [|fuel IH]; intros st entries H.
  { discriminate H. }
  cbn [parseTar_loop] in H |- *. cbn [with_files offset].
  destruct (offset st) as [off|]; [|by injection H as <-].
  destruct (off <? Z.of_nat (length buffer) - 512); [|by injection H as <-].
  destruct (parseTar_body buffer opts1 off st) as [[|st']|] eqn:Hbody;
    [| |discriminate H].
  - rewrite (parseTar_body_Break _ _ _ _ opts2
               (with_files st (T (files st))) Hbody).
    by injection H as <-.
  - destruct (parseTar_body_files _ _ _ _ _ Hbody) as (h & Hh & _).
    rewrite (parseTar_body_pass _ _ _ _ h Hh) in Hbody.
    rewrite (parseTar_body_pass _ _ _ _ h Hh).
    rewrite (pass_with_files _ _ _ T _ _ _ _ (Hemit off) Hbody).
    by apply IH.
Qed.

Lemma keep_app f l1 l2 : keep f (l1 ++ l2) = keep f l1 ++ keep f l2.
Proof. apply List.filter_app. Qed.

Lemma emit_with_filter buffer opts f off meta entries entries' :
  opt_filter opts = None →
  emit buffer opts off meta entries = Some entries' →
  emit buffer (with_filter f opts) off meta (keep f entries)
  = Some (keep f entries').
Proof.
  unfold emit. intros Hnone H. rewrite Hnone in H.
  cbn [with_filter opt_filter opt_metaOnly].
  destruct (f meta) eqn:Hf; cbn [negb].
  - destruct (opt_metaOnly opts).
    + injection H as <-. rewrite keep_app. unfold keep at 3.
      cbn [List.filter entry_meta]. by rewrite Hf.
    + destruct (if bool_decide (meta_size meta = Some 0) then _ else _)
        as [data2|]; cbn [mbind option_bind] in H |- *; [|discriminate H].
      injection H as <-. rewrite keep_app. unfold keep at 3.
      cbn [List.filter entry_meta]. by rewrite Hf.
  - assert (∃ e, entries' = entries ++ [e] ∧ entry_meta e = meta)
      as (e & -> & He).
    { destruct (opt_metaOnly opts); [injection H as <-; eauto|].
      destruct (if bool_decide (meta_size meta = Some 0) then _ else _)
        as [data2|]; cbn [mbind option_bind] in H; [|discriminate H].
      injection H as <-; eauto. }
    rewrite keep_app. unfold keep at 3. cbn [List.filter].
    rewrite He, Hf. by rewrite app_nil_r.
Qed.

(** X15. A filter commutes with the decoding: when [parseTar] returns
    without a filter, it returns with the filter, and what it returns are
    the entries of the first result that satisfy the filter, in the same
    order. *)
Theorem parseTar_filter_commutes fuel buffer opts f entries :
  opt_filter opts = None →
  parseTar fuel buffer opts = Ok entries →
  parseTar fuel buffer (with_filter f opts) = Ok (keep f entries).
Proof.
  intros Hnone H. unfold parseTar in *.
  apply (parseTar_loop_with_files buffer opts (with_filter f opts) (keep f)) in H.
  - exact H.
  - intros off meta es es'. by apply emit_with_filter.
Qed.

(** [sample_archive] with and without the filter [is_file]. *)
Lemma parseTar_filter_commutes_witness :
  opt_filter no_opts = None
  ∧ parseTar 3 sample_archive no_opts = Ok sample_entries
  ∧ parseTar 3 sample_archive (with_filter is_file no_opts)
    = Ok (keep is_file sample_entries)
  ∧ length (keep is_file sample_entries) = 1%nat.
Proof.
  split; [reflexivity|]. split; [exact sample_archive_parsed|].
  split; [|vm_compute; reflexivity].
  exact (parseTar_filter_commutes 3 sample_archive no_opts is_file
           sample_entries eq_refl sample_archive_parsed).
Defined.

Lemma emit_with_metaOnly buffer opts off meta entries entries' :
  emit buffer opts off meta entries = Some entries' →
  emit buffer (with_metaOnly opts) off meta (metas entries)
  = Some (metas entries').
Proof.
  unfold emit. intros H. cbn [with_metaOnly opt_filter opt_metaOnly].
  destruct (match opt_filter opts with Some f => _ | None => false end).
  { by injection H as <-. }
  destruct (opt_metaOnly opts).
  { injection H as <-. unfold metas. by rewrite fmap_app. }
  destruct (if bool_decide (meta_size meta = Some 0) then _ else _)
    as [data2|]; cbn [mbind option_bind] in H; [|discriminate H].
  injection H as <-. unfold metas. by rewrite fmap_app.
Qed.

(** X16. [metaOnly] changes nothing but the data: when [parseTar] returns
    without it, it returns with it, and what it returns is the metadata of
    the entries of the first result, in the same order. *)
Theorem parseTar_metaOnly_commutes fuel buffer opts entries :
  parseTar fuel buffer opts = Ok entries →
  parseTar fuel buffer (with_metaOnly opts) = Ok (metas entries).
Proof.
  intros H. unfold parseTar in *.
  apply (parseTar_loop_with_files buffer opts (with_metaOnly opts) metas) in H.
  - exact H.
  - intros off meta es es'. by apply emit_with_metaOnly.
Qed.

(** [sample_archive] with and without [metaOnly]. *)
Lemma parseTar_metaOnly_commutes_witness :
  parseTar 3 sample_archive no_opts = Ok sample_entries
  ∧ parseTar 3 sample_archive (with_metaOnly no_opts)
    = Ok (metas sample_entries).
Proof.
  split; [exact sample_archive_parsed|].
  exact (parseTar_metaOnly_commutes 3 sample_archive no_opts sample_entries
           sample_archive_parsed).
Defined.

(** ** Termination of the decode loop, and long names *)

Lemma seek_of_forward size buffer z v :
  Uint8Array_new buffer z size = Some v →
  ∀ off, match advance off (seek_of size) with
         | Some off' => off + 512 ≤ off'
         | None => True
         end.
Proof.
  intros Hv off. destruct size as [s|]; [|done].
  apply Uint8Array_new_length in Hv.
  rewrite seek_of_floor by done. cbn [advance mbind option_bind].
  pose proof (Z.div_pos s 512 Hv ltac:(lia)).
  destruct (s mod 512 =? 0); lia.
Qed.

Lemma _readString_view buffer z size s :
  _readString buffer z size = Some s →
  ∃ v, Uint8Array_new buffer z size = Some v.
Proof.
  unfold _readString. destruct (Uint8Array_new buffer z size); [eauto|done].
Qed.

(** Without options a pass moves the offset forward by 512 bytes or more,
    or makes it NaN. *)
Lemma parseTar_body_forward buffer off st st' :
  parseTar_body buffer no_opts off st = Some (Continue st') →
  match offset st' with
  | Some off' => off + 512 ≤ off'
  | None => True
  end.
Proof.
  intros H. apply parseTar_body_step in H.
  inversion H as [|h data Hh Hn _ Hv|h data Hh Hn _ Hv|h path Hh Hn _ _ Hp
                  |h user group name entries Hh Hn _ _ Hu Hemit]; subst;
    cbn [after offset].
  - by eapply seek_of_forward.
  - by eapply seek_of_forward.
  - apply _readString_view in Hp as [v Hv]. by eapply seek_of_forward.
  - unfold emit in Hemit.
    cbn [no_opts opt_filter opt_metaOnly make_meta meta_size] in Hemit.
    case_bool_decide as Hz.
    + rewrite Hz. by apply (seek_of_forward (Some 0) [] 0 []).
    + destruct (Uint8Array_new buffer (off + 512) (hd_size h)) eqn:Hv;
        [|discriminate Hemit].
      by eapply seek_of_forward.
Qed.

Lemma parseTar_loop_fuel buffer :
  ∀ fuel st,
    (1 ≤ fuel)%nat →
    match offset st with
    | Some off => Z.of_nat (length buffer) - off ≤ 512 * Z.of_nat fuel
    | None => True
    end →
    parseTar_loop fuel buffer no_opts st ≠ OutOfFuel.
Proof.
  intros fuel. induction fuel as [|fuel IH]; intros st Hfuel Hoff; [lia|].
  cbn [parseTar_loop].
  destruct (offset st) as [off|]; [|done].
  destruct (Z.ltb_spec off (Z.of_nat (length buffer) - 512)); [|done].
  destruct (parseTar_body buffer no_opts off st) as [[|st']|] eqn:Hbody;
    [done| |done].
  apply parseTar_body_forward in Hbody.
  apply IH; [lia|].
  destruct (offset st') as [off'|]; [|done]. lia.
Qed.

(** X17. Without options [parseTar] returns or raises on every buffer: the
    loop makes at most one pass for each 512 bytes of the buffer, and one
    more. *)
Theorem parseTar_terminates buffer :
  parseTar (S (length buffer / 512)) buffer no_opts ≠ OutOfFuel.
Proof.
  apply parseTar_loop_fuel; [lia|].
  cbn [initial_state offset].
  pose proof (Nat.div_mod_eq (length buffer) 512) as Hd.
  pose proof (Nat.mod_upper_bound (length buffer) 512 ltac:(done)) as Hm.
  lia.
Qed.

(** X18. Under [metaOnly] the payload is never viewed and a negative size is
    not refused: a first header whose size field reads -512 (and whose type
    is not one of the extended ones) leaves the offset where it is, and the
    loop does not end. *)
Theorem metaOnly_negative_size_loops buffer opts h :
  opt_metaOnly opts = true →
  512 < Z.of_nat (length buffer) →
  read_header buffer 0 = Some h →
  hd_raw_name h ≠ [] →
  hd_size h = Some (-512) →
  is_extended (hd_type h) = false →
  is_gnu_long (hd_type h) = false →
  ∀ fuel, parseTar fuel buffer opts = OutOfFuel.
Proof.
  intros Hm Hlen Hh Hname Hsize Hext Hgnu fuel. unfold parseTar.
  change initial_state with (with_files initial_state []).
  generalize (@nil Entry) as entries.
  induction fuel as [|fuel IH]; intros entries; [done|].
  cbn [parseTar_loop with_files offset initial_state].
  destruct (Z.ltb_spec 0 (Z.of_nat (length buffer) - 512)); [|lia].
  rewrite (parseTar_body_pass _ _ _ _ h Hh). unfold pass.
  rewrite bool_decide_eq_false_2 by done. rewrite Hext, Hgnu.
  destruct (read_ustar_is_Some buffer 0
              (hd_name (nextExtendedHeader (with_files initial_state entries)) h))
    as [[[user group] name] ->]; [lia..|].
  cbn [mbind option_bind]. unfold emit. rewrite Hm.
  assert (after 0 h None None = with_files initial_state) as Hafter.
  { unfold after. by rewrite Hsize. }
  cbn [with_files globalExtendedHeader files initial_state].
  destruct (match opt_filter opts with Some f => _ | None => false end);
    cbn [mbind option_bind]; rewrite Hafter; apply IH.
Qed.

(** [loop_buffer] under [metaOnly]: a thousand passes do not end the
    loop. *)
Lemma metaOnly_negative_size_loops_witness :
  opt_metaOnly meta_only = true
  ∧ 512 < Z.of_nat (length loop_buffer)
  ∧ read_header loop_buffer 0 = Some loop_header
  ∧ hd_raw_name loop_header ≠ []
  ∧ hd_size loop_header = Some (-512)
  ∧ is_extended (hd_type loop_header) = false
  ∧ is_gnu_long (hd_type loop_header) = false
  ∧ parseTar 1000 loop_buffer meta_only = OutOfFuel.
Proof.
  assert (512 < Z.of_nat (length loop_buffer)) as H1
    by (vm_compute; reflexivity).
  assert (read_header loop_buffer 0 = Some loop_header) as H2
    by (vm_compute; reflexivity).
  assert (hd_raw_name loop_header ≠ []) as H3 by discriminate.
  assert (is_extended (hd_type loop_header) = false) as H4
    by (vm_compute; reflexivity).
  assert (is_gnu_long (hd_type loop_header) = false) as H5
    by (vm_compute; reflexivity).
  split; [reflexivity|]. split; [exact H1|]. split; [exact H2|].
  split; [exact H3|]. split; [reflexivity|]. split; [exact H4|].
  split; [exact H5|].
  exact (metaOnly_negative_size_loops loop_buffer meta_only loop_header
           eq_refl H1 H2 H3 eq_refl H4 H5 1000%nat).
Defined.

Lemma is_gnu_long_not_extended type :
  is_gnu_long type = true → is_extended type = false.
Proof.
  unfold is_gnu_long, is_extended. intros H.
  apply orb_true_iff in H as [H|H]; [apply orb_true_iff in H as [H|H]|];
    apply bool_decide_eq_true in H; subst; reflexivity.
Qed.

Lemma explicit_attrs_no_path mode uid gid mtime user group :
  explicit_attrs mode uid gid mtime user group !! str "path" = None.
Proof.
  apply eq_None_not_Some. rewrite explicit_attrs_keys.
  apply (bool_decide_eq_false_1 _). vm_compute. reflexivity.
Qed.

(** X19. A header of type L, N or K (a GNU long file name, or a long link
    name alike) pushes no entry; its payload, read up to the first NUL,
    becomes the [path] of the pending extended header. The entry pushed by
    the next pass has that path, when it is not empty, in place of the name
    field: as its name, after any USTAR prefix, and as its attribute [path]. *)
Theorem gnu_long_name_next_entry buffer opts off st st1 h :
  parseTar_body buffer opts off st = Some (Continue st1) →
  read_header buffer off = Some h →
  is_gnu_long (hd_type h) = true →
  ∃ path,
    _readString buffer (off + 512) (hd_size h) = Some path
    ∧ nextExtendedHeader st1 = Some {[ str "path" := Some path ]}
    ∧ files st1 = files st
    ∧ ∀ off1 st2 e,
        parseTar_body buffer opts off1 st1 = Some (Continue st2) →
        files st2 = files st1 ++ [e] →
        path ≠ [] →
        (∃ user group,
           read_ustar buffer off1 path
           = Some (user, group, meta_name (entry_meta e)))
        ∧ meta_attrs (entry_meta e) !! str "path" = Some (JString path)
        ∧ nextExtendedHeader st2 = None.
Proof.
  intros Hbody Hh Hgnu.
  rewrite (parseTar_body_pass _ _ _ _ h Hh) in Hbody. unfold pass in Hbody.
  case_bool_decide; [discriminate Hbody|].
  rewrite (is_gnu_long_not_extended _ Hgnu), Hgnu in Hbody.
  destruct (_readString buffer (off + 512) (hd_size h)) as [path|];
    cbn [mbind option_bind] in Hbody; [|discriminate Hbody].
  injection Hbody as <-. exists path. cbn [after nextExtendedHeader files].
  split; [done|]. split; [done|]. split; [done|].
  intros off1 st2 e Hbody1 He Hpath.
  apply parseTar_body_step in Hbody1.
  inversion Hbody1 as [|h1 data Hh1 Hn1 _ _|h1 data Hh1 Hn1 _ _
                       |h1 p Hh1 Hn1 _ _ _
                       |h1 user group name entries Hh1 Hn1 _ _ Hu Hemit];
    subst st2; cbn [after files nextExtendedHeader] in *.
  1-3: apply (f_equal length) in He; rewrite length_app in He; simpl in He; lia.
  assert (hd_name (Some {[ str "path" := Some path ]}) h1 = path) as Hn.
  { unfold hd_name, longName. rewrite lookup_singleton_eq. cbn [truthy].
    by destruct path. }
  rewrite Hn in Hu.
  pose proof (emit_new_entry _ _ _ _ _ _ e Hemit He) as ->.
  split; [by exists user, group|]. split; [|done].
  cbn [make_meta meta_attrs]. unfold headers_or_empty.
  cbn [after nextExtendedHeader default from_option id].
  rewrite lookup_spread.
  rewrite (explicit_attrs_no_path (hd_mode h1) (hd_uid h1) (hd_gid h1)
             (hd_mtime h1) user group).
  rewrite lookup_spread, lookup_fmap, lookup_singleton_eq.
  reflexivity.
Qed.

(** [gnu_buffer]: the entry after the long name header is named by its
    payload. *)
Lemma gnu_long_name_next_entry_witness :
  let st1 := step_from gnu_buffer no_opts 0 initial_state in
  let st2 := step_from gnu_buffer no_opts 1024 st1 in
  parseTar_body gnu_buffer no_opts 0 initial_state = Some (Continue st1)
  ∧ read_header gnu_buffer 0 = Some gnu_header
  ∧ is_gnu_long (hd_type gnu_header) = true
  ∧ parseTar_body gnu_buffer no_opts 1024 st1 = Some (Continue st2)
  ∧ files st2 = files st1 ++ [last_entry st2]
  ∧ meta_name (entry_meta (last_entry st2)) = str "long/name.txt".
Proof.
  cbn zeta.
  set (st1 := step_from gnu_buffer no_opts 0 initial_state).
  set (st2 := step_from gnu_buffer no_opts 1024 st1).
  assert (parseTar_body gnu_buffer no_opts 0 initial_state
          = Some (Continue st1)) as H1 by (vm_compute; reflexivity).
  assert (read_header gnu_buffer 0 = Some gnu_header) as H2
    by (vm_compute; reflexivity).
  assert (is_gnu_long (hd_type gnu_header) = true) as H3
    by (vm_compute; reflexivity).
  assert (parseTar_body gnu_buffer no_opts 1024 st1 = Some (Continue st2))
    as H4 by (vm_compute; reflexivity).
  assert (files st2 = files st1 ++ [last_entry st2]) as H5
    by (vm_compute; reflexivity).
  split; [exact H1|]. split; [exact H2|]. split; [exact H3|].
  split; [exact H4|]. split; [exact H5|].
  destruct (gnu_long_name_next_entry gnu_buffer no_opts 0 initial_state st1
              gnu_header H1 H2 H3) as (path & Hpath & _ & _ & Hnext).
  assert (_readString gnu_buffer (0 + 512) (hd_size gnu_header)
          = Some (str "long/name.txt")) as Hp by (vm_compute; reflexivity).
  rewrite Hp in Hpath. injection Hpath as <-.
  destruct (Hnext 1024 st2 (last_entry st2) H4 H5 ltac:(discriminate))
    as ((user & group & Hu) & _ & _).
  assert (read_ustar gnu_buffer 1024 (str "long/name.txt")
          = Some (None, None, str "long/name.txt")) as Hu'
    by (vm_compute; reflexivity).
  rewrite Hu' in Hu. symmetry. exact (Some_pair_snd _ _ _ _ Hu).
Defined.

(** ** The buffer of [createTar] *)

Lemma long_name_archive_created :
  createTar sample_clock [long_name_dir] sample_opts = Some long_name_archive.
Proof. vm_compute. reflexivity. Qed.

Local Open Scope nat_scope.

Lemma nf_size_normalize file :
  nf_size (normalize file) = length (payload_of file).
Proof.
  unfold normalize, payload_of. cbn [nf_size].
  by destruct (_normalizeData (file_data file)).
Qed.

Lemma entries_size_normalize files :
  entries_size (normalize <$> files) = sum_list_with entry_span files.
Proof.
  induction files as [|file files IH]; [done|].
  rewrite fmap_cons. cbn [entries_size sum_list_with].
  rewrite IH, nf_size_normalize. done.
Qed.

Lemma bufSize_spec t :
  bufSize t mod 10240 = 0 ∧ t ≤ bufSize t < t + 10240.
Proof.
  unfold bufSize.
  pose proof (Nat.div_mod_eq t 10240) as Hdm.
  pose proof (Nat.mod_upper_bound t 10240 ltac:(done)) as Hub.
  destruct (Nat.eqb_spec (t mod 10240) 0) as [E|E].
  - split; [|lia]. rewrite Nat.mul_comm. by apply Nat.Div0.mod_mul.
  - split; [|lia].
    replace (10240 * (t / 10240) + 10240) with ((t / 10240 + 1) * 10240) by lia.
    by apply Nat.Div0.mod_mul.
Qed.

(** X20. The buffer [createTar] returns has the least length that is a
    multiple of 10240 and holds every entry (512 bytes of header and the
    payload rounded up to a multiple of 512); for no entries it is empty.
    Every byte after the last entry is NUL. *)
Theorem createTar_buffer_size now files opts buffer :
  createTar now files opts = Some buffer →
  length buffer mod 10240 = 0
  ∧ sum_list_with entry_span files ≤ length buffer
    < sum_list_with entry_span files + 10240
  ∧ (files = [] → buffer = [])
  ∧ ∀ i, sum_list_with entry_span files ≤ i < length buffer →
         buffer !! i = Some Byte.x00.
Proof.
  rewrite createTar_layout. intros Hc. injection Hc as <-.
  set (fs := normalize <$> files).
  pose proof (normalize_size_ok files) as Hok. fold fs in Hok.
  pose proof (tarDataSize_entries_size fs Hok) as Ht.
  pose proof (length_entry_blocks opts now 0 fs Hok) as Hl.
  pose proof (entries_size_normalize files) as Hs. fold fs in Hs.
  pose proof (bufSize_spec (tarDataSize fs)) as [Hm Hb].
  assert (length (entry_blocks opts now 0 fs
                    ++ zeros (bufSize (tarDataSize fs) - tarDataSize fs))
          = bufSize (tarDataSize fs)) as Hlen.
  { rewrite length_app, length_zeros. lia. }
  rewrite Hlen, <- Hs, <- Ht.
  split; [done|]. split; [done|]. split.
  - intros ->. reflexivity.
  - intros i Hi. rewrite lookup_app_r by lia.
    unfold zeros. apply lookup_replicate_2. lia.
Qed.

(** The buffer of [sample_files], two entries of 1024 and 512 bytes: 10240
    bytes, NUL from byte 1536 on. *)
Lemma createTar_buffer_size_witness :
  createTar sample_clock sample_files sample_opts = Some sample_archive
  ∧ sum_list_with entry_span sample_files = 1536%nat
  ∧ length sample_archive = 10240%nat
  ∧ sample_archive !! 1536%nat = Some Byte.x00.
Proof.
  split; [exact sample_archive_created|].
  assert (sum_list_with entry_span sample_files = 1536%nat) as Hs
    by (vm_compute; reflexivity).
  split; [exact Hs|].
  destruct (createTar_buffer_size sample_clock sample_files sample_opts
              sample_archive sample_archive_created)
    as (Hm & Hb & _ & Hz).
  rewrite Hs in Hb, Hz.
  assert (length sample_archive = 10240%nat) as Hl.
  { clear -Hm Hb. set (L := length sample_archive) in *. clearbody L.
    remember 10240%nat as m eqn:Em.
    apply Nat.Div0.div_exact in Hm.
    set (q := (L / m)%nat) in *. clearbody q.
    assert (m = 10 * 1024)%nat as -> by (subst m; vm_compute; reflexivity).
    clear Em. lia. }
  split; [exact Hl|].
  apply Hz. rewrite Hl.
  split; [reflexivity|apply Nat.ltb_lt; vm_compute; reflexivity].
Defined.

(** X21. The header of entry [i] in the buffer is made of sixteen fields:
    name, mode, uid, gid, size, mtime, checksum, type, 100 NULs (the link
    name is not written), "ustar", "00", user, group, and 16, 155 and 12
    NULs (the device numbers and the prefix are not written). *)
Theorem createTar_header_fields now files opts buffer i file :
  createTar now files opts = Some buffer →
  (normalize <$> files) !! i = Some file →
  view buffer (header_offset (normalize <$> files) i) 512
  = Some (concat (header_segments opts (now i) file
                    (chksum_field opts (now i) file))).
Proof.
  intros Hc Hi.
  destruct (createTar_entry _ _ _ _ _ _ Hc Hi) as (pre & post & -> & Hpre & _).
  unfold entry_block. rewrite <- !app_assoc.
  apply view_middle; [done|].
  fold (final_header opts (now i) file). by rewrite length_final_header.
Qed.

(** The header of the directory of [sample_archive], field by field. *)
Lemma createTar_header_fields_witness :
  createTar sample_clock sample_files sample_opts = Some sample_archive
  ∧ (normalize <$> sample_files) !! 1%nat = Some (normalize (sample_dir "d"))
  ∧ view sample_archive (header_offset (normalize <$> sample_files) 1) 512
    = Some (concat (header_segments sample_opts (sample_clock 1%nat)
                      (normalize (sample_dir "d"))
                      (chksum_field sample_opts (sample_clock 1%nat)
                         (normalize (sample_dir "d"))))).
Proof.
  split; [exact sample_archive_created|]. split; [reflexivity|].
  exact (createTar_header_fields sample_clock sample_files sample_opts
           sample_archive 1 (normalize (sample_dir "d"))
           sample_archive_created eq_refl).
Defined.

(** X22. The payload of entry [i] is copied as it is right after its header
    and filled with NULs up to a multiple of 512 bytes, where the next
    header starts. *)
Theorem createTar_payload now files opts buffer i file :
  createTar now files opts = Some buffer →
  files !! i = Some file →
  let fs := normalize <$> files in
  let size := length (payload_of file) in
  view buffer (header_offset fs i + 512) (payload_blocks size)
  = Some (payload_of file ++ zeros (payload_blocks size - size))
  ∧ header_offset fs (S i) = header_offset fs i + 512 + payload_blocks size
  ∧ size ≤ payload_blocks size < size + 512
  ∧ payload_blocks size mod 512 = 0.
Proof.
  intros Hc Hi fs size.
  assert (fs !! i = Some (normalize file)) as Hfi.
  { unfold fs. by rewrite list_lookup_fmap, Hi. }
  destruct (createTar_entry _ _ _ _ _ _ Hc Hfi) as (pre & post & -> & Hpre & _).
  fold fs in Hpre.
  pose proof (payload_blocks_bounds size) as [Hb Hm].
  assert (payload (normalize file) = payload_of file) as Hp by done.
  assert (nf_size (normalize file) = size) as Hsz
    by apply nf_size_normalize.
  split; [|split; [|done]].
  - unfold entry_block. rewrite Hp, Hsz. rewrite <- !app_assoc.
    rewrite (app_assoc pre), (app_assoc (payload_of file)).
    apply view_middle.
    + rewrite length_app, length_final_header. lia.
    + rewrite length_app, length_zeros. fold size. lia.
  - unfold header_offset.
    rewrite (take_S_r fs i (normalize file) Hfi).
    assert (∀ l1 l2, entries_size (l1 ++ l2)
                     = entries_size l1 + entries_size l2) as Happ.
    { intros l1 l2. induction l1 as [|x l1 IH]; [done|].
      cbn [app entries_size]. rewrite IH. lia. }
    rewrite Happ. cbn [entries_size]. rewrite Hsz. lia.
Qed.

(** The payload of the file of [sample_archive]: 8 bytes and 504 NULs. *)
Lemma createTar_payload_witness :
  createTar sample_clock sample_files sample_opts = Some sample_archive
  ∧ sample_files !! 0%nat = Some sample_file
  ∧ view sample_archive
      (header_offset (normalize <$> sample_files) 0 + 512)
      (payload_blocks (length (payload_of sample_file)))
    = Some (payload_of sample_file
            ++ zeros (payload_blocks (length (payload_of sample_file))
                      - length (payload_of sample_file))).
Proof.
  split; [exact sample_archive_created|]. split; [reflexivity|].
  exact (proj1 (createTar_payload sample_clock sample_files sample_opts
                  sample_archive 0 sample_file
                  sample_archive_created eq_refl)).
Defined.

Local Open Scope Z_scope.

Lemma _readString_entry_field opts now file pre post k x z n :
  header_segments opts now file (chksum_field opts now file) !! k = Some x →
  z = Z.of_nat (length pre
                + seg_offset (header_segments opts now file
                                (chksum_field opts now file)) k) →
  n = Z.of_nat (length x) →
  _readString (pre ++ entry_block opts now file ++ post) z (Some n)
  = Some (TextDecoder_decode (cstring x)).
Proof.
  intros Hk Hz Hn. unfold entry_block, final_header.
  rewrite <- !app_assoc. by eapply _readString_segment.
Qed.

(** X23. An entry without attributes in an archive without default
    attributes gets mode 664 (775 for a directory), uid and gid 1000,
    written as the octal strings [0000664], [0000775] and [0001750], and an
    empty user and group. *)
Theorem createTar_default_attrs now files buffer i file :
  createTar now files {| create_attrs := None |} = Some buffer →
  files !! i = Some file →
  file_attrs file = None →
  let off := Z.of_nat (header_offset (normalize <$> files) i) in
  _readString buffer (off + 100) (Some 8)
  = Some (match file_data file with
          | NoData => str "0000775"
          | _ => str "0000664"
          end)
  ∧ _readString buffer (off + 108) (Some 8) = Some (str "0001750")
  ∧ _readString buffer (off + 116) (Some 8) = Some (str "0001750")
  ∧ _readString buffer (off + 265) (Some 32) = Some []
  ∧ _readString buffer (off + 297) (Some 32) = Some [].
Proof.
  intros Hc Hi Hattrs off.
  assert ((normalize <$> files) !! i = Some (normalize file)) as Hfi
    by (by rewrite list_lookup_fmap, Hi).
  destruct (createTar_entry _ _ _ _ _ _ Hc Hfi) as (pre & post & -> & Hpre & _).
  unfold off. rewrite <- Hpre.
  set (opts := {| create_attrs := None |}).
  assert (∀ A (get : Attrs → option A) d,
            attr get (normalize file) opts d = d) as Hattr.
  { intros A get d. unfold attr. cbn [normalize nf_file]. by rewrite Hattrs. }
  assert (∀ k x z n,
            header_segments opts (now i) (normalize file)
              (chksum_field opts (now i) (normalize file)) !! k = Some x →
            z = Z.of_nat (length pre
                          + seg_offset (header_segments opts (now i) (normalize file)
                                          (chksum_field opts (now i) (normalize file))) k) →
            n = Z.of_nat (length x) →
            _readString (pre ++ entry_block opts (now i) (normalize file) ++ post)
              z (Some n)
            = Some (TextDecoder_decode (cstring x))) as Hread
    by (intros; by eapply _readString_entry_field).
  split; [|split; [|split; [|split]]].
  - erewrite (Hread 1%nat); [|reflexivity|unfold header_segments; read_side|read_side].
    rewrite Hattr. cbn [normalize nf_data].
    by destruct (file_data file); vm_compute.
  - erewrite (Hread 2%nat); [|reflexivity|unfold header_segments; read_side|read_side].
    rewrite Hattr. by vm_compute.
  - erewrite (Hread 3%nat); [|reflexivity|unfold header_segments; read_side|read_side].
    rewrite Hattr. by vm_compute.
  - erewrite (Hread 11%nat); [|reflexivity|unfold header_segments; read_side|read_side].
    rewrite Hattr. by vm_compute.
  - erewrite (Hread 12%nat); [|reflexivity|unfold header_segments; read_side|read_side].
    rewrite Hattr. by vm_compute.
Qed.

(** The directory of [sample_archive] has no attributes: mode 775. *)
Lemma createTar_default_attrs_witness :
  createTar sample_clock sample_files {| create_attrs := None |}
  = Some sample_archive
  ∧ sample_files !! 1%nat = Some (sample_dir "d")
  ∧ file_attrs (sample_dir "d") = None
  ∧ _readString sample_archive
      (Z.of_nat (header_offset (normalize <$> sample_files) 1) + 100) (Some 8)
    = Some (str "0000775").
Proof.
  split; [exact sample_archive_created|]. split; [reflexivity|].
  split; [reflexivity|].
  exact (proj1 (createTar_default_attrs sample_clock sample_files
                  sample_archive 1 (sample_dir "d")
                  sample_archive_created eq_refl eq_refl)).
Defined.

(** X24. A name of ASCII characters without NUL, however long, is written
    without an error and without a long-name header: the name field of
    entry [i] reads back as the first 100 bytes of the name. *)
Theorem createTar_name_truncated now files opts buffer i file :
  createTar now files opts = Some buffer →
  files !! i = Some file →
  Forall is_ascii (file_name file) →
  Byte.x00 ∉ file_name file →
  _readString buffer (Z.of_nat (header_offset (normalize <$> files) i))
    (Some 100)
  = Some (take 100 (file_name file)).
Proof.
  intros Hc Hi Hascii Hnul.
  assert ((normalize <$> files) !! i = Some (normalize file)) as Hfi
    by (by rewrite list_lookup_fmap, Hi).
  destruct (createTar_entry _ _ _ _ _ _ Hc Hfi) as (pre & post & -> & Hpre & _).
  rewrite <- Hpre.
  erewrite (_readString_entry_field _ _ _ _ _ 0%nat);
    [|reflexivity|unfold header_segments; read_side|read_side].
  cbn [normalize nf_file]. by rewrite ascii_field_read.
Qed.

(** A name of 120 characters comes back with 100. *)
Lemma createTar_name_truncated_witness :
  createTar sample_clock [long_name_dir] sample_opts = Some long_name_archive
  ∧ [long_name_dir] !! 0%nat = Some long_name_dir
  ∧ Forall is_ascii (file_name long_name_dir)
  ∧ (Byte.x00 ∉ file_name long_name_dir)
  ∧ _readString long_name_archive
      (Z.of_nat (header_offset (normalize <$> [long_name_dir]) 0)) (Some 100)
    = Some (take 100 (file_name long_name_dir)).
Proof.
  assert (Forall is_ascii (file_name long_name_dir)) as H1
    by (apply (bool_decide_unpack _); vm_compute; exact I).
  assert (Byte.x00 ∉ file_name long_name_dir) as H2
    by (apply (bool_decide_unpack _); vm_compute; exact I).
  split; [exact long_name_archive_created|]. split; [reflexivity|].
  split; [exact H1|]. split; [exact H2|].
  exact (createTar_name_truncated sample_clock [long_name_dir] sample_opts
           long_name_archive 0 long_name_dir long_name_archive_created
           eq_refl H1 H2).
Defined.

(** ** The header of an encoded entry, read back *)

Lemma is_octal_digit b :
  is_octal b →
  is_ascii b ∧ ∃ d, digit_val b = Some d ∧ (d < 8)%N.
Proof.
  unfold is_octal, is_ascii, digit_val. intros [H1 H2]. split; [lia|].
  exists (b2N b - 48)%N. cbn zeta.
  destruct (N.leb_spec 48 (b2N b)); [|lia].
  destruct (N.leb_spec (b2N b) 57); [|lia].
  cbn [andb]. split; [done|lia].
Qed.

Lemma octal_digits_of s :
  Forall is_octal s → ∃ n, digits_of 8 s n.
Proof.
  intros H. eexists. split; [|reflexivity].
  eapply Forall_impl; [exact H|]. apply is_octal_digit.
Qed.

Lemma digits_of_no_nul R ds n : digits_of R ds n → Byte.x00 ∉ ds.
Proof.
  intros [Hall _] Hin.
  apply (proj1 (Forall_forall _ _) Hall) in Hin as (_ & d & Hd & _).
  vm_compute in Hd. discriminate Hd.
Qed.

Lemma string_field_read s size :
  fits_field s size → TextDecoder_decode (cstring (field s size)) = s.
Proof.
  intros (Hnul & Hbom & Hlen).
  rewrite cstring_field by done. by apply TextDecoder_decode_no_BOM.
Qed.

Lemma digits_field_read ds n size :
  digits_of 8 ds n → (length ds ≤ size)%nat →
  TextDecoder_decode (cstring (field ds size)) = ds.
Proof.
  intros Hds Hlen. apply string_field_read. split; [|split; [|done]].
  - by eapply digits_of_no_nul.
  - apply ascii_no_BOM. by eapply digits_of_nonempty.
Qed.

(** A digit is not the last byte of a white space character. *)
Lemma strip_one_reverse_digit b d s :
  digit_val b = Some d →
  strip_one (reverse <$> js_whitespace) (b :: s) = None.
Proof.
  intros Hd.
  set (pats := reverse <$> js_whitespace). vm_compute in pats. subst pats.
  cbn [strip_one].
  repeat match goal with
  | |- context [startsWith (b :: s) ?p] =>
      let E := fresh in
      destruct (startsWith (b :: s) p) eqn:E;
      [ exfalso; unfold startsWith in E; apply bool_decide_eq_true in E;
        cbn [length take firstn] in E; apply (f_equal head) in E;
        cbn [head] in E; injection E as ->;
        vm_compute in Hd; discriminate
      | clear E ]
  end.
  done.
Qed.

Lemma trimEnd_digit s b d :
  digit_val b = Some d → trimEnd (s ++ [b]) = s ++ [b].
Proof.
  intros Hd. unfold trimEnd. rewrite reverse_snoc.
  rewrite length_app. cbn [length]. rewrite Nat.add_1_r. cbn [strip_loop].
  rewrite (strip_one_reverse_digit b d) by done.
  by rewrite reverse_cons, reverse_involutive.
Qed.

Lemma trim_digits ds n : digits_of 8 ds n → trim ds = ds.
Proof.
  intros [Hall _]. unfold trim.
  destruct ds as [|b ds]; [done|].
  pose proof (Forall_inv Hall) as (_ & d & Hd & _).
  rewrite (trimStart_digit b d) by done.
  destruct (decide (ds = [])) as [->|Hne].
  - by apply (trimEnd_digit [] b d).
  - destruct (exists_last Hne) as (ds' & c & ->).
    apply Forall_cons in Hall as [_ Hall].
    apply Forall_app in Hall as [_ Hc].
    apply Forall_inv in Hc as (_ & dc & Hdc & _).
    change (b :: ds' ++ [c]) with ((b :: ds') ++ [c]).
    by apply (trimEnd_digit _ c dc).
Qed.

(** [parseInt] without a radix on a string of octal digits. *)
Lemma parseInt_no_radix ds n :
  digits_of 8 ds n → ds ≠ [] →
  parseInt ds 0 = Some (Z.of_N (digits_val 10 0 ds)).
Proof.
  intros [Hall _] Hne.
  destruct ds as [|b ds]; [done|].
  pose proof (Forall_inv Hall) as (_ & d & Hd & _).
  unfold parseInt.
  rewrite (trimStart_digit b d) by done.
  rewrite !(startsWith_digit_sign b d) by auto.
  change (0 =? 0)%Z with true. cbn [orb andb negb].
  assert (startsWith (b :: ds) (str "0x") = false
          ∧ startsWith (b :: ds) (str "0X") = false) as [-> ->].
  { unfold startsWith.
    split; apply bool_decide_eq_false; destruct ds as [|c ds];
      cbn [str length take firstn]; intros E; simpl in E;
      try discriminate E.
    - injection E as -> ->. apply Forall_cons in Hall as [_ Hall].
      apply Forall_inv in Hall as (_ & dc & Hdc & Hlt).
      vm_compute in Hdc. injection Hdc as <-. vm_compute in Hlt.
      discriminate Hlt.
    - injection E as -> ->. apply Forall_cons in Hall as [_ Hall].
      apply Forall_inv in Hall as (_ & dc & Hdc & Hlt).
      vm_compute in Hdc. injection Hdc as <-. vm_compute in Hlt.
      discriminate Hlt. }
  cbn [orb].
  change (Z.to_N 10) with 10%N.
  rewrite <- (app_nil_r (b :: ds)) at 1.
  rewrite parse_digits_app.
  - cbn [parse_digits default from_option id]. f_equal. lia.
  - eapply Forall_impl; [exact Hall|].
    intros c (Hc & dc & Hdc & Hlt). split; [done|].
    exists dc. split; [done|lia].
Qed.

Lemma read_header_entry opts now file pre post :
  let isDir := bool_decide (nf_data file = None) in
  read_header (pre ++ entry_block opts now file ++ post)
    (Z.of_nat (length pre))
  = Some
      {| hd_raw_name :=
           TextDecoder_decode (cstring (field (file_name (nf_file file)) 100));
         hd_mode :=
           trim (TextDecoder_decode
                   (cstring (field (_leftPad
                                      (attr attr_mode file opts
                                         (if isDir then str "775" else str "664"))
                                      7) 8)));
         hd_uid :=
           parseInt (TextDecoder_decode
                       (cstring (field (_leftPad
                                          (Number_toString
                                             (attr attr_uid file opts 1000) 8)
                                          7) 8))) 0;
         hd_gid :=
           parseInt (TextDecoder_decode
                       (cstring (field (_leftPad
                                          (Number_toString
                                             (attr attr_gid file opts 1000) 8)
                                          7) 8))) 0;
         hd_size :=
           parseInt (concat (String_fromCodePoint
                               <$> field (_leftPad
                                            (Number_toString
                                               (Z.of_nat (nf_size file)) 8)
                                            11) 12)) 8;
         hd_mtime :=
           parseInt (concat (String_fromCodePoint
                               <$> field (_leftPad
                                            (Number_toString
                                               (Z.quot (attr attr_mtime file opts now)
                                                       1000) 8)
                                            11) 12)) 8;
         hd_code :=
           (λ s, if bool_decide (s = []) then str "0" else s)
             (TextDecoder_decode
                (cstring (field (if isDir then str "5" else str "0") 1))) |}.
Proof.
  intros isDir. unfold entry_block, final_header. rewrite <- !app_assoc.
  set (post' := payload file ++ _).
  unfold read_header, header_segments. fold isDir.
  read_string 0%nat (Z.of_nat (length pre)) 100%Z. cbn [mbind option_bind].
  read_string 1%nat (Z.of_nat (length pre) + 100)%Z 8%Z.
  read_string 2%nat (Z.of_nat (length pre) + 108)%Z 8%Z.
  read_string 3%nat (Z.of_nat (length pre) + 116)%Z 8%Z.
  read_number 4%nat (Z.of_nat (length pre) + 124)%Z 12%Z.
  read_number 5%nat (Z.of_nat (length pre) + 136)%Z 12%Z.
  read_string 7%nat (Z.of_nat (length pre) + 156)%Z 1%Z.
  reflexivity.
Qed.

Lemma read_ustar_entry opts now file pre post name :
  read_ustar (pre ++ entry_block opts now file ++ post)
    (Z.of_nat (length pre)) name
  = Some (Some (TextDecoder_decode
                  (cstring (field (attr attr_user file opts []) 32))),
          Some (TextDecoder_decode
                  (cstring (field (attr attr_group file opts []) 32))),
          name).
Proof.
  unfold entry_block, final_header. rewrite <- !app_assoc.
  set (post' := payload file ++ _).
  unfold read_ustar, header_segments.
  read_string 9%nat (Z.of_nat (length pre) + 257)%Z 6%Z.
  read_string 11%nat (Z.of_nat (length pre) + 265)%Z 32%Z.
  read_string 12%nat (Z.of_nat (length pre) + 297)%Z 32%Z.
  read_string 14%nat (Z.of_nat (length pre) + 345)%Z 155%Z.
  cbn [mbind option_bind].
  rewrite magic_field, prefix_field.
  rewrite (bool_decide_eq_true_2 (str "ustar" = str "ustar")) by done.
  rewrite (bool_decide_eq_true_2 (@nil byte = [])) by done.
  reflexivity.
Qed.

Lemma octal_pad_read (n : Z) :
  0 ≤ n < 8 ^ 7 →
  ∃ m, digits_of 8 (_leftPad (Number_toString n 8) 7) m
       ∧ length (_leftPad (Number_toString n 8) 7) = 7%nat
       ∧ digits_val 10 0 (_leftPad (Number_toString n 8) 7)
         = digits_val 10 0 (Number_toString n 8).
Proof.
  intros Hn.
  destruct (Number_toString_digits n 7 ltac:(simpl; lia) ltac:(lia))
    as (ds & -> & Hds & Hlen).
  destruct (digits_of_leftPad ds _ 7 Hds) as [Hpad Hplen].
  exists (Z.to_N n). split; [done|]. split; [lia|].
  unfold _leftPad. apply digits_val_pad.
Qed.

Lemma uid_field_read (n : Z) :
  0 ≤ n < 8 ^ 7 →
  parseInt (TextDecoder_decode
              (cstring (field (_leftPad (Number_toString n 8) 7) 8))) 0
  = Some (octal_as_decimal n).
Proof.
  intros Hn. destruct (octal_pad_read n Hn) as (m & Hds & Hlen & Hval).
  rewrite (digits_field_read _ m) by (try done; lia).
  rewrite (parseInt_no_radix _ m Hds).
  - unfold octal_as_decimal. by rewrite Hval.
  - intros E. rewrite E in Hlen. discriminate Hlen.
Qed.

(** X25. What [parseTar] reads back from the header that [createTar] writes
    for entry [i]: the mode padded with zeros to seven characters, when it
    is made of at most seven octal digits; the mtime divided by 1000, the
    milliseconds dropped, when that is from 0 to 8^12 - 1; the user and the
    group as they are, when they fit 32 bytes. *)
Theorem createTar_attrs_read_back now files opts buffer i file :
  createTar now files opts = Some buffer →
  files !! i = Some file →
  let nf := normalize file in
  let off := Z.of_nat (header_offset (normalize <$> files) i) in
  let mode :=
    attr attr_mode nf opts
      (match file_data file with NoData => str "775" | _ => str "664" end) in
  let mtime := attr attr_mtime nf opts (now i) in
  let user := attr attr_user nf opts [] in
  let group := attr attr_group nf opts [] in
  ∃ h u g,
    read_header buffer off = Some h
    ∧ (∀ name, read_ustar buffer off name = Some (Some u, Some g, name))
    ∧ (Forall is_octal mode → (length mode ≤ 7)%nat →
       hd_mode h = _leftPad mode 7 ∧ length (hd_mode h) = 7%nat)
    ∧ (0 ≤ Z.quot mtime 1000 < 8 ^ 12 →
       hd_mtime h = Some (Z.quot mtime 1000))
    ∧ (fits_field user 32 → u = user)
    ∧ (fits_field group 32 → g = group).
Proof.
  intros Hc Hi nf off mode mtime user group.
  assert ((normalize <$> files) !! i = Some nf) as Hfi
    by (by rewrite list_lookup_fmap, Hi).
  destruct (createTar_entry _ _ _ _ _ _ Hc Hfi) as (pre & post & -> & Hpre & _).
  unfold off. rewrite <- Hpre.
  eexists _, _, _. split; [apply read_header_entry|].
  split; [intros name; apply read_ustar_entry|].
  cbn [hd_mode hd_mtime].
  assert ((if bool_decide (nf_data nf = None) then str "775" else str "664")
          = match file_data file with NoData => str "775" | _ => str "664" end)
    as -> by (unfold nf; cbn [normalize nf_data]; by destruct (file_data file)).
  fold mode mtime user group.
  split; [|split; [|split]].
  - intros Hoct Hlen.
    destruct (octal_digits_of mode Hoct) as [n Hds].
    destruct (digits_of_leftPad mode n 7 Hds) as [Hpad Hplen].
    rewrite (digits_field_read _ n) by (try done; lia).
    rewrite (trim_digits _ n) by done. split; [done|lia].
  - intros Hm. by apply size_field_read.
  - apply string_field_read.
  - apply string_field_read.
Qed.

(** The file of [sample_archive]: default mode, mtime 1700000000000 ms,
    user "alice". *)
Lemma createTar_attrs_read_back_witness :
  createTar sample_clock sample_files sample_opts = Some sample_archive
  ∧ sample_files !! 0%nat = Some sample_file
  ∧ ∃ h u g,
      read_header sample_archive
        (Z.of_nat (header_offset (normalize <$> sample_files) 0)) = Some h
      ∧ (∀ name,
           read_ustar sample_archive
             (Z.of_nat (header_offset (normalize <$> sample_files) 0)) name
           = Some (Some u, Some g, name))
      ∧ hd_mode h = str "0000664"
      ∧ hd_mtime h = Some 1700000000
      ∧ u = str "alice".
Proof.
  split; [exact sample_archive_created|]. split; [reflexivity|].
  pose proof (createTar_attrs_read_back sample_clock sample_files sample_opts
                sample_archive 0 sample_file sample_archive_created eq_refl)
    as H.
  cbn zeta in H.
  destruct H as (h & u & g & Hh & Hu & Hmode & Hmtime & Huser & _).
  exists h, u, g. split; [exact Hh|]. split; [exact Hu|].
  split; [|split].
  - apply Hmode.
    + apply (bool_decide_unpack _). vm_compute. exact I.
    + vm_compute. lia.
  - apply Hmtime. vm_compute. split; [intros E; discriminate E|reflexivity].
  - apply Huser. apply (bool_decide_unpack _). vm_compute. exact I.
Defined.

(** X26. The uid and the gid of entry [i], written by [createTar] as seven
    octal digits, are read back by [parseTar] as decimal digits: a uid from
    0 to 8^7 - 1 comes back as the decimal reading of its octal digits, 1000
    as 1750, and a uid below 8 as itself. *)
Theorem createTar_uid_gid_read_back now files opts buffer i file :
  createTar now files opts = Some buffer →
  files !! i = Some file →
  let nf := normalize file in
  let off := Z.of_nat (header_offset (normalize <$> files) i) in
  let uid := attr attr_uid nf opts 1000 in
  let gid := attr attr_gid nf opts 1000 in
  ∃ h,
    read_header buffer off = Some h
    ∧ (0 ≤ uid < 8 ^ 7 → hd_uid h = Some (octal_as_decimal uid))
    ∧ (0 ≤ gid < 8 ^ 7 → hd_gid h = Some (octal_as_decimal gid))
    ∧ octal_as_decimal 1000 = 1750
    ∧ ∀ n, 0 ≤ n < 8 → octal_as_decimal n = n.
Proof.
  intros Hc Hi nf off uid gid.
  assert ((normalize <$> files) !! i = Some nf) as Hfi
    by (by rewrite list_lookup_fmap, Hi).
  destruct (createTar_entry _ _ _ _ _ _ Hc Hfi) as (pre & post & -> & Hpre & _).
  unfold off. rewrite <- Hpre.
  eexists. split; [apply read_header_entry|].
  cbn [hd_uid hd_gid]. fold uid gid.
  split; [apply uid_field_read|]. split; [apply uid_field_read|].
  split; [by vm_compute|].
  intros n Hn.
  assert (n = 0 ∨ n = 1 ∨ n = 2 ∨ n = 3 ∨ n = 4 ∨ n = 5 ∨ n = 6 ∨ n = 7)
    as Hcases by lia.
  destruct Hcases as [->|[->|[->|[->|[->|[->|[->| ->]]]]]]]; by vm_compute.
Qed.

(** The file of [sample_archive]: uid 1000 comes back as 1750, gid 8 as
    10. *)
Lemma createTar_uid_gid_read_back_witness :
  createTar sample_clock sample_files sample_opts = Some sample_archive
  ∧ sample_files !! 0%nat = Some sample_file
  ∧ ∃ h,
      read_header sample_archive
        (Z.of_nat (header_offset (normalize <$> sample_files) 0)) = Some h
      ∧ hd_uid h = Some 1750
      ∧ hd_gid h = Some 10.
Proof.
  split; [exact sample_archive_created|]. split; [reflexivity|].
  pose proof (createTar_uid_gid_read_back sample_clock sample_files
                sample_opts sample_archive 0 sample_file
                sample_archive_created eq_refl) as H.
  cbn zeta in H.
  destruct H as (h & Hh & Huid & Hgid & _).
  exists h. split; [exact Hh|]. split.
  - apply Huid. vm_compute. split; [intros E; discriminate E|reflexivity].
  - apply Hgid. vm_compute. split; [intros E; discriminate E|reflexivity].
Defined.
